(** * Backup and restore orchestration of telecom-lab-tools

    A shallow embedding of [src/backup_restore.py] (class [TelecomBackup])
    and the properties its specification states about it.

    The Python code is effectful: it reads and writes the file system,
    spawns external commands and logs.  The embedding threads an explicit
    [world] (a file-system tree and a trace of observable events) through
    a state-and-exception monad in which, as in Python, the effects made
    before an exception is raised stay in place.

    Modelling conventions.
    - A path is the list of its components below the root directory; a
      component is a file name and holds no separator.  Symbolic links,
      ownership and permission bits are not modelled.
    - File contents are kept symbolic: raw text, the gzip stream of a
      content, a gzip-compressed tar archive with its members, a JSON
      document.  The codecs are external to the program; two files are
      byte-identical when their contents are equal.
    - Times are integers, microseconds of local wall-clock time; one run of
      the tool reads one clock value. *)

From stdpp Require Import gmap strings list fin_maps pretty.
From Stdlib Require Import ZArith Ascii.

#[local] Set Warnings "-register-all".
#[local] Open Scope string_scope.
#[local] Open Scope Z_scope.
#[local] Open Scope list_scope.

Abbreviation path := (list string).

(** ** Data *)

(** What [json.dump] is given: strings and nested dictionaries. *)
Inductive json :=
  | JStr (s : string)
  | JObj (fields : list (string * json)).

(** A node of the file-system tree, and what a regular file holds. *)
Inductive node :=
  | File (mtime : Z) (data : fdata)
  | Dir (entries : gmap string node)
with fdata :=
  | Raw (text : string)
  | Gz (inner : fdata)
  | TarGz (members : list (string * node))
  | Json (doc : json).

#[global] Instance node_inhabited : Inhabited node := populate (Dir ∅).

(** A Python [dict] with string keys: insertion-ordered, keys unique. *)
Module Dict.
Section Dict.
Context {V : Type}.

Fixpoint get (d : list (string * V)) (k : string) : option V :=
  match d with
  | [] => None
  | (k', v) :: d' => if decide (k' = k) then Some v else get d' k
  end.

(** [d[k] = v]: overwrite in place, or append. *)
Fixpoint set (d : list (string * V)) (k : string) (v : V) : list (string * V) :=
  match d with
  | [] => [(k, v)]
  | (k', v') :: d' =>
      if decide (k' = k) then (k, v) :: d' else (k', v') :: set d' k v
  end.

Definition keys (d : list (string * V)) : list string := d.*1.
End Dict.
End Dict.

(** ** Paths *)

(** [Path(p).name]: the last component, empty for the root. *)
Definition name (p : path) : string := List.last p "".

(** [Path(p).parent]. *)
Definition parent (p : path) : path := removelast p.

(** Neither path lies at or below the other. *)
Definition apart (p q : path) : Prop := ¬ p `prefix_of` q ∧ ¬ q `prefix_of` p.

#[global] Instance apart_dec p q : Decision (apart p q).
Proof. unfold apart. apply _. Defined.

(** ** The file-system tree *)

Fixpoint get (t : node) (p : path) {struct p} : option node :=
  match p with
  | [] => Some t
  | c :: p' =>
      match t with
      | Dir es => match es !! c with Some t' => get t' p' | None => None end
      | File _ _ => None
      end
  end.

(** Replace ([Some]) or remove ([None]) the subtree at [p]; nothing happens
    when the directory that would hold it is missing. *)
Fixpoint update (t : node) (p : path) (v : option node) {struct p} : node :=
  match p with
  | [] => default t v
  | c :: p' =>
      match t with
      | Dir es =>
          match p' with
          | [] => Dir (partial_alter (λ _, v) c es)
          | _ :: _ => Dir (alter (λ t', update t' p' v) c es)
          end
      | File _ _ => t
      end
  end.

Definition exists_ (t : node) (p : path) : bool :=
  match get t p with Some _ => true | None => false end.

Definition is_dir (t : node) (p : path) : bool :=
  match get t p with Some (Dir _) => true | _ => false end.

(** [os.makedirs]: create the missing directories along [p]; [None] when a
    component on the way is a regular file. *)
Fixpoint mkdirs (t : node) (p : path) {struct p} : option node :=
  match t with
  | File _ _ => None
  | Dir es =>
      match p with
      | [] => Some t
      | c :: p' =>
          match mkdirs (default (Dir ∅) (es !! c)) p' with
          | Some t' => Some (Dir (<[c:=t']> es))
          | None => None
          end
      end
  end.

(** ** Strings: [str.replace] and shell-style wildcards *)

(** [s.replace(old, new)] for a non-empty [old]: every occurrence, left to
    right, without overlap.  [skip] counts the characters of a matched
    occurrence that are still to be dropped. *)
Fixpoint replace_from (skip : nat) (old new s : string) : string :=
  match s with
  | EmptyString => EmptyString
  | String c s' =>
      match skip with
      | S k => replace_from k old new s'
      | O =>
          if String.prefix old s
          then new +:+ replace_from (String.length old - 1) old new s'
          else String c (replace_from 0 old new s')
      end
  end.

Definition replace (old new s : string) : string := replace_from 0 old new s.

(** A pattern of [fnmatch] with literal characters and [*] only, which is
    all the program uses. *)
Inductive pitem := Star | Lit (c : Ascii.ascii).

Fixpoint pattern (s : string) : list pitem :=
  match s with
  | EmptyString => []
  | String c s' => (if Ascii.eqb c "*"%char then Star else Lit c) :: pattern s'
  end.

Fixpoint wild (pat : list pitem) (s : string) : bool :=
  match pat with
  | [] => match s with EmptyString => true | _ => false end
  | Lit c :: pat' =>
      match s with
      | String c' s' => Ascii.eqb c c' && wild pat' s'
      | EmptyString => false
      end
  | Star :: pat' =>
      (fix star (s : string) : bool :=
         wild pat' s || match s with String _ s' => star s' | EmptyString => false end) s
  end.

Definition fnmatch (s pat : string) : bool := wild (pattern pat) s.

(** ** Exceptions, environment, world *)

Inductive exn :=
  | FileNotFoundError (p : path)
  | FileExistsError (p : path)
  | NotADirectoryError (p : path)
  | IsADirectoryError (p : path)
  | ShutilError (p : path)
  | ReadError (p : path)
  | OSError (msg : string).

Definition str_path (p : path) : string := "/" +:+ String.concat "/" p.

Definition str_exn (e : exn) : string :=
  match e with
  | FileNotFoundError p => "No such file or directory: " +:+ str_path p
  | FileExistsError p => "File exists: " +:+ str_path p
  | NotADirectoryError p => "Not a directory: " +:+ str_path p
  | IsADirectoryError p => "Is a directory: " +:+ str_path p
  | ShutilError p => "copy failed: " +:+ str_path p
  | ReadError p => "not a gzip file: " +:+ str_path p
  | OSError msg => msg
  end.

Inductive res (A : Type) :=
  | Ok (a : A)
  | Raise (e : exn).
Arguments Ok {A} a.
Arguments Raise {A} e.

(** A finished child process ([subprocess.CompletedProcess]). *)
Record proc := Completed { returncode : Z; stdout : string; stderr : string }.

(** What the program cannot decide by itself. *)
Record environment := {
  clock : Z;                      (* [datetime.now()] *)
  stamp : string;                 (* its rendering by [create_timestamp] *)
  nodename : string;              (* [os.uname().nodename] *)
  dir_mtime : path → Z;           (* [st_mtime] of a directory *)
  io_fault : path → option exn;   (* a source that cannot be read *)
  spawn : list string → option fdata → res proc   (* [subprocess.run] *)
}.

Inductive level := INFO | WARNING | ERROR.

Inductive event :=
  | Log (lvl : level) (msg : string)
  | Exec (argv : list string)
  | Open (p : path).

Record world := World { fs : node; trace : list event }.

Definition with_fs (w : world) (t : node) : world :=
  {| fs := t; trace := trace w |}.

Definition emit (w : world) (e : event) : world :=
  {| fs := fs w; trace := trace w ++ [e] |}.

(** ** The monad: state that survives exceptions *)

Definition M (A : Type) : Type := world → res A * world.

#[global] Instance M_ret : MRet M := λ A a w, (Ok a, w).
#[global] Instance M_bind : MBind M := λ A B k m w,
  match m w with
  | (Ok a, w') => k a w'
  | (Raise e, w') => (Raise e, w')
  end.

#[global] Instance M_fmap : FMap M := λ A B f m w,
  match m w with
  | (Ok a, w') => (Ok (f a), w')
  | (Raise e, w') => (Raise e, w')
  end.

Definition raise {A} (e : exn) : M A := λ w, (Raise e, w).

(** [try: m except Exception as e: h e] *)
Definition try_ {A} (m : M A) (h : exn → M A) : M A := λ w,
  match m w with
  | (Ok a, w') => (Ok a, w')
  | (Raise e, w') => h e w'
  end.

(** [for x in l: acc = body acc x] *)
Fixpoint foldM {A B} (body : B → A → M B) (acc : B) (l : list A) : M B :=
  match l with
  | [] => mret acc
  | x :: l' => acc' ← body acc x; foldM body acc' l'
  end.

(** [for x in l: body x], where the body may [return] from the enclosing
    function: [Some r] stops the loop with [r]. *)
Fixpoint for_ {A R} (l : list A) (body : A → M (option R)) : M (option R) :=
  match l with
  | [] => mret None
  | x :: l' =>
      r ← body x;
      match r with
      | Some v => mret (Some v)
      | None => for_ l' body
      end
  end.

Definition get_fs : M node := λ w, (Ok (fs w), w).

Definition modify_fs (f : node → res node) : M unit := λ w,
  match f (fs w) with
  | Ok t => (Ok tt, with_fs w t)
  | Raise e => (Raise e, w)
  end.

Definition tell (e : event) : M unit := λ w, (Ok tt, emit w e).

Definition logger (lvl : level) (msg : string) : M unit := tell (Log lvl msg).

(** ** File-system primitives *)

(** Lay the tree [src] over what is at the destination ([None]: nothing).
    Directories merge, files overwrite files; [None] is a clash of kinds.
    With [into] (the [shutil.copy2] behaviour inside [copytree]) a file
    whose destination is a directory is written into that directory under
    its own name.  What a real run leaves behind after a clash depends on
    the order of the directory listing; here a clash changes nothing. *)
Fixpoint graft (into : bool) (src : node) (dst : option node) {struct src} : option node :=
  match src with
  | File m d =>
      match dst with
      | Some (Dir _) => None
      | _ => Some (File m d)
      end
  | Dir es =>
      match dst with
      | Some (File _ _) => None
      | _ =>
          let ds := match dst with Some (Dir ds) => ds | _ => ∅ end in
          let rs := map_imap (λ k c,
                      Some (match c, ds !! k with
                            | File m d, Some (Dir sub) =>
                                if into then
                                  match sub !! k with
                                  | Some (Dir _) => None
                                  | _ => Some (Dir (<[k:=File m d]> sub))
                                  end
                                else None
                            | _, o => graft into c o
                            end)) es in
          if decide (map_Forall (λ _ r, is_Some r) rs)
          then Some (Dir (omap id rs ∪ ds))
          else None
      end
  end.

(** [Path.mkdir(parents=..., exist_ok=...)] *)
Definition fs_mkdir (parents exist_ok : bool) (p : path) (t : node) : res node :=
  match get t p with
  | Some (Dir _) => if exist_ok then Ok t else Raise (FileExistsError p)
  | Some (File _ _) => Raise (FileExistsError p)
  | None =>
      if parents then
        match mkdirs t p with
        | Some t' => Ok t'
        | None => Raise (NotADirectoryError p)
        end
      else
        match get t (parent p) with
        | Some (Dir _) => Ok (update t p (Some (Dir ∅)))
        | Some (File _ _) => Raise (NotADirectoryError p)
        | None => Raise (FileNotFoundError p)
        end
  end.

(** [os.makedirs(p, exist_ok=True)] *)
Definition fs_makedirs (p : path) (t : node) : res node :=
  match mkdirs t p with
  | Some t' => Ok t'
  | None => Raise (FileExistsError p)
  end.

(** [shutil.rmtree] *)
Definition fs_rmtree (p : path) (t : node) : res node :=
  match get t p with
  | Some (Dir _) => Ok (update t p None)
  | Some (File _ _) => Raise (NotADirectoryError p)
  | None => Raise (FileNotFoundError p)
  end.

(** [Path.unlink] *)
Definition fs_unlink (p : path) (t : node) : res node :=
  match get t p with
  | Some (File _ _) => Ok (update t p None)
  | Some (Dir _) => Raise (IsADirectoryError p)
  | None => Raise (FileNotFoundError p)
  end.

(** Create or truncate the regular file [p] and give it its content. *)
Definition fs_write (p : path) (f : node) (t : node) : res node :=
  match get t p with
  | Some (Dir _) => Raise (IsADirectoryError p)
  | _ =>
      match get t (parent p) with
      | Some (Dir _) => Ok (update t p (Some f))
      | Some (File _ _) => Raise (NotADirectoryError p)
      | None => Raise (FileNotFoundError p)
      end
  end.

(** One member of an archive, extracted below [dest]. *)
Definition fs_extract (dest : path) (member : string * node) (t : node) : res node :=
  let target := dest ++ [member.1] in
  match graft false member.2 (get t target) with
  | Some n => Ok (update t target (Some n))
  | None => Raise (FileExistsError target)
  end.

Definition children (t : node) (dir : path) : list string :=
  match get t dir with
  | Some (Dir es) => (map_to_list es).*1
  | _ => []
  end.

Section Program.
Variable E : environment.

Definition path_exists (p : path) : M bool := t ← get_fs; mret (exists_ t p).
Definition path_is_dir (p : path) : M bool := t ← get_fs; mret (is_dir t p).

Definition mkdir (parents exist_ok : bool) (p : path) : M unit :=
  modify_fs (fs_mkdir parents exist_ok p).
Definition rmtree (p : path) : M unit := modify_fs (fs_rmtree p).
Definition unlink (p : path) : M unit := modify_fs (fs_unlink p).

(** [open(p, 'w')], write, close: the file gets the time of the run. *)
Definition write_file (p : path) (d : fdata) : M unit :=
  modify_fs (fs_write p (File (clock E) d));; tell (Open p).

(** The content of a regular file opened for reading. *)
Definition read_file (p : path) : M fdata :=
  t ← get_fs;
  match get t p with
  | Some (File _ d) => mret d
  | Some (Dir _) => raise (IsADirectoryError p)
  | None => raise (FileNotFoundError p)
  end.

(** A source the environment refuses to hand out fails before anything
    is written. *)
Definition readable (src : path) : M unit :=
  match io_fault E src with
  | Some e => raise e
  | None => mret tt
  end.

(** [shutil.copytree(src, dst, dirs_exist_ok=...)]; the source is read
    as it is when the call starts. *)
Definition copytree (src dst : path) (dirs_exist_ok : bool) : M unit :=
  readable src;;
  t ← get_fs;
  match get t src with
  | None => raise (FileNotFoundError src)
  | Some (File _ _) => raise (NotADirectoryError src)
  | Some (Dir es) =>
      (if exists_ t dst && negb (dirs_exist_ok && is_dir t dst)
       then raise (FileExistsError dst) else mret tt);;
      modify_fs (fs_makedirs dst);;
      modify_fs (λ t1,
        match graft true (Dir es) (get t1 dst) with
        | Some n => Ok (update t1 dst (Some n))
        | None => Raise (ShutilError src)
        end)
  end.

(** [shutil.copy2(src, dst)]: content and modification time. *)
Definition copy2 (src dst : path) : M unit :=
  readable src;;
  t ← get_fs;
  match get t src with
  | None => raise (FileNotFoundError src)
  | Some (Dir _) => raise (IsADirectoryError src)
  | Some (File m d) =>
      let target := if is_dir t dst then dst ++ [name src] else dst in
      modify_fs (fs_write target (File m d))
  end.

(** [with tarfile.open(archive, "w:gz") as tar: tar.add(dir, arcname=...)] *)
Definition tar_create (archive dir : path) (arcname : string) : M unit :=
  write_file archive (TarGz []);;
  t ← get_fs;
  match get t dir with
  | None => raise (FileNotFoundError dir)
  | Some n => modify_fs (fs_write archive (File (clock E) (TarGz [(arcname, n)])))
  end.

(** [with tarfile.open(archive, "r:gz") as tar: tar.extractall(dest)] *)
Definition tar_extractall (archive dest : path) : M unit :=
  d ← read_file archive;
  match d with
  | TarGz members =>
      foldM (λ _ member, modify_fs (fs_makedirs dest);; modify_fs (fs_extract dest member))
            tt members
  | _ => raise (ReadError archive)
  end.

(** [subprocess.run(argv, stdin=..., stderr=PIPE)] *)
Definition run (argv : list string) (stdin : option fdata) : M proc :=
  tell (Exec argv);;
  match spawn E argv stdin with
  | Ok r => mret r
  | Raise e => raise e
  end.

(** [with open(out, 'w') as f: subprocess.run(argv, stdout=f, ...)] *)
Definition run_to_file (argv : list string) (out : path) : M proc :=
  write_file out (Raw "");;
  result ← run argv None;
  modify_fs (fs_write out (File (clock E) (Raw (stdout result))));;
  mret result.

(** [Path(dir).glob(pat)] for a pattern without separator: the matching
    entries of [dir], listed once. *)
Definition glob (dir : path) (pat : string) : M (list path) :=
  t ← get_fs;
  mret ((λ n, dir ++ [n]) <$> filter (λ n, Is_true (fnmatch n pat)) (children t dir)).

(** [p.stat().st_mtime] *)
Definition stat_mtime (p : path) : M Z :=
  t ← get_fs;
  match get t p with
  | Some (File m _) => mret m
  | Some (Dir _) => mret (dir_mtime E p)
  | None => raise (FileNotFoundError p)
  end.
End Program.

(** ** The program: class [TelecomBackup] *)

Record TelecomBackup := {
  backup_dir : path;
  config_paths : list (string * list path);   (* service -> its paths *)
  db_user : string;                           (* [db_config['user']] *)
  db_databases : list string                  (* [db_config['databases']] *)
}.

(** Python truthiness of an optional string argument. *)
Definition truthy (s : option string) : option string :=
  match s with
  | Some "" => None
  | _ => s
  end.

Definition results_json (d : list (string * string)) : json :=
  JObj (prod_map id JStr <$> d).

Definition day : Z := 86400 * 1000000.

Inductive restore_type := Config | Database.

Section TelecomBackup.
Variable E : environment.

(** [__init__] *)
Definition init (backup_dir : path) : M TelecomBackup :=
  mkdir true true backup_dir;;
  mret {| backup_dir := backup_dir;
          config_paths :=
            [ ("kamailio", [["etc"; "kamailio"]]);
              ("freeradius", [["etc"; "freeradius"]]);
              ("mariadb", [["etc"; "mysql"]]);
              ("keepalived", [["etc"; "keepalived"]]);
              ("puppet", [["etc"; "puppetlabs"]]);
              ("monitoring", [["opt"; "monitoring"]]);
              ("ssl_certs", [["etc"; "ssl"]; ["opt"; "ca"]]);
              ("wireguard", [["etc"; "wireguard"]]);
              ("haproxy", [["etc"; "haproxy"]]) ];
          db_user := "root";
          db_databases := ["kamailio"; "radius"; "mysql"] |}.

Variable self : TelecomBackup.

Definition create_timestamp : M string := mret (stamp E).

(** The body of the inner loop of [backup_configurations]. *)
Definition backup_path (service : string) (service_backup_dir : path)
    (backup_results : list (string * string)) (path : path)
    : M (list (string * string)) :=
  let source_path := path in
  let key := service +:+ "_" +:+ name source_path in
  ex ← path_exists source_path;
  if (ex : bool) then
    isd ← path_is_dir source_path;
    if (isd : bool) then
      let dest_path := service_backup_dir ++ [name source_path] in
      try_ (copytree E source_path dest_path true;;
            mret (Dict.set backup_results key "success"))
           (λ e, logger ERROR ("Failed to backup " +:+ str_path path +:+ ": " +:+ str_exn e);;
                 mret (Dict.set backup_results key ("error: " +:+ str_exn e)))
    else
      try_ (copy2 E source_path service_backup_dir;;
            mret (Dict.set backup_results key "success"))
           (λ e, logger ERROR ("Failed to backup " +:+ str_path path +:+ ": " +:+ str_exn e);;
                 mret (Dict.set backup_results key ("error: " +:+ str_exn e)))
  else
    logger WARNING ("Path does not exist: " +:+ str_path path);;
    mret (Dict.set backup_results key "path_not_found").

Definition backup_service (config_backup_dir : path)
    (backup_results : list (string * string)) (item : string * list path)
    : M (list (string * string)) :=
  let '(service, paths) := item in
  logger INFO ("Backing up " +:+ service +:+ " configuration...");;
  let service_backup_dir := config_backup_dir ++ [service] in
  mkdir true true service_backup_dir;;
  foldM (backup_path service service_backup_dir) backup_results paths.

Definition backup_configurations (timestamp : string) : M (list (string * string)) :=
  logger INFO "Starting configuration backup...";;
  let config_backup_dir := backup_dir self ++ ["config_" +:+ timestamp] in
  mkdir true true config_backup_dir;;
  backup_results ← foldM (backup_service config_backup_dir) [] (config_paths self);
  let archive_path := backup_dir self ++ ["config_backup_" +:+ timestamp +:+ ".tar.gz"] in
  tar_create E archive_path config_backup_dir ("config_" +:+ timestamp);;
  rmtree config_backup_dir;;
  logger INFO ("Configuration backup completed: " +:+ str_path archive_path);;
  mret backup_results.

(** The body of the loop of [backup_databases]. *)
Definition backup_database (timestamp : string) (db_backup_dir : path)
    (backup_results : list (string * string)) (database : string)
    : M (list (string * string)) :=
  logger INFO ("Backing up database: " +:+ database);;
  let sql := database +:+ "_" +:+ timestamp +:+ ".sql" in
  let backup_file := db_backup_dir ++ [sql] in
  try_ (let cmd := ["mysqldump"; "-u"; db_user self; "--single-transaction";
                    "--routines"; "--triggers"; database] in
        result ← run_to_file E cmd backup_file;
        if returncode result =? 0 then
          f_in ← read_file backup_file;
          write_file E (db_backup_dir ++ [sql +:+ ".gz"]) (Gz f_in);;
          unlink backup_file;;
          logger INFO ("Database " +:+ database +:+ " backed up successfully");;
          mret (Dict.set backup_results database "success")
        else
          logger ERROR ("Failed to backup database " +:+ database +:+ ": " +:+ stderr result);;
          mret (Dict.set backup_results database ("error: " +:+ stderr result)))
       (λ e, logger ERROR ("Exception during " +:+ database +:+ " backup: " +:+ str_exn e);;
             mret (Dict.set backup_results database ("exception: " +:+ str_exn e))).

Definition backup_databases (timestamp : string) : M (list (string * string)) :=
  logger INFO "Starting database backup...";;
  let db_backup_dir := backup_dir self ++ ["database_" +:+ timestamp] in
  mkdir true true db_backup_dir;;
  (* the liveness check; [Some r] is an early [return r] *)
  early ← try_ (result ← run E ["systemctl"; "is-active"; "mariadb"] None;
                if negb (returncode result =? 0) then
                  logger ERROR "MariaDB service is not running";;
                  mret (Some [("database_service", "not_running")])
                else mret None)
               (λ e, logger ERROR ("Failed to check MariaDB status: " +:+ str_exn e);;
                     mret (Some [("database_check", "error: " +:+ str_exn e)]));
  match early with
  | Some r => mret r
  | None =>
      backup_results ← foldM (backup_database timestamp db_backup_dir) [] (db_databases self);
      backup_results ←
        try_ (let cluster_info_file :=
                db_backup_dir ++ ["galera_cluster_info_" +:+ timestamp +:+ ".txt"] in
              let cmd := ["mysql"; "-u"; "root"; "-e";
                          "SHOW STATUS LIKE 'wsrep_%'; SHOW VARIABLES LIKE 'wsrep_%';"] in
              result ← run_to_file E cmd cluster_info_file;
              if returncode result =? 0 then
                mret (Dict.set backup_results "galera_cluster_info" "success")
              else
                mret (Dict.set backup_results "galera_cluster_info"
                        ("error: " +:+ stderr result)))
             (λ e, mret (Dict.set backup_results "galera_cluster_info"
                           ("exception: " +:+ str_exn e)));
      let db_archive_path := backup_dir self ++ ["database_backup_" +:+ timestamp +:+ ".tar.gz"] in
      tar_create E db_archive_path db_backup_dir ("database_" +:+ timestamp);;
      rmtree db_backup_dir;;
      logger INFO ("Database backup completed: " +:+ str_path db_archive_path);;
      mret backup_results
  end.

(** [try: for volume_dir in ...glob(pat): copytree(...); results[...] =
    "success" / except Exception as e: results[errkey] = ...]: the first
    failing copy ends the loop and is recorded next to the earlier
    successes. *)
Fixpoint backup_volumes (monitoring_backup_dir : path) (label errkey : string)
    (backup_results : list (string * string)) (volumes : list path)
    : M (list (string * string)) :=
  match volumes with
  | [] => mret backup_results
  | volume_dir :: rest =>
      let dest_dir := monitoring_backup_dir ++ [name volume_dir] in
      r ← try_ (copytree E volume_dir dest_dir true;; mret None) (λ e, mret (Some e));
      match r with
      | None =>
          backup_volumes monitoring_backup_dir label errkey
            (Dict.set backup_results (label +:+ name volume_dir) "success") rest
      | Some e => mret (Dict.set backup_results errkey ("error: " +:+ str_exn e))
      end
  end.

Definition backup_monitoring_data (timestamp : string) : M (list (string * string)) :=
  logger INFO "Starting monitoring data backup...";;
  let monitoring_backup_dir := backup_dir self ++ ["monitoring_" +:+ timestamp] in
  mkdir true true monitoring_backup_dir;;
  let backup_results : list (string * string) := [] in
  let prometheus_data_dir := ["var"; "lib"; "docker"; "volumes"] in
  ex ← path_exists prometheus_data_dir;
  backup_results ←
    (if (ex : bool) then
       volumes ← glob prometheus_data_dir "*prometheus*";
       backup_volumes monitoring_backup_dir "prometheus_volume_" "prometheus_data"
         backup_results volumes
     else mret backup_results);
  let grafana_data_dir := ["var"; "lib"; "docker"; "volumes"] in
  ex ← path_exists grafana_data_dir;
  backup_results ←
    (if (ex : bool) then
       volumes ← glob grafana_data_dir "*grafana*";
       backup_volumes monitoring_backup_dir "grafana_volume_" "grafana_data"
         backup_results volumes
     else mret backup_results);
  backup_results ←
    try_ (let grafana_export_dir := monitoring_backup_dir ++ ["grafana_export"] in
          mkdir true true grafana_export_dir;;
          let dashboard_source := ["opt"; "monitoring"; "grafana"; "dashboards"] in
          ex ← path_exists dashboard_source;
          if (ex : bool) then
            copytree E dashboard_source (grafana_export_dir ++ ["dashboards"]) true;;
            mret (Dict.set backup_results "grafana_dashboards" "success")
          else mret backup_results)
         (λ e, mret (Dict.set backup_results "grafana_dashboards" ("error: " +:+ str_exn e)));
  let monitoring_archive_path :=
    backup_dir self ++ ["monitoring_backup_" +:+ timestamp +:+ ".tar.gz"] in
  tar_create E monitoring_archive_path monitoring_backup_dir ("monitoring_" +:+ timestamp);;
  rmtree monitoring_backup_dir;;
  logger INFO ("Monitoring backup completed: " +:+ str_path monitoring_archive_path);;
  mret backup_results.

Definition metadata_name (timestamp : string) : string :=
  "backup_metadata_" +:+ timestamp +:+ ".json".

Definition backup_info (timestamp : string) (results : list (string * json)) : json :=
  JObj [ ("timestamp", JStr timestamp);
         ("hostname", JStr (nodename E));
         ("backup_type", JStr "full");
         ("results", JObj results) ].

Definition create_full_backup : M json :=
  timestamp ← create_timestamp;
  logger INFO ("Starting full backup with timestamp: " +:+ timestamp);;
  config_results ←
    try_ (results_json <$> backup_configurations timestamp)
         (λ e, logger ERROR ("Configuration backup failed: " +:+ str_exn e);;
               mret (JObj [("error", JStr (str_exn e))]));
  db_results ←
    try_ (results_json <$> backup_databases timestamp)
         (λ e, logger ERROR ("Database backup failed: " +:+ str_exn e);;
               mret (JObj [("error", JStr (str_exn e))]));
  monitoring_results ←
    try_ (results_json <$> backup_monitoring_data timestamp)
         (λ e, logger ERROR ("Monitoring backup failed: " +:+ str_exn e);;
               mret (JObj [("error", JStr (str_exn e))]));
  let info := backup_info timestamp
                [ ("configurations", config_results);
                  ("databases", db_results);
                  ("monitoring", monitoring_results) ] in
  let metadata_file := backup_dir self ++ [metadata_name timestamp] in
  write_file E metadata_file (Json info);;
  logger INFO ("Full backup completed. Metadata saved to: " +:+ str_path metadata_file);;
  mret info.

(** Put the staged copy [source] of one path back in place, as the
    branch for a named service does it. *)
Definition restore_path_of_service (service : string) (service_dir : path)
    (_ : unit) (path : path) : M unit :=
  let source := service_dir ++ [name path] in
  ex ← path_exists source;
  if (ex : bool) then
    logger INFO ("Restoring " +:+ service +:+ " config to " +:+ str_path path);;
    isd ← path_is_dir path;
    if (isd : bool) then
      rmtree path;;
      copytree E source path false
    else
      copy2 E source path
  else mret tt.

(** The same in the branch that restores every service. *)
Definition restore_path (service_name : string) (service_dir : path)
    (_ : unit) (path : path) : M unit :=
  let source := service_dir ++ [name path] in
  ex ← path_exists source;
  if (ex : bool) then
    logger INFO ("Restoring " +:+ service_name +:+ " config to " +:+ str_path path);;
    ex ← path_exists path;
    (if (ex : bool) then
       isd ← path_is_dir path;
       if (isd : bool) then rmtree path else unlink path
     else mret tt);;
    isd ← path_is_dir source;
    if (isd : bool) then copytree E source path false else copy2 E source path
  else mret tt.

Definition restore_configuration (timestamp : string) (service : option string) : M bool :=
  logger INFO ("Restoring configuration from backup: " +:+ timestamp);;
  let config_archive := backup_dir self ++ ["config_backup_" +:+ timestamp +:+ ".tar.gz"] in
  ex ← path_exists config_archive;
  if negb ex then
    logger ERROR ("Configuration backup not found: " +:+ str_path config_archive);;
    mret false
  else
    try_ (let temp_dir := backup_dir self ++ ["temp_restore_" +:+ timestamp] in
          mkdir false true temp_dir;;
          tar_extractall config_archive temp_dir;;
          let config_dir := temp_dir ++ ["config_" +:+ timestamp] in
          (* [Some b] is an early [return b] *)
          early ←
            match truthy service with
            | Some service =>
                let service_dir := config_dir ++ [service] in
                ex ← path_exists service_dir;
                if (ex : bool) then
                  foldM (restore_path_of_service service service_dir) tt
                        (default [] (Dict.get (config_paths self) service));;
                  mret None
                else
                  logger ERROR ("Service " +:+ service +:+ " not found in backup");;
                  mret (Some false)
            | None =>
                foldM (λ _ service_name,
                         let service_dir := config_dir ++ [service_name] in
                         ex ← path_exists service_dir;
                         if (ex : bool) then
                           foldM (restore_path service_name service_dir) tt
                                 (default [] (Dict.get (config_paths self) service_name))
                         else mret tt)
                      tt (Dict.keys (config_paths self));;
                mret None
            end;
          match early with
          | Some b => mret b
          | None =>
              rmtree temp_dir;;
              logger INFO "Configuration restore completed successfully";;
              mret true
          end)
         (λ e, logger ERROR ("Configuration restore failed: " +:+ str_exn e);;
               mret false).

(** The body of the loop of [restore_database].  [mysql] is handed the
    open dump file as its standard input. *)
Definition restore_one_database (timestamp : string) (db_dir : path) (db_name : string)
    : M (option bool) :=
  let sql_file := db_dir ++ [db_name +:+ "_" +:+ timestamp +:+ ".sql.gz"] in
  ex ← path_exists sql_file;
  if (ex : bool) then
    logger INFO ("Restoring database: " +:+ db_name);;
    f ← read_file sql_file;
    result ← run E ["mysql"; "-u"; db_user self; db_name] (Some f);
    if returncode result =? 0 then
      logger INFO ("Database " +:+ db_name +:+ " restored successfully");;
      mret None
    else
      logger ERROR ("Failed to restore database " +:+ db_name +:+ ": " +:+ stderr result);;
      mret (Some false)
  else
    logger ERROR ("Backup file not found for database: " +:+ db_name);;
    mret (Some false).

Definition restore_database (timestamp : string) (database : option string) : M bool :=
  logger INFO ("Restoring database from backup: " +:+ timestamp);;
  let db_archive := backup_dir self ++ ["database_backup_" +:+ timestamp +:+ ".tar.gz"] in
  ex ← path_exists db_archive;
  if negb ex then
    logger ERROR ("Database backup not found: " +:+ str_path db_archive);;
    mret false
  else
    try_ (let temp_dir := backup_dir self ++ ["temp_db_restore_" +:+ timestamp] in
          mkdir false true temp_dir;;
          tar_extractall db_archive temp_dir;;
          let db_dir := temp_dir ++ ["database_" +:+ timestamp] in
          let databases_to_restore :=
            match truthy database with
            | Some database => [database]
            | None => db_databases self
            end in
          early ← for_ databases_to_restore (restore_one_database timestamp db_dir);
          match early with
          | Some b => mret b
          | None =>
              rmtree temp_dir;;
              logger INFO "Database restore completed successfully";;
              mret true
          end)
         (λ e, logger ERROR ("Database restore failed: " +:+ str_exn e);;
               mret false).

(** The file name [cleanup_old_backups] looks for next to an archive. *)
Definition metadata_of (archive_name : string) : string :=
  replace ".tar.gz" ".json" (replace "backup_" "metadata_" archive_name).

(** The body of the loop of [cleanup_old_backups]. *)
Definition cleanup_one (cutoff_date : Z) (removed_count : nat) (backup_file : path)
    : M nat :=
  file_time ← stat_mtime E backup_file;
  if file_time <? cutoff_date then
    logger INFO ("Removing old backup: " +:+ str_path backup_file);;
    unlink backup_file;;
    let metadata_file := parent backup_file ++ [metadata_of (name backup_file)] in
    ex ← path_exists metadata_file;
    (if (ex : bool) then unlink metadata_file else mret tt);;
    mret (S removed_count)
  else mret removed_count.

Definition cleanup_old_backups (keep_days : Z) : M nat :=
  logger INFO ("Cleaning up backups older than " +:+ pretty keep_days +:+ " days...");;
  let cutoff_date := clock E - keep_days * day in
  backup_files ← glob (backup_dir self) "*backup_*.tar.gz";
  removed_count ← foldM (cleanup_one cutoff_date) 0%nat backup_files;
  logger INFO ("Cleanup completed. Removed " +:+ pretty removed_count +:+ " old backups.");;
  mret removed_count.

(** The [restore] command of [main]. *)
Definition restore (type : restore_type) (timestamp : string)
    (service database : option string) : M bool :=
  match type with
  | Config => restore_configuration timestamp service
  | Database => restore_database timestamp database
  end.
End TelecomBackup.

(** * Vocabulary of the statements *)

(** The events of a run that are log lines only. *)
Definition only_logs (tr : list event) : Prop :=
  ∀ e, e ∈ tr → ∃ lvl msg, e = Log lvl msg.

(** The archive file a restore of the given type looks for. *)
Definition archive_of (type : restore_type) (timestamp : string) : string :=
  match type with
  | Config => "config_backup_" +:+ timestamp +:+ ".tar.gz"
  | Database => "database_backup_" +:+ timestamp +:+ ".tar.gz"
  end.


(** * Vocabulary of the database restore *)

(** The commands a run has spawned, in order. *)
Definition commands (tr : list event) : list (list string) :=
  omap (λ e, match e with Exec argv => Some argv | _ => None end) tr.

Definition dump_name (db_name timestamp : string) : string :=
  db_name +:+ "_" +:+ timestamp +:+ ".sql.gz".

Definition mysql_restore (self : TelecomBackup) (db_name : string) : list string :=
  ["mysql"; "-u"; db_user self; db_name].

(** The dump of [db_name] is among [dumps] and [mysql] accepts it. *)
Definition restores_cleanly (E : environment) (self : TelecomBackup) (timestamp : string)
    (dumps : gmap string node) (db_name : string) : Prop :=
  ∃ m d r, dumps !! dump_name db_name timestamp = Some (File m d) ∧
           spawn E (mysql_restore self db_name) (Some d) = Ok r ∧
           returncode r = 0.

(** The dump of [db_name] is among [dumps] and [mysql] exits non-zero on it. *)
Definition restore_fails (E : environment) (self : TelecomBackup) (timestamp : string)
    (dumps : gmap string node) (db_name : string) : Prop :=
  ∃ m d r, dumps !! dump_name db_name timestamp = Some (File m d) ∧
           spawn E (mysql_restore self db_name) (Some d) = Ok r ∧
           returncode r ≠ 0.

(** A backup root that holds the database archive of [timestamp], packed
    from the dumps [dumps], and no extraction directory for it. *)
Definition database_archive_ready (self : TelecomBackup) (timestamp : string)
    (dumps : gmap string node) (t : node) : Prop :=
  ∃ es m, get t (backup_dir self) = Some (Dir es) ∧
          es !! archive_of Database timestamp
            = Some (File m (TarGz [("database_" +:+ timestamp, Dir dumps)])) ∧
          es !! ("temp_db_restore_" +:+ timestamp) = None.

(** The databases a restore goes through: the one named on the command
    line, or all configured ones. *)
Definition databases_to_restore (self : TelecomBackup) (database : option string)
    : list string :=
  match truthy database with
  | Some d => [d]
  | None => db_databases self
  end.

(** * Vocabulary of the configuration restore *)

(** A backup root that holds the configuration archive of [timestamp],
    packed from the staged tree [staged] (service / base name of the
    path), and no extraction directory for it. *)
Definition config_archive_ready (self : TelecomBackup) (timestamp : string)
    (staged : gmap string node) (t : node) : Prop :=
  ∃ es m, get t (backup_dir self) = Some (Dir es) ∧
          es !! archive_of Config timestamp
            = Some (File m (TarGz [("config_" +:+ timestamp, Dir staged)])) ∧
          es !! ("temp_restore_" +:+ timestamp) = None.

(** The registered paths of a service, as [restore_configuration] looks
    them up. *)
Definition paths_of (self : TelecomBackup) (service : string) : list path :=
  default [] (Dict.get (config_paths self) service).

(** The services a configuration restore goes through: the one named on
    the command line, or all registered ones. *)
Definition services_to_restore (self : TelecomBackup) (service : option string)
    : list string :=
  match truthy service with
  | Some s => [s]
  | None => Dict.keys (config_paths self)
  end.

(** * A small lab host, for concrete runs *)

(** The tree an archive was packed from ([∅] when [p] is no such archive). *)
Definition packed (t : node) (p : path) : gmap string node :=
  match get t p with
  | Some (File _ (TarGz [(_, Dir es)])) => es
  | _ => ∅
  end.

Module Lab.

Definition stamp0 : string := "20231114_221320".

(** Every command succeeds. *)
Definition env : environment :=
  {| clock := 1700000000000000;
     stamp := stamp0;
     nodename := "ha3-node1";
     dir_mtime := λ _, 1690000000000000;
     io_fault := λ _, None;
     spawn := λ argv _,
       match argv with
       | "mysqldump" :: _ => Ok (Completed 0 "CREATE TABLE t (id INT);" "")
       | _ => Ok (Completed 0 "" "")
       end |}.

(** The dump of [radius] fails. *)
Definition env_dump_fails : environment :=
  {| clock := clock env; stamp := stamp env; nodename := nodename env;
     dir_mtime := dir_mtime env; io_fault := io_fault env;
     spawn := λ argv stdin,
       match argv with
       | ["mysqldump"; _; _; _; _; _; "radius"] =>
           Ok (Completed 2 "" "mysqldump: Got error: 1049: Unknown database")
       | _ => spawn env argv stdin
       end |}.

(** [mysql] rejects what it is fed for [radius]. *)
Definition env_import_fails : environment :=
  {| clock := clock env; stamp := stamp env; nodename := nodename env;
     dir_mtime := dir_mtime env; io_fault := io_fault env;
     spawn := λ argv stdin,
       match argv with
       | ["mysql"; _; _; "radius"] => Ok (Completed 1 "" "ERROR 1064 (42000) at line 1")
       | _ => spawn env argv stdin
       end |}.

(** MariaDB is not running. *)
Definition env_db_down : environment :=
  {| clock := clock env; stamp := stamp env; nodename := nodename env;
     dir_mtime := dir_mtime env; io_fault := io_fault env;
     spawn := λ argv stdin,
       match argv with
       | ["systemctl"; "is-active"; "mariadb"] => Ok (Completed 3 "inactive" "")
       | _ => spawn env argv stdin
       end |}.

(** [/etc/haproxy] cannot be read. *)
Definition env_unreadable : environment :=
  {| clock := clock env; stamp := stamp env; nodename := nodename env;
     dir_mtime := dir_mtime env;
     io_fault := λ p, if decide (p = ["etc"; "haproxy"])
                      then Some (OSError "Permission denied: /etc/haproxy") else None;
     spawn := spawn env |}.

Definition disk : node :=
  Dir {[ "etc" := Dir {[ "kamailio" :=
                           Dir {[ "a.cfg" := File 1600000000000000
                                               (Raw "listen=udp:10.0.0.1:5060") ]};
                         "haproxy" :=
                           Dir {[ "haproxy.cfg" := File 1600000000000000
                                                     (Raw "frontend sip") ]} ]};
         "opt" := Dir ∅ ]}.

Definition boot : world := {| fs := disk; trace := [] |}.

Definition root : path := ["opt"; "backups"].

(** The tool, as [__init__] builds it on this host. *)
Definition tool : TelecomBackup :=
  {| backup_dir := root;
     config_paths :=
       [ ("kamailio", [["etc"; "kamailio"]]);
         ("freeradius", [["etc"; "freeradius"]]);
         ("mariadb", [["etc"; "mysql"]]);
         ("keepalived", [["etc"; "keepalived"]]);
         ("puppet", [["etc"; "puppetlabs"]]);
         ("monitoring", [["opt"; "monitoring"]]);
         ("ssl_certs", [["etc"; "ssl"]; ["opt"; "ca"]]);
         ("wireguard", [["etc"; "wireguard"]]);
         ("haproxy", [["etc"; "haproxy"]]) ];
     db_user := "root";
     db_databases := ["kamailio"; "radius"; "mysql"] |}.

Definition started : world := (init root boot).2.

(** The host after one full backup. *)
Definition backed_up : world := (create_full_backup env tool started).2.

(** The same when the dump of [radius] failed. *)
Definition backed_up_without_radius : world :=
  (create_full_backup env_dump_fails tool started).2.

(** The dumps in the database archive of each. *)
Definition dumps : gmap string node :=
  packed (fs backed_up) (root ++ [archive_of Database stamp0]).
Definition dumps_without_radius : gmap string node :=
  packed (fs backed_up_without_radius) (root ++ [archive_of Database stamp0]).

(** The staged tree in the configuration archive. *)
Definition staged : gmap string node :=
  packed (fs backed_up) (root ++ [archive_of Config stamp0]).

(** Thirty-one days later. *)
Definition env_later : environment :=
  {| clock := clock env + 31 * day; stamp := "20231215_221320";
     nodename := nodename env; dir_mtime := dir_mtime env;
     io_fault := io_fault env; spawn := spawn env |}.

(** The host after a second full backup, taken then. *)
Definition backed_up_twice : world := (create_full_backup env_later tool backed_up).2.

(** What the backup root holds. *)
Definition shelf (w : world) : gmap string node :=
  match get (fs w) root with
  | Some (Dir es) => es
  | _ => ∅
  end.

End Lab.

(** * Vocabulary of file names *)

(** The character [c] occurs in [s]. *)
Fixpoint occurs (c : ascii) (s : string) : bool :=
  match s with
  | EmptyString => false
  | String d s' => Ascii.eqb c d || occurs c s'
  end.

Definition stamp_char (c : ascii) : bool :=
  Ascii.eqb c "_" || ((48 <=? nat_of_ascii c)%nat && (nat_of_ascii c <=? 57)%nat).

(** Made of digits and underscores, as [%Y%m%d_%H%M%S] is. *)
Fixpoint stamp_like (s : string) : bool :=
  match s with
  | EmptyString => true
  | String c s' => stamp_char c && stamp_like s'
  end.

Fixpoint last_char (s : string) : option ascii :=
  match s with
  | EmptyString => None
  | String c EmptyString => Some c
  | String _ s' => last_char s'
  end.

(** The kinds of archive the program writes. *)
Definition backup_kinds : list string := ["config"; "database"; "monitoring"].

Definition archive_name (kind timestamp : string) : string :=
  kind +:+ "_backup_" +:+ timestamp +:+ ".tar.gz".

(** The pattern by which [cleanup_old_backups] finds archives. *)
Definition archive_glob : string := "*backup_*.tar.gz".

(** * Invariants of runs *)

(** [m] keeps [I]: whatever it returns or raises, the world it leaves
    satisfies [I] when the world it started from did. *)
Definition preserves {A} (I : world → Prop) (m : M A) : Prop :=
  ∀ w, I w → I (m w).2.

(** A property [P] of the tree holds, and since the events [tr0] the run
    has made only events that satisfy [Q]. *)
Definition inv (P : node → Prop) (Q : event → Prop) (tr0 : list event) (w : world) : Prop :=
  P (fs w) ∧ ∃ tr, trace w = tr0 ++ tr ∧ Forall Q tr.

(** Writing at or below [p] keeps [P]. *)
Definition safe (P : node → Prop) (p : path) : Prop :=
  ∀ r, (∀ t v, P t → P (update t (p ++ r) v)) ∧
       (∀ t t', P t → mkdirs t (p ++ r) = Some t' → P t').

(** No file is opened for writing at or below [p] but [Q] allows it. *)
Definition quiet (Q : event → Prop) (p : path) : Prop :=
  ∀ r, Q (Open (p ++ r)).

(** The directory [bd] is still there, and its entries named in [keep] are
    those of [es]. *)
Definition root_keeps (bd : path) (es : gmap string node) (keep : string → Prop)
    (t : node) : Prop :=
  ∃ es', get t bd = Some (Dir es') ∧ ∀ n, keep n → es' !! n = es !! n.

(** * Vocabulary of the full backup *)

(** The name of some metadata file. *)
Definition is_metadata_name (n : string) : Prop :=
  ∃ timestamp, n = "backup_metadata_" +:+ timestamp +:+ ".json".

(** The event is not the writing of a metadata file under [bd]. *)
Definition no_metadata_write (bd : path) (e : event) : Prop :=
  ∀ n, is_metadata_name n → e ≠ Open (bd ++ [n]).

(** * Vocabulary of the retention sweep *)

(** A regular file last modified before [cutoff]. *)
Definition aged (cutoff : Z) (o : option node) : bool :=
  match o with
  | Some (File m _) => m <? cutoff
  | _ => false
  end.

(** An entry of the backup root that is an archive older than [cutoff]. *)
Definition is_old_archive (cutoff : Z) (entry : string * node) : bool :=
  fnmatch entry.1 archive_glob && aged cutoff (Some entry.2).

(** What the loop of [cleanup_old_backups] makes of the backup root [cur]
    as it goes through [names], and how many archives it removes. *)
Fixpoint sweep (cutoff : Z) (cur : gmap string node) (names : list string)
    : gmap string node :=
  match names with
  | [] => cur
  | n :: rest =>
      sweep cutoff
        (if aged cutoff (cur !! n) then delete (metadata_of n) (delete n cur) else cur)
        rest
  end.

Fixpoint swept (cutoff : Z) (cur : gmap string node) (names : list string) : nat :=
  match names with
  | [] => 0
  | n :: rest =>
      if aged cutoff (cur !! n)
      then S (swept cutoff (delete (metadata_of n) (delete n cur)) rest)
      else swept cutoff cur rest
  end.


(** * Vocabulary of the configuration backup *)

(** The registered (service, path) pairs, in the order the backup goes
    through them. *)
Definition pairs_of (items : list (string * list path)) : list (string * path) :=
  '(service, paths) ← items; (λ p, (service, p)) <$> paths.

Definition config_pairs (self : TelecomBackup) : list (string * path) :=
  pairs_of (config_paths self).

(** The key a pair is reported under: [f"{service}_{source_path.name}"]. *)
Definition result_key (pair : string * path) : string :=
  pair.1 +:+ "_" +:+ name pair.2.

(** What a backup that finds the tree [t] reports for the path [p]. *)
Definition outcome (E : environment) (t : node) (p : path) : string :=
  if exists_ t p then
    match io_fault E p with
    | Some e => "error: " +:+ str_exn e
    | None => "success"
    end
  else "path_not_found".

(** What it copies of it: the tree at [p], unless it is absent or cannot
    be read. *)
Definition copied (E : environment) (t : node) (p : path) : option node :=
  match io_fault E p with
  | Some _ => None
  | None => get t p
  end.

(** The report of the pairs gone through. *)
Definition report (E : environment) (t : node) (pairs : list (string * path))
    : list (string * string) :=
  (λ pair, (result_key pair, outcome E t pair.2)) <$> pairs.

(** The staging directory [stg] holds one directory per service begun,
    and in it, under the base name of the path, exactly what was copied
    for the pairs gone through. *)
Definition staged_for (E : environment) (t : node) (pairs : list (string * path))
    (stg : gmap string node) : Prop :=
  (∀ service x, stg !! service = Some x → ∃ sub, x = Dir sub) ∧
  (∀ service sub n x, stg !! service = Some (Dir sub) → sub !! n = Some x →
     ∃ p, (service, p) ∈ pairs ∧ name p = n ∧ copied E t p = Some x) ∧
  (∀ service p x, (service, p) ∈ pairs → copied E t p = Some x →
     ∃ sub, stg !! service = Some (Dir sub) ∧ sub !! name p = Some x).

(** A component, wrapped as [create_full_backup] wraps it, always returns;
    it announces itself first, and it keeps the metadata files of the
    backup root [bd]. *)
Definition attempted (bd : path) (es : gmap string node) (announce : string) (m : M json)
    : Prop :=
  ∀ w1, root_keeps bd es is_metadata_name (fs w1) →
    ∃ r tr w2, m w1 = (Ok r, w2) ∧ root_keeps bd es is_metadata_name (fs w2) ∧
               trace w2 = trace w1 ++ Log INFO announce :: tr ∧
               Forall (no_metadata_write bd) tr.

(** The number of nodes of a tree. *)
Fixpoint node_size (t : node) : nat :=
  match t with
  | File _ _ => 1
  | Dir es => S (map_fold (λ _ c acc, node_size c + acc)%nat 0%nat es)
  end.

(** * Vocabulary of further properties *)

(** The entries of a directory that match the archive pattern, as the
    sweep lists them. *)
Definition archive_names (es : gmap string node) : list string :=
  filter (λ n, Is_true (fnmatch n archive_glob)) (map_to_list es).*1.

(** The name [n] is that of an archive of [es] last modified before
    [cutoff]. *)
Definition is_old (cutoff : Z) (es : gmap string node) (n : string) : bool :=
  fnmatch n archive_glob && aged cutoff (es !! n).

(** * Vocabulary of the database backup *)

Definition dump_command (self : TelecomBackup) (database : string) : list string :=
  ["mysqldump"; "-u"; db_user self; "--single-transaction"; "--routines"; "--triggers";
   database].

Definition galera_command : list string :=
  ["mysql"; "-u"; "root"; "-e";
   "SHOW STATUS LIKE 'wsrep_%'; SHOW VARIABLES LIKE 'wsrep_%';"].

(** How the backup reports a command whose output it sends to a file. *)
Definition ran (E : environment) (argv : list string) : string :=
  match spawn E argv None with
  | Ok r => if returncode r =? 0 then "success" else "error: " +:+ stderr r
  | Raise e => "exception: " +:+ str_exn e
  end.

(** What that file holds afterwards: the output of the command, nothing
    when the command could not be started. *)
Definition captured (E : environment) (argv : list string) : string :=
  match spawn E argv None with
  | Ok r => stdout r
  | Raise _ => ""
  end.

(** The command ran and exited with 0. *)
Definition went_well (E : environment) (argv : list string) : bool :=
  match spawn E argv None with
  | Ok r => returncode r =? 0
  | Raise _ => false
  end.

Definition sql_name (database timestamp : string) : string :=
  database +:+ "_" +:+ timestamp +:+ ".sql".

(** What the dump of one database leaves in the staging directory: the
    gzip of the dump when [mysqldump] succeeded, what it printed
    otherwise. *)
Definition dump_entry (E : environment) (self : TelecomBackup) (timestamp database : string)
    : string * node :=
  let out := captured E (dump_command self database) in
  if went_well E (dump_command self database)
  then (sql_name database timestamp +:+ ".gz", File (clock E) (Gz (Raw out)))
  else (sql_name database timestamp, File (clock E) (Raw out)).

Definition galera_name (timestamp : string) : string :=
  "galera_cluster_info_" +:+ timestamp +:+ ".txt".

(** The directory [dumps] holds exactly what the dumps of [databases]
    leave. *)
Definition dumps_of (E : environment) (self : TelecomBackup) (timestamp : string)
    (databases : list string) (dumps : gmap string node) : Prop :=
  ∀ k x, dumps !! k = Some x ↔
         ∃ database, database ∈ databases ∧ dump_entry E self timestamp database = (k, x).

Definition database_report (E : environment) (self : TelecomBackup)
    (databases : list string) : list (string * string) :=
  (λ database, (database, ran E (dump_command self database))) <$> databases.

(** * Vocabulary of the restore of all services *)

(** What the restore of all services does for one registered pair: the
    staged copy [service/basename], if there is one, takes the place of
    whatever is at the path. *)
Definition put_back (staged : gmap string node) (t : node) (pair : string * path) : node :=
  match get (Dir staged) [pair.1; name pair.2] with
  | Some x => update t pair.2 (Some x)
  | None => t
  end.

(** No path of the list lies at or below another. *)
Fixpoint all_apart (paths : list path) : Prop :=
  match paths with
  | [] => True
  | p :: rest => Forall (apart p) rest ∧ all_apart rest
  end.

#[global] Instance all_apart_dec paths : Decision (all_apart paths).
Proof. induction paths as [|p rest IH]; cbn [all_apart]; apply _. Defined.

(** A tree in which the extraction directory [config_dir] holds the
    staged tree and every path of [paths] has a directory to go into. *)
Definition ready_for (config_dir : path) (staged : gmap string node) (paths : list path)
    (t : node) : Prop :=
  get t config_dir = Some (Dir staged) ∧
  Forall (λ p, is_dir t (parent p) = true) paths.

(** * Vocabulary of the monitoring backup *)

(** The computation ends without an exception, from every world. *)
Definition returns {A} (m : M A) : Prop := ∀ w, ∃ a w', m w = (Ok a, w').

(** The staging directory [stage] is a directory, and what lies apart
    from it is as in [t0]. *)
Definition staging_kept (stage : path) (t0 t : node) : Prop :=
  is_dir t stage = true ∧ ∀ q, apart stage q → get t q = get t0 q.

Definition volumes_dir : path := ["var"; "lib"; "docker"; "volumes"].
Definition dashboards_dir : path := ["opt"; "monitoring"; "grafana"; "dashboards"].

(** What the export of the dashboards reports and what it leaves in
    [grafana_export]: a copy of the dashboards directory when it is there
    and can be read. *)
Definition dashboards_result (E : environment) (t : node)
    : list (string * string) * gmap string node :=
  match get t dashboards_dir with
  | None => ([], ∅)
  | Some n =>
      match io_fault E dashboards_dir with
      | Some e => ([("grafana_dashboards", "error: " +:+ str_exn e)], ∅)
      | None =>
          match n with
          | Dir d => ([("grafana_dashboards", "success")], {[ "dashboards" := Dir d ]})
          | File _ _ =>
              ([("grafana_dashboards",
                 "error: " +:+ str_exn (NotADirectoryError dashboards_dir))], ∅)
          end
      end
  end.

(** A host with Grafana dashboards and no docker volumes. *)
Definition dashboard_host : world :=
  {| fs := Dir {[ "opt" :=
                    Dir {[ "backups" := Dir ∅;
                           "monitoring" :=
                             Dir {[ "grafana" :=
                                      Dir {[ "dashboards" :=
                                               Dir {[ "sip.json" :=
                                                        File 1650000000000000
                                                             (Raw "{ }") ]} ]} ]} ]} ]};
     trace := [] |}.
(** * Reasoning about the file-system tree *)

(** *** Equations of [get], [update] and [mkdirs] *)

Lemma get_app t p r :
  get t (p ++ r) = match get t p with Some n => get n r | None => None end.
Proof.
  revert t. induction p as [|c p IH]; intros t; simpl; [done|].
  destruct t as [m d|es]; [done|]. destruct (es !! c); [apply IH|done].
Qed.

Lemma update_app t p r v n :
  get t p = Some n → r ≠ [] → update t (p ++ r) v = update t p (Some (update n r v)).
Proof.
  revert t. induction p as [|c p IH]; intros t Hg Hr; simpl in *.
  - by simplify_eq.
  - destruct t as [m d|es]; [done|].
    destruct (es !! c) as [t'|] eqn:Hc; [|done].
    destruct p as [|c' p].
    + simpl in *. simplify_eq. destruct r as [|c'' r]; [done|].
      f_equal. apply map_eq. intros k.
      destruct (decide (k = c)) as [->|Hk].
      * rewrite lookup_alter_eq, lookup_partial_alter_eq, Hc. done.
      * rewrite lookup_alter_ne, lookup_partial_alter_ne by done. done.
    + change ((c' :: p) ++ r) with (c' :: (p ++ r)).
      f_equal. apply map_eq. intros k.
      destruct (decide (k = c)) as [->|Hk].
      * rewrite !lookup_alter_eq, Hc. simpl. f_equal.
        apply (IH t'); done.
      * rewrite !lookup_alter_ne by done. done.
Qed.

Lemma get_update_at t p n :
  is_Some (get t p) → get (update t p (Some n)) p = Some n.
Proof.
  revert t. induction p as [|c p IH]; intros t [x Hx]; simpl in *; [done|].
  destruct t as [m d|es]; [done|].
  destruct (es !! c) as [t'|] eqn:Hc; [|done].
  destruct p as [|c' p].
  - by rewrite lookup_partial_alter_eq.
  - rewrite lookup_alter_eq, Hc. simpl. apply IH. by exists x.
Qed.

Lemma update_update t p n v :
  p ≠ [] ∨ is_Some v →
  update (update t p (Some n)) p v = update t p v.
Proof.
  revert t. induction p as [|c p IH]; intros t Hv; simpl.
  - by destruct Hv as [?|[x ->]].
  - destruct t as [m d|es]; [done|]. destruct p as [|c' p].
    + f_equal. apply map_eq. intros k. destruct (decide (k = c)) as [->|Hk].
      * by rewrite !lookup_partial_alter_eq.
      * by rewrite !lookup_partial_alter_ne.
    + f_equal. apply map_eq. intros k. destruct (decide (k = c)) as [->|Hk].
      * rewrite !lookup_alter_eq. destruct (es !! c); simpl; [|done].
        f_equal. apply IH. by left.
      * by rewrite !lookup_alter_ne.
Qed.

Lemma update_id t p n : get t p = Some n → update t p (Some n) = t.
Proof.
  revert t. induction p as [|c p IH]; intros t Hg; simpl in *.
  - by simplify_eq.
  - destruct t as [m d|es]; [done|].
    destruct (es !! c) as [t'|] eqn:Hc; [|done].
    destruct p as [|c' p]; f_equal; apply map_eq; intros k.
    + simpl in *. simplify_eq. destruct (decide (k = c)) as [->|Hk].
      * by rewrite lookup_partial_alter_eq.
      * by rewrite lookup_partial_alter_ne.
    + destruct (decide (k = c)) as [->|Hk].
      * rewrite lookup_alter_eq, Hc. simpl. f_equal. by apply IH.
      * by rewrite lookup_alter_ne.
Qed.

(** Updates leave everything beside them alone. *)
Lemma get_update_apart t p q v : apart p q → get (update t p v) q = get t q.
Proof.
  revert t q. induction p as [|c p IH]; intros t q [Hpq Hqp].
  - destruct Hpq. apply prefix_nil.
  - destruct q as [|c2 q]; [destruct Hqp; apply prefix_nil|].
    simpl. destruct t as [m d|es]; [done|].
    destruct (decide (c2 = c)) as [->|Hc].
    + assert (apart p q) as Hap.
      { split; intros Hx; [apply Hpq|apply Hqp]; by apply prefix_cons. }
      destruct p as [|c' p]; [destruct Hpq; apply prefix_cons, prefix_nil|].
      simpl. rewrite lookup_alter_eq. destruct (es !! c); simpl; [|done].
      by apply IH.
    + destruct p as [|c' p]; simpl.
      * by rewrite lookup_partial_alter_ne.
      * by rewrite lookup_alter_ne.
Qed.

Lemma mkdirs_app t p r n :
  get t p = Some n →
  mkdirs t (p ++ r) = (λ n', update t p (Some n')) <$> mkdirs n r.
Proof.
  revert t. induction p as [|c p IH]; intros t Hg; simpl in *.
  - simplify_eq. by destruct (mkdirs n r).
  - destruct t as [m d|es]; [done|].
    destruct (es !! c) as [t'|] eqn:Hc; [|done]. simpl.
    rewrite (IH t' Hg). destruct (mkdirs n r) as [n'|]; simpl; [|done].
    destruct p as [|c' p]; [done|].
    do 2 f_equal. apply map_eq. intros k.
    destruct (decide (k = c)) as [->|Hk].
    + by rewrite lookup_insert_eq, lookup_alter_eq, Hc.
    + by rewrite lookup_insert_ne, lookup_alter_ne.
Qed.

(** ** Induction over trees *)

Lemma node_size_child es k c : es !! k = Some c → (node_size c < node_size (Dir es))%nat.
Proof.
  intros Hk. simpl. rewrite <-(insert_delete_id es k c Hk).
  rewrite map_fold_insert_L; [lia|intros; lia|apply lookup_delete_eq].
Qed.

Lemma node_ind' (P : node → Prop) :
  (∀ m d, P (File m d)) →
  (∀ es, map_Forall (λ _, P) es → P (Dir es)) →
  ∀ t, P t.
Proof.
  intros Hfile Hdir t.
  remember (node_size t) as n eqn:Hn. revert t Hn.
  induction n as [n IH] using lt_wf_ind. intros [m d|es] ->; [apply Hfile|].
  apply Hdir. intros k c Hk. eapply IH; [|done]. by eapply node_size_child.
Qed.

(** Onto nothing, or into an empty directory, a tree is laid as it is. *)
Lemma graft_none into t : graft into t None = Some t.
Proof.
  induction t as [m d|es IH] using node_ind'; [done|].
  cbn [graft].
  assert (map_imap (λ k c,
            Some (match c, (∅ : gmap string node) !! k with
                  | File m d, Some (Dir sub) =>
                      if into then
                        match sub !! k with
                        | Some (Dir _) => None
                        | _ => Some (Dir (<[k:=File m d]> sub))
                        end
                      else None
                  | _, o => graft into c o
                  end)) es = Some <$> es) as ->.
  { apply map_eq. intros k. rewrite map_lookup_imap, lookup_fmap.
    destruct (es !! k) as [c|] eqn:Hk; simpl; [|done].
    rewrite lookup_empty. f_equal. specialize (IH k c Hk).
    simpl in IH. by destruct c. }
  destruct (decide _) as [_|Hno].
  - do 2 f_equal. rewrite (right_id_L ∅ (∪)).
    apply map_eq. intros k. rewrite lookup_omap, lookup_fmap.
    by destruct (es !! k).
  - destruct Hno. intros k r. rewrite lookup_fmap.
    destruct (es !! k); simpl; intros; simplify_eq; eauto.
Qed.

Lemma graft_empty into es : graft into (Dir es) (Some (Dir ∅)) = Some (Dir es).
Proof. by rewrite <-(graft_none into (Dir es)). Qed.

(** ** Paths *)

Lemma parent_snoc (p : path) c : parent (p ++ [c]) = p.
Proof. unfold parent. by rewrite removelast_last. Qed.

Lemma parent_app_cons (p : path) c r : parent (p ++ c :: r) = p ++ parent (c :: r).
Proof. unfold parent. by rewrite removelast_app. Qed.

Lemma name_snoc (p : path) c : name (p ++ [c]) = c.
Proof. unfold name. apply last_last. Qed.

Lemma name_app_cons (p : path) c r : name (p ++ c :: r) = name (c :: r).
Proof.
  unfold name. revert c. induction r as [|c' r IH] using rev_ind; intros c.
  - by rewrite last_last.
  - rewrite app_comm_cons, app_assoc, !last_last. done.
Qed.

Lemma apart_sym (p q : path) : apart p q → apart q p.
Proof. by intros [? ?]. Qed.

Lemma apart_app_r (p q r : path) : apart p q → apart p (q ++ r).
Proof.
  intros [Hpq Hqp]. split.
  - intros Hp. destruct (prefix_weak_total _ _ _ Hp (prefix_app_r q q r (reflexivity _)));
      tauto.
  - intros Hq. apply Hqp. etrans; [|done]. by apply prefix_app_r.
Qed.

Lemma apart_cons_ne (p : path) c c' r r' : c ≠ c' → apart (p ++ c :: r) (p ++ c' :: r').
Proof.
  intros Hc. split; intros Hp; apply prefix_app_inv in Hp;
    apply prefix_cons_inv_1 in Hp; congruence.
Qed.

(** ** A tree seen from one of its directories *)

Lemma get_update_under t p n r :
  is_Some (get t p) → get (update t p (Some n)) (p ++ r) = get n r.
Proof. intros Hp. by rewrite get_app, get_update_at. Qed.

Lemma update_under t p n r v :
  is_Some (get t p) → r ≠ [] →
  update (update t p (Some n)) (p ++ r) v = update t p (Some (update n r v)).
Proof.
  intros Hp Hr. rewrite (update_app _ _ _ _ n); [|by apply get_update_at|done].
  apply update_update. by right.
Qed.

Lemma mkdirs_under t p n r :
  is_Some (get t p) →
  mkdirs (update t p (Some n)) (p ++ r) = (λ n', update t p (Some n')) <$> mkdirs n r.
Proof.
  intros Hp. rewrite (mkdirs_app _ _ _ n) by by apply get_update_at.
  destruct (mkdirs n r); simpl; [|done]. f_equal. apply update_update. by right.
Qed.

Lemma mkdirs_is_dir t p es : get t p = Some (Dir es) → mkdirs t p = Some t.
Proof.
  intros Hp. rewrite <-(app_nil_r p), (mkdirs_app _ _ _ (Dir es)) by done.
  simpl. f_equal. by apply update_id.
Qed.

(** * Reasoning about runs *)

(** Unfold the monad and the primitives down to the world they act on. *)
Ltac run_step :=
  cbv beta iota delta
    [mbind M_bind mret M_ret fmap M_fmap try_ raise get_fs modify_fs tell logger
     path_exists path_is_dir mkdir rmtree unlink write_file read_file readable
     copytree copy2 tar_create tar_extractall run run_to_file glob stat_mtime
     create_timestamp emit with_fs];
  cbn [fs trace fst snd].

Ltac world_simpl :=
  cbv beta delta [emit with_fs]; cbn [fs trace fst snd negb andb orb].

(** Distinct file names: by a differing character or a differing length. *)
Lemma length_append (a b : string) :
  String.length (a +:+ b) = (String.length a + String.length b)%nat.
Proof. induction a as [|c a IH]; simpl; [done|]. by rewrite IH. Qed.

Ltac names_differ :=
  let H := fresh in
  intros H; cbn in H;
  first
    [ discriminate H
    | apply (f_equal String.length) in H;
      cbn in H; repeat (rewrite !length_append in H; cbn in H); lia ].

Lemma only_logs_nil : only_logs [].
Proof. intros e He. by apply elem_of_nil in He. Qed.

Lemma only_logs_cons lvl msg tr : only_logs tr → only_logs (Log lvl msg :: tr).
Proof. intros Htr e He. apply elem_of_cons in He as [->|He]; eauto. Qed.

(** ** File names *)
(** [str.replace] scans on after an occurrence. *)
Lemma replace_from_skip k old new s :
  (k ≤ String.length s)%nat →
  ∃ s', replace_from k old new s = replace_from 0 old new s' ∧
        (String.length s' + k = String.length s)%nat.
Proof.
  revert k. induction s as [|c s IH]; intros k Hk.
  - exists "". cbn in *. split; [by destruct k|lia].
  - destruct k as [|k].
    + exists (String c s). split; [done|cbn; lia].
    + cbn in Hk. destruct (IH k) as (s' & Heq & Hlen); [lia|].
      exists s'. split; [done|cbn; lia].
Qed.

(** A replacement never yields a text that begins with [u], when [u] does
    not begin the original and shares no character with the head of [new]. *)
Lemma prefix_String c u d s :
  String.prefix (String c u) (String d s) = true ↔ c = d ∧ String.prefix u s = true.
Proof.
  cbn. destruct (ascii_dec c d) as [->|Hne]; [tauto|]. split; [done|]. by intros [? _].
Qed.

Lemma replace_prefix_inv old c new u s :
  old ≠ "" →
  (∀ u1 u2, u ≠ u1 +:+ String c u2) →
  String.prefix u (replace old (String c new) s) = true →
  String.prefix u s = true.
Proof.
  intros Hold. revert s. induction u as [|d u IH]; intros s Hu Hpre.
  - by destruct s.
  - assert (d ≠ c) as Hdc by (intros ->; by apply (Hu "" u)).
    assert (∀ u1 u2, u ≠ u1 +:+ String c u2) as Hu'
      by (intros u1 u2 ->; by apply (Hu (String d u1) u2)).
    destruct s as [|e s]; [done|].
    unfold replace in Hpre. cbn [replace_from] in Hpre.
    destruct (String.prefix old (String e s)) eqn:Hmatch.
    + cbn [String.append] in Hpre. apply prefix_String in Hpre as [? _]. congruence.
    + apply prefix_String in Hpre as [-> Hpre]. apply prefix_String. split; [done|].
      by apply IH.
Qed.

Lemma occurs_false c u : occurs c u = false → ∀ u1 u2, u ≠ u1 +:+ String c u2.
Proof.
  intros Hocc u1. revert u Hocc. induction u1 as [|d u1 IH]; intros u Hocc u2 ->.
  - simpl in Hocc. by rewrite Ascii.eqb_refl in Hocc.
  - simpl in Hocc. apply orb_false_iff in Hocc as [_ Hocc]. by eapply IH.
Qed.

Lemma replace_match old new c s :
  String.prefix old (String c s) = true →
  ∃ rest, replace old new (String c s) = new +:+ rest.
Proof. intros Hm. unfold replace. cbn [replace_from]. rewrite Hm. eauto. Qed.

(** What [cleanup_old_backups] derives from a file name never begins with
    [backup_]. *)
Lemma metadata_of_not_backup n : String.prefix "backup_" (metadata_of n) = false.
Proof.
  destruct (String.prefix "backup_" (metadata_of n)) eqn:Hpre; [|done].
  unfold metadata_of in Hpre.
  apply (replace_prefix_inv ".tar.gz" "." "json") in Hpre;
    [|done|by apply occurs_false].
  pose proof Hpre as Hpre'.
  apply (replace_prefix_inv "backup_" "m" "etadata_") in Hpre';
    [|done|by apply occurs_false].
  destruct n as [|c n]; [done|].
  destruct (replace_match "backup_" "metadata_" c n Hpre') as [rest Hrest].
  rewrite Hrest in Hpre. done.
Qed.

Lemma metadata_of_ne_metadata_name n timestamp : metadata_of n ≠ metadata_name timestamp.
Proof.
  intros Heq. pose proof (metadata_of_not_backup n) as Hpre. rewrite Heq in Hpre. done.
Qed.

(** A text that matches a pattern ending in a literal ends in it. *)
Lemma last_char_app a s : s ≠ "" → last_char (a +:+ s) = last_char s.
Proof.
  intros Hs. induction a as [|d a IH]; [done|]. simpl. rewrite IH.
  destruct (a +:+ s) eqn:Happ; [|done]. destruct a; [done|discriminate].
Qed.

Lemma wild_last pat c s : wild (pat ++ [Lit c]) s = true → last_char s = Some c.
Proof.
  revert s. induction pat as [|[|d] pat IH]; intros s.
  - destruct s as [|c' [|? ?]]; cbn; try done.
    + rewrite andb_true_r. by intros ->%Ascii.eqb_eq.
    + by rewrite andb_false_r.
  - cbn [app wild]. induction s as [|c' s IHs].
    + rewrite orb_false_r. apply IH.
    + intros [Hm|Hm]%orb_true_iff; [by apply IH|].
      specialize (IHs Hm). cbn [last_char]. by destruct s.
  - cbn [app wild]. destruct s as [|c' s]; [done|].
    intros [_ Hm]%andb_true_iff. specialize (IH s Hm). cbn [last_char]. by destruct s.
Qed.

Lemma metadata_name_no_archive timestamp : fnmatch (metadata_name timestamp) archive_glob = false.
Proof.
  destruct (fnmatch _ _) eqn:Hm; [|done]. unfold fnmatch, archive_glob in Hm.
  change (pattern "*backup_*.tar.gz")
    with ([Star; Lit "b"; Lit "a"; Lit "c"; Lit "k"; Lit "u"; Lit "p"; Lit "_";
           Star; Lit "."; Lit "t"; Lit "a"; Lit "r"; Lit "."; Lit "g"] ++ [Lit "z"])%char in Hm.
  apply wild_last in Hm. unfold metadata_name in Hm.
  rewrite !last_char_app in Hm by (destruct timestamp; discriminate). done.
Qed.

Lemma replace_through c0 old new s rest :
  occurs c0 s = false →
  replace_from 0 (String c0 old) new (s +:+ rest)
    = s +:+ replace_from 0 (String c0 old) new rest.
Proof.
  induction s as [|d s IH]; intros Hocc; [done|].
  simpl in Hocc. apply orb_false_iff in Hocc as [Hd Hocc].
  change (String d s +:+ rest) with (String d (s +:+ rest)).
  change (String d s +:+ replace_from 0 (String c0 old) new rest)
    with (String d (s +:+ replace_from 0 (String c0 old) new rest)).
  cbn [replace_from].
  assert (String.prefix (String c0 old) (String d (s +:+ rest)) = false) as ->.
  { cbn. destruct (ascii_dec c0 d) as [->|Hne]; [|done]. by rewrite Ascii.eqb_refl in Hd. }
  by rewrite IH.
Qed.

Lemma stamp_like_occurs c s : stamp_char c = false → stamp_like s = true → occurs c s = false.
Proof.
  intros Hc. induction s as [|d s IH]; [done|]. cbn [stamp_like occurs].
  intros [Hd Hs]%andb_true_iff. rewrite (IH Hs), orb_false_r.
  destruct (Ascii.eqb_spec c d) as [->|]; [congruence|done].
Qed.

Lemma append_empty_l s : "" +:+ s = s.
Proof. done. Qed.

Lemma prefix_empty s : String.prefix "" s = true.
Proof. by destruct s. Qed.

(** For the archives the program writes, the derived name is
    [{kind}_metadata_{timestamp}.json]. *)
Lemma metadata_of_archive_name kind timestamp :
  kind ∈ backup_kinds → stamp_like timestamp = true →
  metadata_of (archive_name kind timestamp) = kind +:+ "_metadata_" +:+ timestamp +:+ ".json".
Proof.
  intros Hkind Hstamp.
  assert (occurs "b" timestamp = false) as Hb by by apply stamp_like_occurs.
  assert (occurs "." timestamp = false) as Hdot by by apply stamp_like_occurs.
  unfold backup_kinds in Hkind.
  repeat (apply elem_of_cons in Hkind as [->|Hkind]); [| | |by apply elem_of_nil in Hkind].
  all: unfold metadata_of, archive_name, replace; simpl.
  all: rewrite prefix_empty, !append_empty_l.
  all: rewrite (replace_through "b" "ackup_" "metadata_" timestamp ".tar.gz" Hb); simpl.
  all: rewrite !append_empty_l.
  all: rewrite (replace_through "." "tar.gz" ".json" timestamp ".tar.gz" Hdot); simpl.
  all: done.
Qed.

(** A text that matches a pattern ending in the literal text [u] ends in
    [u]. *)
Lemma wild_literal u s : occurs "*" u = false → wild (pattern u) s = true → s = u.
Proof.
  revert s. induction u as [|c u IH]; intros s Hu.
  - by destruct s.
  - cbn [occurs] in Hu. apply orb_false_iff in Hu as [Hc Hu]. cbn [pattern].
    rewrite Ascii.eqb_sym, Hc. cbn [wild]. destruct s as [|d s]; [done|].
    intros [->%Ascii.eqb_eq Hm]%andb_true_iff. f_equal. by apply IH.
Qed.

Lemma wild_suffix pat u s :
  occurs "*" u = false → wild (pat ++ pattern u) s = true → ∃ v, s = v +:+ u.
Proof.
  intros Hu. revert s. induction pat as [|[|d] pat IH]; intros s.
  - intros Hm. exists "". by apply wild_literal.
  - cbn [app wild]. induction s as [|c s IHs].
    + rewrite orb_false_r. apply IH.
    + intros [Hm|Hm]%orb_true_iff; [by apply IH|].
      destruct (IHs Hm) as [v ->]. by exists (String c v).
  - cbn [app wild]. destruct s as [|c s]; [done|].
    intros [->%Ascii.eqb_eq Hm]%andb_true_iff. destruct (IH s Hm) as [v ->].
    by exists (String c v).
Qed.

Lemma archive_glob_suffix n : fnmatch n archive_glob = true → ∃ v, n = v +:+ ".tar.gz".
Proof. apply (wild_suffix (pattern "*backup_*") ".tar.gz"). done. Qed.

(** A replacement that leaves no character of [new] behind has replaced
    nothing. *)
Lemma occurs_app c a b : occurs c (a +:+ b) = occurs c a || occurs c b.
Proof.
  induction a as [|d a IH]; [done|].
  change (String d a +:+ b) with (String d (a +:+ b)). cbn [occurs].
  by rewrite IH, orb_assoc.
Qed.

Lemma replace_untouched c old new s :
  occurs c new = true → occurs c (replace old new s) = false → replace old new s = s.
Proof.
  intros Hc. unfold replace. induction s as [|d s IH]; [done|]. cbn [replace_from].
  destruct (String.prefix old (String d s)).
  - by rewrite occurs_app, Hc.
  - cbn [occurs]. intros [_ Hocc]%orb_false_iff. f_equal. by apply IH.
Qed.

Lemma prefix_length a b :
  String.prefix a b = true → (String.length a ≤ String.length b)%nat.
Proof.
  revert b. induction a as [|c a IH]; intros b; cbn [String.length]; [lia|].
  destruct b as [|d b]; [done|]. intros [_ Hpre]%prefix_String.
  specialize (IH b Hpre). cbn [String.length]. lia.
Qed.

(** After [.tar.gz] has been replaced by [.json], no text ends in
    [.tar.gz]. *)
Lemma replace_targz_no_suffix s v : replace ".tar.gz" ".json" s ≠ v +:+ ".tar.gz".
Proof.
  remember (String.length s) as k eqn:Hk. revert s v Hk.
  induction k as [k IH] using lt_wf_ind. intros [|c s] v ->.
  - by destruct v.
  - unfold replace. cbn [replace_from].
    destruct (String.prefix ".tar.gz" (String c s)) eqn:Hmatch.
    + assert (6 ≤ String.length s)%nat as Hlen.
      { apply prefix_length in Hmatch. cbn [String.length] in Hmatch. lia. }
      destruct (replace_from_skip 6 ".tar.gz" ".json" s Hlen) as (s' & Hs' & Hlen').
      cbn [String.length Nat.sub]. rewrite Hs'.
      intros Heq.
      do 5 (destruct v as [|? v]; [discriminate Heq|]; injection Heq as _ Heq).
      eapply (IH (String.length s')); [|done|exact Heq]. cbn. lia.
    + intros Heq. destruct v as [|d v].
      * injection Heq as -> Heq.
        assert (replace ".tar.gz" ".json" s = s) as Hsame.
        { apply (replace_untouched "j"); [done|]. unfold replace. by rewrite Heq. }
        unfold replace in Hsame. rewrite Hsame in Heq. subst s. done.
      * injection Heq as -> Heq. eapply (IH (String.length s)); [|done|exact Heq]. cbn. lia.
Qed.

(** ** Working below one directory

    The program does most of its work below its backup root.  With the
    content [L] of a directory [bd] made explicit, as
    [update t bd (Some L)], a primitive at [bd ++ r] that succeeds on [L]
    at [r] succeeds on the whole tree and changes [L] only. *)

Section Mount.
Variables (t : node) (bd : path).
Hypothesis Hbd : is_Some (get t bd).

Lemma get_mount L r : get (update t bd (Some L)) (bd ++ r) = get L r.
Proof. by apply get_update_under. Qed.

Lemma get_mount_root L : get (update t bd (Some L)) bd = Some L.
Proof. by apply get_update_at. Qed.

Lemma exists_mount L r : exists_ (update t bd (Some L)) (bd ++ r) = exists_ L r.
Proof. unfold exists_. by rewrite get_mount. Qed.

Lemma is_dir_mount L r : is_dir (update t bd (Some L)) (bd ++ r) = is_dir L r.
Proof. unfold is_dir. by rewrite get_mount. Qed.

Lemma get_mount_apart L q : apart bd q → get (update t bd (Some L)) q = get t q.
Proof. apply get_update_apart. Qed.

Lemma update_mount L c r v :
  update (update t bd (Some L)) (bd ++ c :: r) v = update t bd (Some (update L (c :: r) v)).
Proof. by apply update_under. Qed.

Lemma fs_mkdir_mount pa eo L c r L' :
  fs_mkdir pa eo (c :: r) L = Ok L' →
  fs_mkdir pa eo (bd ++ c :: r) (update t bd (Some L)) = Ok (update t bd (Some L')).
Proof.
  unfold fs_mkdir. rewrite get_mount, parent_app_cons, get_mount, mkdirs_under by done.
  destruct (get L (c :: r)) as [[m d|es]|].
  - done.
  - destruct eo; [|done]. intros; by simplify_eq.
  - destruct pa.
    + destruct (mkdirs L (c :: r)); simpl; intros; by simplify_eq.
    + destruct (get L (parent (c :: r))) as [[m d|es]|]; [done| |done].
      intros; simplify_eq. by rewrite update_mount.
Qed.

Lemma fs_makedirs_mount L r L' :
  fs_makedirs r L = Ok L' →
  fs_makedirs (bd ++ r) (update t bd (Some L)) = Ok (update t bd (Some L')).
Proof.
  unfold fs_makedirs. rewrite mkdirs_under by done.
  destruct (mkdirs L r); simpl; intros; by simplify_eq.
Qed.

Lemma fs_rmtree_mount L c r L' :
  fs_rmtree (c :: r) L = Ok L' →
  fs_rmtree (bd ++ c :: r) (update t bd (Some L)) = Ok (update t bd (Some L')).
Proof.
  unfold fs_rmtree. rewrite get_mount.
  destruct (get L (c :: r)) as [[m d|es]|]; [done| |done].
  intros; simplify_eq. by rewrite update_mount.
Qed.

Lemma fs_unlink_mount L c r L' :
  fs_unlink (c :: r) L = Ok L' →
  fs_unlink (bd ++ c :: r) (update t bd (Some L)) = Ok (update t bd (Some L')).
Proof.
  unfold fs_unlink. rewrite get_mount.
  destruct (get L (c :: r)) as [[m d|es]|]; [|done|done].
  intros; simplify_eq. by rewrite update_mount.
Qed.

Lemma fs_write_mount L c r f L' :
  fs_write (c :: r) f L = Ok L' →
  fs_write (bd ++ c :: r) f (update t bd (Some L)) = Ok (update t bd (Some L')).
Proof.
  unfold fs_write. rewrite get_mount, parent_app_cons, get_mount.
  destruct (get L (c :: r)) as [[m d|es]|];
    [|done|];
    (destruct (get L (parent (c :: r))) as [[m' d'|es']|]; [done| |done]);
    intros; simplify_eq; by rewrite update_mount.
Qed.

Lemma fs_extract_mount L r member L' :
  fs_extract r member L = Ok L' →
  fs_extract (bd ++ r) member (update t bd (Some L)) = Ok (update t bd (Some L')).
Proof.
  unfold fs_extract. rewrite <-app_assoc, get_mount.
  destruct (graft false member.2 (get L (r ++ [member.1]))); [|done].
  intros; simplify_eq. f_equal.
  destruct (r ++ [member.1]) as [|c r'] eqn:Hr; [by destruct r|].
  by rewrite update_mount.
Qed.

End Mount.

(** The same, entered from a tree whose directory [bd] is known. *)

Section At.
Variables (t : node) (bd : path) (L : node).
Hypothesis Hbd : get t bd = Some L.

Lemma get_at r : get t (bd ++ r) = get L r.
Proof. by rewrite get_app, Hbd. Qed.

Lemma exists_at r : exists_ t (bd ++ r) = exists_ L r.
Proof. unfold exists_. by rewrite get_at. Qed.

Lemma is_dir_at r : is_dir t (bd ++ r) = is_dir L r.
Proof. unfold is_dir. by rewrite get_at. Qed.

Lemma fs_mkdir_at pa eo c r L' :
  fs_mkdir pa eo (c :: r) L = Ok L' →
  fs_mkdir pa eo (bd ++ c :: r) t = Ok (update t bd (Some L')).
Proof.
  intros HL. rewrite <-(update_id t bd L Hbd) at 1. apply fs_mkdir_mount; eauto.
Qed.

Lemma fs_rmtree_at c r L' :
  fs_rmtree (c :: r) L = Ok L' →
  fs_rmtree (bd ++ c :: r) t = Ok (update t bd (Some L')).
Proof.
  intros HL. rewrite <-(update_id t bd L Hbd) at 1. apply fs_rmtree_mount; eauto.
Qed.

Lemma fs_unlink_at c r L' :
  fs_unlink (c :: r) L = Ok L' →
  fs_unlink (bd ++ c :: r) t = Ok (update t bd (Some L')).
Proof.
  intros HL. rewrite <-(update_id t bd L Hbd) at 1. apply fs_unlink_mount; eauto.
Qed.

Lemma fs_write_at c r f L' :
  fs_write (c :: r) f L = Ok L' →
  fs_write (bd ++ c :: r) f t = Ok (update t bd (Some L')).
Proof.
  intros HL. rewrite <-(update_id t bd L Hbd) at 1. apply fs_write_mount; eauto.
Qed.

End At.

(** ** Invariants of runs *)

Lemma preserves_ret {A} I (a : A) : preserves I (mret a).
Proof. by intros w Hw. Qed.

Lemma preserves_raise {A} I (e : exn) : preserves I (raise e : M A).
Proof. by intros w Hw. Qed.

Lemma preserves_bind {A B} I (m : M A) (k : A → M B) :
  preserves I m → (∀ a, preserves I (k a)) → preserves I (m ≫= k).
Proof.
  intros Hm Hk w Hw. specialize (Hm w Hw). unfold mbind, M_bind.
  destruct (m w) as [[a|e] w']; [by apply Hk|done].
Qed.

Lemma preserves_fmap {A B} I (f : A → B) (m : M A) : preserves I m → preserves I (f <$> m).
Proof.
  intros Hm w Hw. specialize (Hm w Hw). unfold fmap, M_fmap.
  by destruct (m w) as [[a|e] w'].
Qed.

Lemma preserves_try {A} I (m : M A) (h : exn → M A) :
  preserves I m → (∀ e, preserves I (h e)) → preserves I (try_ m h).
Proof.
  intros Hm Hh w Hw. specialize (Hm w Hw). unfold try_.
  destruct (m w) as [[a|e] w']; [done|by apply Hh].
Qed.

Lemma preserves_foldM {A B} I (body : B → A → M B) acc l :
  (∀ acc x, x ∈ l → preserves I (body acc x)) → preserves I (foldM body acc l).
Proof.
  revert acc. induction l as [|x l IH]; intros acc Hbody; [apply preserves_ret|].
  cbn [foldM]. apply preserves_bind.
  - apply Hbody. by left.
  - intros acc'. apply IH. intros ?? Hin. apply Hbody. by right.
Qed.

Lemma preserves_for {A B} I (l : list A) (body : A → M (option B)) :
  (∀ x, x ∈ l → preserves I (body x)) → preserves I (for_ l body).
Proof.
  induction l as [|x l IH]; intros Hbody; [apply preserves_ret|].
  cbn [for_]. apply preserves_bind.
  - apply Hbody. by left.
  - intros [b|]; [apply preserves_ret|]. apply IH. intros ? Hin. apply Hbody. by right.
Qed.

(** Reading keeps everything. *)
Lemma preserves_get_fs I : preserves I get_fs.
Proof. by intros w Hw. Qed.

Section Inv.
Variables (P : node → Prop) (Q : event → Prop) (tr0 : list event).
Hypothesis Hlog : ∀ lvl msg, Q (Log lvl msg).
Hypothesis Hexec : ∀ argv, Q (Exec argv).

#[local] Abbreviation I := (inv P Q tr0).

Lemma preserves_tell e : Q e → preserves I (tell e).
Proof.
  intros He w [HP (tr & Htr & HQ)]. split; [done|]. exists (tr ++ [e]). cbn.
  rewrite Htr, app_assoc. split; [done|]. apply Forall_app. by repeat constructor.
Qed.

Lemma preserves_logger lvl msg : preserves I (logger lvl msg).
Proof. by apply preserves_tell. Qed.

Lemma preserves_modify_fs f :
  (∀ t t', P t → f t = Ok t' → P t') → preserves I (modify_fs f).
Proof.
  intros Hf w [HP Htr]. unfold modify_fs. destruct (f (fs w)) as [t'|e] eqn:Hft; [|done].
  split; [by eapply Hf|done].
Qed.

Lemma safe_here p : safe P p → (∀ t v, P t → P (update t p v)) ∧
                                (∀ t t', P t → mkdirs t p = Some t' → P t').
Proof. intros Hp. specialize (Hp []). by rewrite app_nil_r in Hp. Qed.

Lemma safe_app p r : safe P p → safe P (p ++ r).
Proof. intros Hp r'. rewrite <-app_assoc. apply Hp. Qed.

Lemma preserves_mkdir pa eo p : safe P p → preserves I (mkdir pa eo p).
Proof.
  intros [Hup Hmk]%safe_here. apply preserves_modify_fs. intros t t' HP. unfold fs_mkdir.
  repeat case_match; intros; simplify_eq; eauto.
Qed.

Lemma preserves_makedirs p : safe P p → preserves I (modify_fs (fs_makedirs p)).
Proof.
  intros [Hup Hmk]%safe_here. apply preserves_modify_fs. intros t t' HP. unfold fs_makedirs.
  repeat case_match; intros; simplify_eq; eauto.
Qed.

Lemma preserves_rmtree p : safe P p → preserves I (rmtree p).
Proof.
  intros [Hup Hmk]%safe_here. apply preserves_modify_fs. intros t t' HP. unfold fs_rmtree.
  repeat case_match; intros; simplify_eq; eauto.
Qed.

Lemma preserves_unlink p : safe P p → preserves I (unlink p).
Proof.
  intros [Hup Hmk]%safe_here. apply preserves_modify_fs. intros t t' HP. unfold fs_unlink.
  repeat case_match; intros; simplify_eq; eauto.
Qed.

Lemma preserves_fs_write p f : safe P p → preserves I (modify_fs (fs_write p f)).
Proof.
  intros [Hup Hmk]%safe_here. apply preserves_modify_fs. intros t t' HP. unfold fs_write.
  repeat case_match; intros; simplify_eq; eauto.
Qed.

Lemma preserves_write_file E p d : safe P p → Q (Open p) → preserves I (write_file E p d).
Proof.
  intros Hp HQ. apply preserves_bind; [by apply preserves_fs_write|].
  intros _. by apply preserves_tell.
Qed.

Lemma preserves_path_exists p : preserves I (path_exists p).
Proof. by intros w Hw. Qed.

Lemma preserves_path_is_dir p : preserves I (path_is_dir p).
Proof. by intros w Hw. Qed.

Lemma preserves_read_file p : preserves I (read_file p).
Proof. intros w Hw. unfold read_file, mbind, M_bind, get_fs. by repeat case_match. Qed.

Lemma preserves_stat_mtime E p : preserves I (stat_mtime E p).
Proof. intros w Hw. unfold stat_mtime, mbind, M_bind, get_fs. by repeat case_match. Qed.

Lemma preserves_glob dir pat : preserves I (glob dir pat).
Proof. by intros w Hw. Qed.

Lemma preserves_readable E p : preserves I (readable E p).
Proof. intros w Hw. unfold readable. by case_match. Qed.

Lemma preserves_copytree E src dst ok : safe P dst → preserves I (copytree E src dst ok).
Proof.
  intros Hdst. pose proof (safe_here _ Hdst) as [Hup Hmk].
  apply preserves_bind; [apply preserves_readable|]. intros _.
  apply preserves_bind; [apply preserves_get_fs|]. intros t.
  destruct (get t src) as [[m d|es]|]; [apply preserves_raise| |apply preserves_raise].
  apply preserves_bind.
  { case_match; [apply preserves_raise|apply preserves_ret]. }
  intros _. apply preserves_bind; [by apply preserves_makedirs|]. intros _.
  apply preserves_modify_fs. intros t1 t' HP. case_match; intros; simplify_eq. eauto.
Qed.

Lemma preserves_copy2 E src dst : safe P dst → preserves I (copy2 E src dst).
Proof.
  intros Hdst.
  apply preserves_bind; [apply preserves_readable|]. intros _.
  apply preserves_bind; [apply preserves_get_fs|]. intros t.
  destruct (get t src) as [[m d|es]|]; [|apply preserves_raise|apply preserves_raise].
  apply preserves_fs_write. case_match; [by apply safe_app|done].
Qed.

Lemma preserves_tar_create E archive dir arcname :
  safe P archive → Q (Open archive) → preserves I (tar_create E archive dir arcname).
Proof.
  intros Hp HQ. apply preserves_bind; [by apply preserves_write_file|]. intros _.
  apply preserves_bind; [apply preserves_get_fs|]. intros t.
  case_match; [by apply preserves_fs_write|apply preserves_raise].
Qed.

Lemma preserves_tar_extractall archive dest :
  safe P dest → preserves I (tar_extractall archive dest).
Proof.
  intros Hp. apply preserves_bind; [apply preserves_read_file|]. intros d.
  destruct d; try apply preserves_raise.
  apply preserves_foldM. intros _ member _.
  apply preserves_bind; [by apply preserves_makedirs|]. intros _.
  apply preserves_modify_fs. intros t t' HP. unfold fs_extract.
  case_match; intros; simplify_eq. by apply (safe_here _ (safe_app _ [member.1] Hp)).
Qed.

Lemma preserves_run E argv stdin : preserves I (run E argv stdin).
Proof.
  apply preserves_bind; [by apply preserves_tell|]. intros _.
  case_match; [apply preserves_ret|apply preserves_raise].
Qed.

Lemma preserves_run_to_file E argv out :
  safe P out → Q (Open out) → preserves I (run_to_file E argv out).
Proof.
  intros Hp HQ. apply preserves_bind; [by apply preserves_write_file|]. intros _.
  apply preserves_bind; [apply preserves_run|]. intros r.
  apply preserves_bind; [by apply preserves_fs_write|]. intros _. apply preserves_ret.
Qed.
End Inv.

Lemma quiet_here Q p : quiet Q p → Q (Open p).
Proof. intros Hq. specialize (Hq []). by rewrite app_nil_r in Hq. Qed.

Lemma quiet_app Q p r : quiet Q p → quiet Q (p ++ r).
Proof. intros Hq r'. rewrite <-app_assoc. apply Hq. Qed.

Lemma safe_root_keeps bd es (keep : string → Prop) n :
  ¬ keep n → safe (root_keeps bd es keep) (bd ++ [n]).
Proof.
  intros Hn r. rewrite <-app_assoc. cbn [app].
  split; intros t; [intros v|intros t']; intros (es' & Hbd & Hkeep).
  - rewrite (update_app _ _ _ _ _ Hbd) by done.
    assert (∀ k, keep k → k ≠ n) as Hne by congruence.
    destruct r; (eexists; split; [apply get_update_at; eauto|]);
      intros k Hk; rewrite <-(Hkeep k Hk).
    + by rewrite lookup_partial_alter_ne by (symmetry; eauto).
    + by rewrite lookup_alter_ne by (symmetry; eauto).
  - rewrite (mkdirs_app _ _ _ _ Hbd). cbn [mkdirs].
    destruct (mkdirs _ r) as [t1|]; [|done]. cbn. intros; simplify_eq.
    eexists. split; [apply get_update_at; eauto|].
    intros k Hk. rewrite <-(Hkeep k Hk). assert (k ≠ n) by congruence.
    by rewrite lookup_insert_ne.
Qed.

Ltac solve_safe :=
  solve [ repeat first [ assumption | apply safe_app ] ].
Ltac solve_quiet :=
  solve [ apply quiet_here; repeat first [ assumption | apply quiet_app ] ].

(** One step of a proof that a piece of the program keeps an invariant. *)
Ltac keeps_step :=
  lazymatch goal with
  | |- preserves _ (mret _) => apply preserves_ret
  | |- preserves _ (raise _) => apply preserves_raise
  | |- preserves _ (_ ≫= _) => apply preserves_bind; [|intros ?]
  | |- preserves _ (_ <$> _) => apply preserves_fmap
  | |- preserves _ (try_ _ _) => apply preserves_try; [|intros ?]
  | |- preserves _ (foldM _ _ _) => apply preserves_foldM; intros ? ? ?
  | |- preserves _ (for_ _ _) => apply preserves_for; intros ? ?
  | |- preserves _ (logger _ _) => apply preserves_logger; assumption
  | |- preserves _ (path_exists _) => apply preserves_path_exists
  | |- preserves _ (path_is_dir _) => apply preserves_path_is_dir
  | |- preserves _ (read_file _) => apply preserves_read_file
  | |- preserves _ (glob _ _) => apply preserves_glob
  | |- preserves _ (stat_mtime _ _) => apply preserves_stat_mtime
  | |- preserves _ (mkdir _ _ _) => apply preserves_mkdir; solve_safe
  | |- preserves _ (rmtree _) => apply preserves_rmtree; solve_safe
  | |- preserves _ (unlink _) => apply preserves_unlink; solve_safe
  | |- preserves _ (copytree _ _ _ _) => apply preserves_copytree; solve_safe
  | |- preserves _ (copy2 _ _ _) => apply preserves_copy2; solve_safe
  | |- preserves _ (write_file _ _ _) =>
      apply preserves_write_file; [solve_safe|solve_quiet]
  | |- preserves _ (tar_create _ _ _ _) =>
      apply preserves_tar_create; [solve_safe|solve_quiet]
  | |- preserves _ (tar_extractall _ _) => apply preserves_tar_extractall; solve_safe
  | |- preserves _ (run _ _ _) => apply preserves_run; assumption
  | |- preserves _ (run_to_file _ _ _) =>
      apply preserves_run_to_file; [assumption|solve_safe|solve_quiet]
  | |- preserves _ (if ?b then _ else _) => destruct b
  | |- preserves _ (match ?x with _ => _ end) => destruct x
  | |- preserves _ (let _ := _ in _) => cbv zeta
  end.

Section Keeps.
Variables (E : environment) (self : TelecomBackup) (timestamp : string).
Variables (P : node → Prop) (Q : event → Prop) (tr0 : list event).
Hypothesis Hlog : ∀ lvl msg, Q (Log lvl msg).
Hypothesis Hexec : ∀ argv, Q (Exec argv).

(** A component of the backup writes below its staging directory and at
    its archive; an invariant that allows this is kept, however the
    component ends. *)
Lemma backup_configurations_keeps :
  safe P (backup_dir self ++ ["config_" +:+ timestamp]) →
  safe P (backup_dir self ++ ["config_backup_" +:+ timestamp +:+ ".tar.gz"]) →
  quiet Q (backup_dir self ++ ["config_backup_" +:+ timestamp +:+ ".tar.gz"]) →
  preserves (inv P Q tr0) (backup_configurations E self timestamp).
Proof.
  intros Hstaging Harchive Hopen. unfold backup_configurations, backup_service, backup_path.
  repeat keeps_step.
Qed.

Lemma backup_databases_keeps :
  safe P (backup_dir self ++ ["database_" +:+ timestamp]) →
  quiet Q (backup_dir self ++ ["database_" +:+ timestamp]) →
  safe P (backup_dir self ++ ["database_backup_" +:+ timestamp +:+ ".tar.gz"]) →
  quiet Q (backup_dir self ++ ["database_backup_" +:+ timestamp +:+ ".tar.gz"]) →
  preserves (inv P Q tr0) (backup_databases E self timestamp).
Proof.
  intros Hstaging Hdumps Harchive Hopen. unfold backup_databases, backup_database.
  repeat keeps_step.
Qed.

Lemma backup_volumes_keeps dir label errkey results volumes :
  safe P dir → preserves (inv P Q tr0) (backup_volumes E dir label errkey results volumes).
Proof.
  intros Hdir. revert results. induction volumes as [|v volumes IH]; intros results.
  - apply preserves_ret.
  - cbn [backup_volumes]. repeat keeps_step. apply IH.
Qed.

Lemma backup_monitoring_data_keeps :
  safe P (backup_dir self ++ ["monitoring_" +:+ timestamp]) →
  safe P (backup_dir self ++ ["monitoring_backup_" +:+ timestamp +:+ ".tar.gz"]) →
  quiet Q (backup_dir self ++ ["monitoring_backup_" +:+ timestamp +:+ ".tar.gz"]) →
  preserves (inv P Q tr0) (backup_monitoring_data E self timestamp).
Proof.
  intros Hstaging Harchive Hopen. unfold backup_monitoring_data.
  repeat first [ apply backup_volumes_keeps; solve_safe | keeps_step ].
Qed.
End Keeps.

(** ** The database restore *)

(** The steps both restores begin with: a fresh extraction directory
    [tmp] under the backup root, and the archive unpacked into it. *)
Section Extraction.
Variables (t : node) (bd : path) (es : gmap string node).
Variables (arch tmp arc : string) (m : Z) (root : node).
Hypothesis Hbd : get t bd = Some (Dir es).
Hypothesis Harch : es !! arch = Some (File m (TarGz [(arc, root)])).
Hypothesis Htmp : es !! tmp = None.

#[local] Abbreviation made := (update t bd (Some (Dir (<[tmp := Dir ∅]> es)))).
#[local] Abbreviation unpacked :=
  (update t bd (Some (Dir (<[tmp := Dir {[ arc := root ]}]> es)))).

Lemma extraction_mkdir : fs_mkdir false true (bd ++ [tmp]) t = Ok made.
Proof.
  apply (fs_mkdir_at _ _ _ Hbd). unfold fs_mkdir. cbn [get parent removelast].
  by rewrite Htmp.
Qed.

Lemma extraction_archive : get made (bd ++ [arch]) = Some (File m (TarGz [(arc, root)])).
Proof.
  rewrite get_mount by eauto. cbn [get].
  rewrite lookup_insert_ne by congruence. by rewrite Harch.
Qed.

Lemma extraction_makedirs : fs_makedirs (bd ++ [tmp]) made = Ok made.
Proof.
  apply fs_makedirs_mount; [eauto|]. unfold fs_makedirs. cbn [mkdirs].
  rewrite lookup_insert_eq. cbn [default from_option id mkdirs].
  by rewrite insert_insert_eq.
Qed.

Lemma extraction_member : fs_extract (bd ++ [tmp]) (arc, root) made = Ok unpacked.
Proof.
  apply fs_extract_mount; [eauto|]. unfold fs_extract. cbn [fst snd app get].
  rewrite lookup_insert_eq, lookup_empty, graft_none. cbn [update].
  rewrite alter_insert_eq. done.
Qed.

Lemma unpacked_root : get unpacked (bd ++ [tmp; arc]) = Some root.
Proof.
  rewrite get_mount by eauto. cbn [get].
  by rewrite lookup_insert_eq, lookup_singleton_eq.
Qed.

(** Removing the extraction directory gives back the tree as it was. *)
Lemma extraction_rmtree : fs_rmtree (bd ++ [tmp]) unpacked = Ok t.
Proof.
  erewrite fs_rmtree_mount; [|eauto|].
  2:{ unfold fs_rmtree. cbn [get]. rewrite lookup_insert_eq. cbn [update]. done. }
  f_equal. cbn [partial_alter]. 
  assert (partial_alter (λ _ : option node, None) tmp
            (<[tmp:=Dir {[arc := root]}]> es) = es) as ->.
  { apply map_eq. intros k. destruct (decide (k = tmp)) as [->|Hk].
    - by rewrite lookup_partial_alter_eq.
    - by rewrite lookup_partial_alter_ne, lookup_insert_ne. }
  by apply update_id.
Qed.
End Extraction.

Lemma restore_database_prelude E self timestamp database w dumps :
  database_archive_ready self timestamp dumps (fs w) →
  ∃ es, get (fs w) (backup_dir self) = Some (Dir es) ∧
  let temp_dir := backup_dir self ++ ["temp_db_restore_" +:+ timestamp] in
  let db_dir := temp_dir ++ ["database_" +:+ timestamp] in
  let w1 := {| fs := update (fs w) (backup_dir self)
                       (Some (Dir (<["temp_db_restore_" +:+ timestamp :=
                                       Dir {[ "database_" +:+ timestamp := Dir dumps ]}]> es)));
               trace := trace w ++ [Log INFO ("Restoring database from backup: " +:+ timestamp)] |} in
  restore_database E self timestamp database w =
    try_ (early ← for_ (databases_to_restore self database)
                       (restore_one_database E self timestamp db_dir);
          match early with
          | Some b => mret b
          | None =>
              rmtree temp_dir;;
              logger INFO "Database restore completed successfully";;
              mret true
          end)
         (λ e, logger ERROR ("Database restore failed: " +:+ str_exn e);; mret false) w1.
Proof.
  intros (es & m & Hbd & Harc & Htmp). exists es. split; [done|]. intros temp_dir db_dir w1.
  unfold restore_database. run_step.
  rewrite (exists_at _ _ _ Hbd). unfold exists_ at 1. cbn [get].
  change ("database_backup_" +:+ timestamp +:+ ".tar.gz") with (archive_of Database timestamp).
  rewrite Harc. cbn [negb fs trace].
  erewrite extraction_mkdir by eassumption. cbn [fs trace].
  erewrite extraction_archive by eassumption. cbn [foldM]. run_step.
  erewrite extraction_makedirs by eassumption. cbn [fs trace].
  erewrite extraction_member by eassumption. cbn [fs trace].
  subst w1 db_dir temp_dir. unfold databases_to_restore. run_step. reflexivity.
Qed.

Section DbRestore.
Variables (E : environment) (self : TelecomBackup) (timestamp : string).
Variables (db_dir : path) (dumps : gmap string node).

Lemma commands_app tr1 tr2 : commands (tr1 ++ tr2) = commands tr1 ++ commands tr2.
Proof. apply omap_app. Qed.

Lemma restore_one_clean db_name w :
  get (fs w) db_dir = Some (Dir dumps) →
  restores_cleanly E self timestamp dumps db_name →
  ∃ tr, restore_one_database E self timestamp db_dir db_name w
          = (Ok None, {| fs := fs w; trace := trace w ++ tr |}) ∧
        commands tr = [mysql_restore self db_name].
Proof.
  intros Hdir (m & d & r & Hdump & Hrun & Hrc).
  unfold restore_one_database. run_step.
  rewrite (exists_at _ _ _ Hdir). unfold exists_. cbn [get].
  unfold dump_name in Hdump. rewrite Hdump. cbn [fs trace].
  rewrite (get_at _ _ _ Hdir). cbn [get]. rewrite Hdump. cbn [fs trace].
  unfold mysql_restore in Hrun. rewrite Hrun, Hrc. cbn [Z.eqb].
  cbn [fs trace]. eexists. split; [by rewrite <-!app_assoc|done].
Qed.

Lemma restore_one_failing db_name w :
  get (fs w) db_dir = Some (Dir dumps) →
  restore_fails E self timestamp dumps db_name →
  ∃ tr, restore_one_database E self timestamp db_dir db_name w
          = (Ok (Some false), {| fs := fs w; trace := trace w ++ tr |}) ∧
        commands tr = [mysql_restore self db_name].
Proof.
  intros Hdir (m & d & r & Hdump & Hrun & Hrc).
  unfold restore_one_database. run_step.
  rewrite (exists_at _ _ _ Hdir). unfold exists_. cbn [get].
  unfold dump_name in Hdump. rewrite Hdump. cbn [fs trace].
  rewrite (get_at _ _ _ Hdir). cbn [get]. rewrite Hdump. cbn [fs trace].
  unfold mysql_restore in Hrun. rewrite Hrun.
  destruct (Z.eqb_spec (returncode r) 0) as [?|_]; [done|].
  cbn [fs trace]. eexists. split; [by rewrite <-!app_assoc|done].
Qed.

Lemma restore_one_missing db_name w :
  get (fs w) db_dir = Some (Dir dumps) →
  dumps !! dump_name db_name timestamp = None →
  ∃ tr, restore_one_database E self timestamp db_dir db_name w
          = (Ok (Some false), {| fs := fs w; trace := trace w ++ tr |}) ∧
        commands tr = [].
Proof.
  intros Hdir Hdump.
  unfold restore_one_database. run_step.
  rewrite (exists_at _ _ _ Hdir). unfold exists_. cbn [get].
  unfold dump_name in Hdump. rewrite Hdump.
  eexists. split; [done|done].
Qed.

(** The loop runs through the databases that restore cleanly. *)
Lemma restore_loop_clean done rest w :
  get (fs w) db_dir = Some (Dir dumps) →
  Forall (restores_cleanly E self timestamp dumps) done →
  ∃ tr, for_ (done ++ rest) (restore_one_database E self timestamp db_dir) w
          = for_ rest (restore_one_database E self timestamp db_dir)
                 {| fs := fs w; trace := trace w ++ tr |} ∧
        commands tr = mysql_restore self <$> done.
Proof.
  intros Hdir Hdone. revert w Hdir.
  induction Hdone as [|db done Hdb _ IH]; intros w Hdir.
  - exists []. rewrite app_nil_r. by destruct w.
  - destruct (restore_one_clean db w Hdir Hdb) as (tr1 & Hrun & Hcmd).
    destruct (IH {| fs := fs w; trace := trace w ++ tr1 |} Hdir) as (tr2 & Hloop & Hcmds).
    exists (tr1 ++ tr2). split.
    + cbn [app for_]. run_step. rewrite Hrun. cbn [fs trace] in Hloop.
      rewrite Hloop. by rewrite app_assoc.
    + rewrite commands_app, Hcmd, Hcmds. done.
Qed.
End DbRestore.

(** What the loop of [restore_database] starts from. *)
Lemma staged_dumps_at (t : node) (bd : path) (es dumps : gmap string node) tmp sub :
  is_Some (get t bd) →
  get (update t bd (Some (Dir (<[tmp := Dir {[ sub := Dir dumps ]}]> es))))
      ((bd ++ [tmp]) ++ [sub]) = Some (Dir dumps).
Proof.
  intros Hbd. rewrite <-app_assoc, get_mount by done. cbn [app get].
  by rewrite lookup_insert_eq, lookup_singleton_eq.
Qed.

(** The restore stops at the first database that does not come through:
    [Some r] is the failing command's result, [None] a missing dump. *)
Lemma restore_database_stops E self timestamp database w dumps done d rest :
  databases_to_restore self database = done ++ d :: rest →
  database_archive_ready self timestamp dumps (fs w) →
  Forall (restores_cleanly E self timestamp dumps) done →
  restore_fails E self timestamp dumps d ∨ dumps !! dump_name d timestamp = None →
  ∃ w' tr, restore_database E self timestamp database w = (Ok false, w') ∧
           trace w' = trace w ++ tr ∧
           (restore_fails E self timestamp dumps d →
              commands tr = mysql_restore self <$> (done ++ [d])) ∧
           (dumps !! dump_name d timestamp = None →
              commands tr = mysql_restore self <$> done).
Proof.
  intros Hdbs Hready Hdone Hd.
  destruct (restore_database_prelude E self timestamp database w dumps Hready)
    as (es & Hbd & Hrun).
  cbv zeta in Hrun. rewrite Hrun. clear Hrun.
  assert (is_Some (get (fs w) (backup_dir self))) as Hsome by eauto.
  rewrite Hdbs.
  set (w1 := {| fs := _; trace := _ |}).
  assert (get (fs w1) ((backup_dir self ++ ["temp_db_restore_" +:+ timestamp])
                         ++ ["database_" +:+ timestamp]) = Some (Dir dumps)) as Hdir
    by by apply staged_dumps_at.
  destruct (restore_loop_clean E self timestamp _ dumps done (d :: rest) w1 Hdir Hdone)
    as (tr1 & Hloop & Hcmds).
  unfold try_ at 1. unfold mbind at 1, M_bind at 1. rewrite Hloop. cbn [for_].
  unfold mbind at 1, M_bind at 1.
  destruct Hd as [Hfail|Hmiss].
  - destruct (restore_one_failing E self timestamp _ dumps d
                {| fs := fs w1; trace := trace w1 ++ tr1 |} Hdir Hfail)
      as (tr2 & Hone & Hcmd).
    cbn [fs trace] in *. rewrite Hone. run_step.
    eexists _, _. split; [done|]. cbn [trace]. split; [subst w1; cbn [trace]; by rewrite <-!app_assoc|].
    split.
    + intros _. rewrite !commands_app, Hcmds, Hcmd, fmap_app. done.
    + intros Hmiss. destruct Hfail as (? & ? & ? & ? & _). congruence.
  - destruct (restore_one_missing E self timestamp _ dumps d
                {| fs := fs w1; trace := trace w1 ++ tr1 |} Hdir Hmiss)
      as (tr2 & Hone & Hcmd).
    cbn [fs trace] in *. rewrite Hone. run_step.
    eexists _, _. split; [done|]. cbn [trace]. split; [subst w1; cbn [trace]; by rewrite <-!app_assoc|].
    split.
    + intros Hfail. destruct Hfail as (? & ? & ? & ? & _). congruence.
    + intros _. rewrite !commands_app, Hcmds, Hcmd, app_nil_r. done.
Qed.

(** ** The full backup *)

Lemma append_inj_r a b s : a +:+ s = b +:+ s → a = b.
Proof.
  revert b. induction a as [|c a IH]; intros [|d b] Heq.
  - done.
  - apply (f_equal String.length) in Heq. rewrite !length_append in Heq.
    cbn [String.length] in Heq. lia.
  - apply (f_equal String.length) in Heq. rewrite !length_append in Heq.
    cbn [String.length] in Heq. lia.
  - cbn [String.append] in Heq. injection Heq as -> Heq. f_equal. by apply IH.
Qed.

Lemma metadata_name_inj t1 t2 : metadata_name t1 = metadata_name t2 → t1 = t2.
Proof.
  unfold metadata_name. intros Heq. apply (inj (String.append "backup_metadata_")) in Heq.
  by apply append_inj_r in Heq.
Qed.

Section FullBackup.
Variables (E : environment) (self : TelecomBackup).
Variable es : gmap string node.

#[local] Abbreviation bd := (backup_dir self).
#[local] Abbreviation P := (root_keeps bd es is_metadata_name).
#[local] Abbreviation Q := (no_metadata_write bd).

Lemma no_metadata_write_log lvl msg : Q (Log lvl msg).
Proof. by intros n Hn. Qed.

Lemma no_metadata_write_exec argv : Q (Exec argv).
Proof. by intros n Hn. Qed.

Lemma quiet_sibling n : ¬ is_metadata_name n → quiet Q (bd ++ [n]).
Proof.
  intros Hn r k Hk Heq. injection Heq as Heq. rewrite <-app_assoc in Heq.
  apply app_inv_head in Heq. cbn in Heq. by simplify_eq.
Qed.

Lemma not_metadata_name_c s : ¬ is_metadata_name (String "c" s).
Proof. by intros [ts Hts]. Qed.
Lemma not_metadata_name_d s : ¬ is_metadata_name (String "d" s).
Proof. by intros [ts Hts]. Qed.
Lemma not_metadata_name_m s : ¬ is_metadata_name (String "m" s).
Proof. by intros [ts Hts]. Qed.

Lemma attempted_intro announce (rest : M (list (string * string))) (h : exn → M json) :
  (∀ tr0, preserves (inv P Q tr0) rest) →
  (∀ tr0 e, preserves (inv P Q tr0) (h e)) →
  (∀ e w, ∃ r, (h e w).1 = Ok r) →
  attempted bd es announce (try_ (results_json <$> (logger INFO announce;; rest)) h).
Proof.
  intros Hrest Hh Hok w1 HP.
  assert (inv P Q (trace w1 ++ [Log INFO announce]) (emit w1 (Log INFO announce))) as Hinv.
  { split; [done|]. exists []. by rewrite app_nil_r. }
  pose proof (preserves_try _ _ h (preserves_fmap _ results_json _ (Hrest _)) (Hh _)
                _ Hinv) as Hfin.
  assert (try_ (results_json <$> (logger INFO announce;; rest)) h w1
          = try_ (results_json <$> rest) h (emit w1 (Log INFO announce))) as -> by done.
  destruct (try_ (results_json <$> rest) h (emit w1 (Log INFO announce)))
    as [[r|e] w2] eqn:Hrun.
  - destruct Hfin as [HP2 (tr & Htr & HQ)]. cbn [snd] in *.
    exists r, tr, w2. rewrite Htr, <-app_assoc. done.
  - exfalso. unfold try_, fmap, M_fmap in Hrun.
    destruct (rest _) as [[a|e'] w']; [done|].
    destruct (Hok e' w') as [r Hr]. rewrite Hrun in Hr. done.
Qed.

Lemma components_attempted :
  attempted bd es "Starting configuration backup..."
    (try_ (results_json <$> backup_configurations E self (stamp E))
          (λ e, logger ERROR ("Configuration backup failed: " +:+ str_exn e);;
                mret (JObj [("error", JStr (str_exn e))]))) ∧
  attempted bd es "Starting database backup..."
    (try_ (results_json <$> backup_databases E self (stamp E))
          (λ e, logger ERROR ("Database backup failed: " +:+ str_exn e);;
                mret (JObj [("error", JStr (str_exn e))]))) ∧
  attempted bd es "Starting monitoring data backup..."
    (try_ (results_json <$> backup_monitoring_data E self (stamp E))
          (λ e, logger ERROR ("Monitoring backup failed: " +:+ str_exn e);;
                mret (JObj [("error", JStr (str_exn e))]))).
Proof.
  pose proof no_metadata_write_log as Hlog.
  pose proof no_metadata_write_exec as Hexec.
  assert (∀ n, ¬ is_metadata_name n → safe P (bd ++ [n]) ∧ quiet Q (bd ++ [n])) as Hok
    by (intros n Hn; split; [by apply safe_root_keeps|by apply quiet_sibling]).
  destruct (Hok ("config_" +:+ stamp E)) as [Hs1 Hq1]; [apply not_metadata_name_c|].
  destruct (Hok ("config_backup_" +:+ stamp E +:+ ".tar.gz")) as [Hs2 Hq2];
    [apply not_metadata_name_c|].
  destruct (Hok ("database_" +:+ stamp E)) as [Hs3 Hq3]; [apply not_metadata_name_d|].
  destruct (Hok ("database_backup_" +:+ stamp E +:+ ".tar.gz")) as [Hs4 Hq4];
    [apply not_metadata_name_d|].
  destruct (Hok ("monitoring_" +:+ stamp E)) as [Hs5 Hq5]; [apply not_metadata_name_m|].
  destruct (Hok ("monitoring_backup_" +:+ stamp E +:+ ".tar.gz")) as [Hs6 Hq6];
    [apply not_metadata_name_m|].
  clear Hok.
  split; [|split].
  - unfold backup_configurations, backup_service, backup_path.
    apply attempted_intro.
    + intros tr0. repeat keeps_step.
    + intros tr0 e. repeat keeps_step.
    + intros e w. by eexists.
  - unfold backup_databases, backup_database.
    apply attempted_intro.
    + intros tr0. repeat keeps_step.
    + intros tr0 e. repeat keeps_step.
    + intros e w. by eexists.
  - unfold backup_monitoring_data.
    apply attempted_intro.
    + intros tr0. repeat first [ apply backup_volumes_keeps; [assumption..|solve_safe] | keeps_step ].
    + intros tr0 e. repeat keeps_step.
    + intros e w. by eexists.
Qed.
End FullBackup.

Lemma bind_ok {A B} (m : M A) (k : A → M B) w a w' :
  m w = (Ok a, w') → (m ≫= k) w = k a w'.
Proof. intros Hm. unfold mbind, M_bind. by rewrite Hm. Qed.

(** ** The configuration backup: what is staged and reported *)

Lemma dict_set_fresh {V} (d : list (string * V)) k v :
  k ∉ d.*1 → Dict.set d k v = d ++ [(k, v)].
Proof.
  induction d as [|[k' v'] d IH]; intros Hk; [done|]. cbn [Dict.set].
  apply not_elem_of_cons in Hk as [Hne Hk]. cbn [fst] in Hne.
  destruct (decide (k' = k)) as [->|_]; [done|]. cbn [app]. by rewrite IH.
Qed.

Lemma update_grandchild (stg sub : gmap string node) c n v :
  stg !! c = Some (Dir sub) →
  update (Dir stg) [c; n] v = Dir (<[c := Dir (partial_alter (λ _, v) n sub)]> stg).
Proof.
  intros Hc. cbn [update]. rewrite <-(insert_id stg c (Dir sub)) at 1 by done.
  by rewrite alter_insert_eq.
Qed.

Section Staging.
Variables (E : environment) (t1 : node) (stage : path).
Hypothesis Hstage : is_Some (get t1 stage).

#[local] Abbreviation staged_world stg tr :=
  {| fs := update t1 stage (Some (Dir stg)); trace := tr |}.

Lemma backup_path_staged service p results tr0 stg sub :
  apart stage p → stg !! service = Some (Dir sub) → sub !! name p = None →
  ∃ tr, backup_path E service (stage ++ [service]) results p (staged_world stg tr0)
        = (Ok (Dict.set results (result_key (service, p)) (outcome E t1 p)),
           staged_world (match copied E t1 p with
                         | Some x => <[service := Dir (<[name p := x]> sub)]> stg
                         | None => stg
                         end) (tr0 ++ tr)).
Proof.
  intros Hp Hsvc Hfresh. unfold backup_path, outcome, copied, result_key. cbn [fst snd].
  assert (∀ L, get (update t1 stage (Some L)) p = get t1 p) as Hget
    by (intros L; by apply get_mount_apart).
  run_step. unfold exists_, is_dir. rewrite <-!app_assoc. cbn [app].
  rewrite !Hget.
  destruct (get t1 p) as [[m d|es]|] eqn:Hsrc.
  - (* a regular file *)
    destruct (io_fault E p) as [e|] eqn:Hio.
    + cbn [fs trace]. rewrite ?Hget, ?Hsrc. cbn [fs trace]. eexists. done.
    + cbn [fs trace]. rewrite ?Hget, ?Hsrc. cbn [fs trace]. rewrite ?Hget, ?Hsrc.
      rewrite !get_mount by done. cbn [get fs trace]. rewrite Hsvc.
      erewrite fs_write_mount; [|done|].
      2:{ unfold fs_write. cbn [get parent removelast]. rewrite Hsvc, Hfresh.
          by rewrite (update_grandchild _ sub). }
      cbn [fs trace]. exists []. by rewrite app_nil_r.
  - (* a directory *)
    destruct (io_fault E p) as [e|] eqn:Hio.
    + cbn [fs trace]. rewrite ?Hget, ?Hsrc. cbn [fs trace]. eexists. done.
    + cbn [fs trace]. rewrite ?Hget, ?Hsrc. cbn [fs trace]. rewrite ?Hget, ?Hsrc.
      rewrite !get_mount by done. cbn [get fs trace]. rewrite Hsvc, Hfresh.
      cbn [andb fs trace].
      erewrite fs_makedirs_mount; [|done|].
      2:{ unfold fs_makedirs. cbn [mkdirs]. rewrite Hsvc. cbn [default from_option id mkdirs].
          rewrite Hfresh. cbn [default from_option id mkdirs]. done. }
      cbn [fs trace]. rewrite get_mount by done. cbn [get].
      rewrite !lookup_insert_eq, graft_empty.
      rewrite update_mount by done.
      erewrite update_grandchild by apply lookup_insert_eq.
      cbn [fs trace]. exists []. rewrite app_nil_r. do 5 f_equal.
      rewrite insert_insert_eq. f_equal. f_equal.
      exact (insert_insert_eq sub (name p) (Dir es) (Dir ∅)).
  - cbn [fs trace]. rewrite ?Hget, ?Hsrc. cbn [fs trace]. eexists. by destruct (io_fault E p).
Qed.

Lemma append_inj_l (s a b : string) : s +:+ a = s +:+ b → a = b.
Proof. induction s as [|c s IH]; [done|]. intros [= Heq]. by apply IH. Qed.

Lemma result_key_name service p p' :
  result_key (service, p) = result_key (service, p') → name p = name p'.
Proof.
  unfold result_key. cbn [fst snd]. intros Heq.
  apply append_inj_l in Heq. by apply (append_inj_l "_") in Heq.
Qed.

Lemma staged_for_begin done stg service :
  staged_for E t1 done stg → stg !! service = None →
  staged_for E t1 done (<[service := Dir ∅]> stg).
Proof.
  intros (Ha & Hb & Hc) Hnew. split; [|split].
  - intros s x. destruct (decide (s = service)) as [->|Hs].
    + rewrite lookup_insert_eq. intros [= <-]. eauto.
    + rewrite lookup_insert_ne by done. apply Ha.
  - intros s sub n x. destruct (decide (s = service)) as [->|Hs].
    + rewrite lookup_insert_eq. intros [= <-]. by rewrite lookup_empty.
    + rewrite lookup_insert_ne by done. apply Hb.
  - intros s p x Hin Hx. destruct (Hc s p x Hin Hx) as (sub & Hs & Hn).
    exists sub. rewrite lookup_insert_ne; [done|]. intros <-. congruence.
Qed.

Lemma staged_for_skip done stg pair :
  staged_for E t1 done stg → copied E t1 pair.2 = None →
  staged_for E t1 (done ++ [pair]) stg.
Proof.
  intros (Ha & Hb & Hc) Hnone. split; [done|split].
  - intros s sub n x Hs Hn. destruct (Hb s sub n x Hs Hn) as (p & Hin & Hp).
    exists p. split; [|done]. apply elem_of_app. by left.
  - intros s p x [Hin|Hin%list_elem_of_singleton]%elem_of_app Hx; [eauto|].
    subst pair. cbn [snd] in Hnone. congruence.
Qed.

Lemma staged_for_copy done stg service p sub x :
  staged_for E t1 done stg → stg !! service = Some (Dir sub) → sub !! name p = None →
  copied E t1 p = Some x →
  staged_for E t1 (done ++ [(service, p)]) (<[service := Dir (<[name p := x]> sub)]> stg).
Proof.
  intros (Ha & Hb & Hc) Hsvc Hfresh Hx. split; [|split].
  - intros s y. destruct (decide (s = service)) as [->|Hs].
    + rewrite lookup_insert_eq. intros [= <-]. eauto.
    + rewrite lookup_insert_ne by done. apply Ha.
  - intros s sub' n y. destruct (decide (s = service)) as [->|Hs].
    + rewrite lookup_insert_eq. intros [= <-].
      destruct (decide (n = name p)) as [->|Hn].
      * rewrite lookup_insert_eq. intros [= <-]. exists p.
        split; [|done]. apply elem_of_app. right. by apply list_elem_of_singleton.
      * rewrite lookup_insert_ne by done. intros Hy.
        destruct (Hb service sub n y Hsvc Hy) as (p' & Hin & Hp').
        exists p'. split; [|done]. apply elem_of_app. by left.
    + rewrite lookup_insert_ne by done. intros Hs' Hy.
      destruct (Hb s sub' n y Hs' Hy) as (p' & Hin & Hp').
      exists p'. split; [|done]. apply elem_of_app. by left.
  - intros s p' y [Hin|Hin%list_elem_of_singleton]%elem_of_app Hy.
    + destruct (Hc s p' y Hin Hy) as (sub' & Hs' & Hn').
      destruct (decide (s = service)) as [->|Hs].
      * rewrite lookup_insert_eq. eexists. split; [done|].
        assert (sub' = sub) as -> by congruence.
        rewrite lookup_insert_ne; [done|]. intros Heq. congruence.
      * rewrite lookup_insert_ne by done. eauto.
    + simplify_eq. rewrite lookup_insert_eq. eexists. split; [done|].
      by rewrite lookup_insert_eq.
Qed.

Lemma backup_paths_staged service paths : ∀ done tr0 stg,
  Forall (apart stage) paths →
  NoDup (result_key <$> (done ++ ((λ p, (service, p)) <$> paths))) →
  staged_for E t1 done stg → is_Some (stg !! service) →
  ∃ tr stg',
    foldM (backup_path E service (stage ++ [service])) (report E t1 done) paths
          (staged_world stg tr0)
    = (Ok (report E t1 (done ++ ((λ p, (service, p)) <$> paths))),
       staged_world stg' (tr0 ++ tr)) ∧
    staged_for E t1 (done ++ ((λ p, (service, p)) <$> paths)) stg'.
Proof.
  induction paths as [|p paths IH]; intros done tr0 stg Hapart Hnodup Hinv Hsvc.
  - rewrite fmap_nil, app_nil_r. cbn [foldM]. exists [], stg.
    by rewrite app_nil_r.
  - apply Forall_cons in Hapart as [Hp Hapart].
    assert (∀ rest, done ++ (service, p) :: rest = (done ++ [(service, p)]) ++ rest) as Hmid
      by (intros rest; by rewrite <-app_assoc).
    rewrite fmap_cons, Hmid in Hnodup. rewrite fmap_cons, Hmid.
    assert (result_key (service, p) ∉ result_key <$> done) as Hkey.
    { rewrite fmap_app in Hnodup. apply NoDup_app in Hnodup as [Hnodup _].
      rewrite fmap_app in Hnodup. apply NoDup_app in Hnodup as (_ & Hdis & _).
      intros Hin. apply (Hdis _ Hin). cbn. left. }
    destruct Hsvc as [x Hsvc]. destruct Hinv as (Ha & Hb & Hc).
    destruct (Ha _ _ Hsvc) as [sub ->].
    assert (sub !! name p = None) as Hfresh.
    { destruct (sub !! name p) as [y|] eqn:Hy; [|done].
      destruct (Hb _ _ _ _ Hsvc Hy) as (p' & Hin & Hname & _).
      destruct Hkey. apply list_elem_of_fmap. exists (service, p'). split; [|done].
      unfold result_key. cbn [fst snd]. by rewrite Hname. }
    destruct (backup_path_staged service p (report E t1 done) tr0 stg sub Hp Hsvc Hfresh)
      as [tr Hstep].
    cbn [foldM]. erewrite bind_ok; [|exact Hstep].
    assert (Dict.set (report E t1 done) (result_key (service, p)) (outcome E t1 p)
            = report E t1 (done ++ [(service, p)])) as ->.
    { rewrite dict_set_fresh.
      - unfold report. by rewrite fmap_app.
      - unfold report. by rewrite <-list_fmap_compose. }
    edestruct (IH (done ++ [(service, p)]) (tr0 ++ tr)) as (tr' & stg' & Hrun & Hinv');
      [done|done| | |].
    3:{ exists (tr ++ tr'), stg'. rewrite app_assoc. split; [exact Hrun|exact Hinv']. }
    + destruct (copied E t1 p) as [y|] eqn:Hy.
      * by apply staged_for_copy.
      * by apply staged_for_skip.
    + destruct (copied E t1 p); [rewrite lookup_insert_eq|]; eauto.
Qed.

Lemma backup_service_staged service paths done tr0 stg :
  Forall (apart stage) paths →
  NoDup (result_key <$> (done ++ ((λ p, (service, p)) <$> paths))) →
  staged_for E t1 done stg →
  ∃ tr stg',
    backup_service E stage (report E t1 done) (service, paths) (staged_world stg tr0)
    = (Ok (report E t1 (done ++ ((λ p, (service, p)) <$> paths))),
       staged_world stg' (tr0 ++ tr)) ∧
    staged_for E t1 (done ++ ((λ p, (service, p)) <$> paths)) stg'.
Proof.
  intros Hapart Hnodup Hinv. unfold backup_service.
  erewrite bind_ok; [|reflexivity]. cbv beta zeta.
  set (stg1 := match stg !! service with Some _ => stg | None => <[service := Dir ∅]> stg end).
  assert (fs_mkdir true true [service] (Dir stg) = Ok (Dir stg1)) as Hmk.
  { unfold fs_mkdir, stg1. cbn [get]. destruct (stg !! service) as [x|] eqn:Hx.
    - destruct Hinv as (Ha & _). by destruct (Ha _ _ Hx) as [sub ->].
    - cbn [mkdirs]. rewrite Hx. done. }
  erewrite bind_ok.
  2:{ unfold mkdir, modify_fs, logger, tell, emit. cbn [fs trace].
      erewrite fs_mkdir_mount by done. reflexivity. }
  destruct (backup_paths_staged service paths done
              (tr0 ++ [Log INFO ("Backing up " +:+ service +:+ " configuration...")])
              stg1 Hapart Hnodup)
    as (tr & stg' & Hrun & Hinv').
  - unfold stg1. destruct (stg !! service) eqn:Hx; [done|]. by apply staged_for_begin.
  - unfold stg1. destruct (stg !! service) eqn:Hx; [by rewrite Hx|].
    by rewrite lookup_insert_eq.
  - unfold with_fs. cbn [fs trace]. rewrite Hrun. eexists _, stg'.
    rewrite <-app_assoc. done.
Qed.

Lemma backup_services_staged items : ∀ done tr0 stg,
  Forall (λ pair, apart stage pair.2) (pairs_of items) →
  NoDup (result_key <$> (done ++ pairs_of items)) →
  staged_for E t1 done stg →
  ∃ tr stg',
    foldM (backup_service E stage) (report E t1 done) items (staged_world stg tr0)
    = (Ok (report E t1 (done ++ pairs_of items)), staged_world stg' (tr0 ++ tr)) ∧
    staged_for E t1 (done ++ pairs_of items) stg'.
Proof.
  induction items as [|[service paths] items IH]; intros done tr0 stg Hapart Hnodup Hinv.
  - cbn [foldM]. unfold pairs_of. cbn. rewrite app_nil_r. exists [], stg.
    by rewrite app_nil_r.
  - assert (pairs_of ((service, paths) :: items)
            = ((λ p, (service, p)) <$> paths) ++ pairs_of items) as Hcons by done.
    rewrite Hcons in *. rewrite app_assoc in *.
    apply Forall_app in Hapart as [Hhere Hrest].
    destruct (backup_service_staged service paths done tr0 stg) as (tr & stg1 & Hrun & Hinv1).
    + apply Forall_forall. intros p Hin.
      apply (proj1 (Forall_forall _ _) Hhere (service, p)).
      apply list_elem_of_fmap. by exists p.
    + rewrite fmap_app in Hnodup. by apply NoDup_app in Hnodup as [? _].
    + done.
    + cbn [foldM]. erewrite bind_ok; [|exact Hrun].
      destruct (IH _ (tr0 ++ tr) stg1 Hrest Hnodup Hinv1) as (tr' & stg' & Hrun' & Hinv').
      exists (tr ++ tr'), stg'. by rewrite app_assoc.
Qed.
End Staging.

Lemma report_ext E t t' pairs :
  (∀ pair, pair ∈ pairs → get t pair.2 = get t' pair.2) →
  report E t pairs = report E t' pairs.
Proof.
  intros Hsame. unfold report. apply list_fmap_ext. intros i pair Hpair.
  apply list_elem_of_lookup_2 in Hpair. unfold outcome, exists_.
  by rewrite (Hsame _ Hpair).
Qed.

Lemma staged_for_ext E t t' pairs stg :
  (∀ pair, pair ∈ pairs → get t pair.2 = get t' pair.2) →
  staged_for E t pairs stg → staged_for E t' pairs stg.
Proof.
  intros Hsame (Ha & Hb & Hc).
  assert (∀ pair, pair ∈ pairs → copied E t pair.2 = copied E t' pair.2) as Hcopied.
  { intros pair Hpair. unfold copied. by rewrite (Hsame _ Hpair). }
  split; [done|split].
  - intros s sub n x Hs Hn. destruct (Hb s sub n x Hs Hn) as (p & Hin & Hname & Hx).
    exists p. split; [done|split; [done|]].
    pose proof (Hcopied (s, p) Hin) as Heq. cbn [snd] in Heq. congruence.
  - intros s p x Hin Hx. apply Hc; [done|].
    pose proof (Hcopied (s, p) Hin) as Heq. cbn [snd] in Heq. congruence.
Qed.

Lemma staging_name_fresh timestamp :
  archive_of Config timestamp ≠ "config_" +:+ timestamp.
Proof. names_differ. Qed.

Lemma backup_configurations_run E self timestamp w es :
  get (fs w) (backup_dir self) = Some (Dir es) →
  es !! ("config_" +:+ timestamp) = None →
  (∀ ds, es !! archive_of Config timestamp ≠ Some (Dir ds)) →
  Forall (λ pair, apart (backup_dir self) pair.2) (config_pairs self) →
  NoDup (result_key <$> config_pairs self) →
  ∃ tr stg,
    backup_configurations E self timestamp w
    = (Ok (report E (fs w) (config_pairs self)),
       {| fs := update (fs w) (backup_dir self)
                  (Some (Dir (<[archive_of Config timestamp :=
                                  File (clock E)
                                       (TarGz [("config_" +:+ timestamp, Dir stg)])]> es)));
          trace := trace w ++ tr |}) ∧
    staged_for E (fs w) (config_pairs self) stg.
Proof.
  intros Hbd Hfresh Harch Hapart Hnodup.
  set (cfg := "config_" +:+ timestamp). set (stage := backup_dir self ++ [cfg]).
  set (t1 := update (fs w) (backup_dir self) (Some (Dir (<[cfg := Dir ∅]> es)))).
  assert (is_Some (get (fs w) (backup_dir self))) as Hsome by eauto.
  assert (get t1 stage = Some (Dir ∅)) as Hstage.
  { unfold t1, stage. rewrite get_mount by done. cbn [get]. by rewrite lookup_insert_eq. }
  assert (∀ pair, pair ∈ config_pairs self → apart stage pair.2) as Hapart'.
  { intros pair Hpair. apply apart_sym, apart_app_r, apart_sym.
    by apply (proj1 (Forall_forall _ _) Hapart). }
  assert (∀ pair, pair ∈ config_pairs self → get t1 pair.2 = get (fs w) pair.2) as Hsame.
  { intros pair Hpair. unfold t1. apply get_update_apart.
    by apply (proj1 (Forall_forall _ _) Hapart). }
  destruct (backup_services_staged E t1 stage (ltac:(eauto)) (config_paths self) []
              (trace w ++ [Log INFO "Starting configuration backup..."]) ∅)
    as (tr & stg & Hrun & Hinv).
  { by apply Forall_forall. }
  { done. }
  { split; [|split].
    - intros s x. by rewrite lookup_empty.
    - intros s sub n x. by rewrite lookup_empty.
    - intros s p x Hin. by apply elem_of_nil in Hin. }
  rewrite (update_id _ _ _ Hstage) in Hrun.
  exists ([Log INFO "Starting configuration backup..."] ++ tr
          ++ [Open (backup_dir self ++ [archive_of Config timestamp]);
              Log INFO ("Configuration backup completed: "
                        +:+ str_path (backup_dir self ++ [archive_of Config timestamp]))]),
         stg.
  split; [|by apply (staged_for_ext E t1)].
  unfold backup_configurations.
  erewrite bind_ok; [|reflexivity]. cbv beta zeta.
  erewrite bind_ok.
  2:{ unfold mkdir, modify_fs, logger, tell, emit. cbn [fs trace].
      erewrite (fs_mkdir_at _ _ _ Hbd).
      2:{ unfold fs_mkdir. cbn [get mkdirs]. rewrite Hfresh. done. }
      reflexivity. }
  unfold with_fs. cbn [fs trace]. fold cfg stage t1.
  erewrite bind_ok; [|exact Hrun].
  assert (update t1 stage (Some (Dir stg))
          = update (fs w) (backup_dir self) (Some (Dir (<[cfg := Dir stg]> es)))) as ->.
  { unfold t1, stage. rewrite update_mount by done. cbn [update]. do 3 f_equal.
    exact (insert_insert_eq es cfg (Dir stg) (Dir ∅)). }
  change ("config_backup_" +:+ timestamp +:+ ".tar.gz") with (archive_of Config timestamp).
  set (arch := archive_of Config timestamp).
  assert (arch ≠ cfg) as Hne by apply staging_name_fresh.
  run_step.
  erewrite fs_write_mount; [|done|].
  2:{ unfold fs_write. cbn [get parent removelast]. rewrite lookup_insert_ne by done.
      destruct (es !! arch) as [[m d|ds]|] eqn:Hold; [done| |done]. by destruct (Harch ds). }
  cbn [fs trace update]. unfold stage. rewrite get_mount by done. cbn [get].
  rewrite lookup_partial_alter_ne, lookup_insert_eq by done. cbn [fs trace].
  erewrite fs_write_mount; [|done|].
  2:{ unfold fs_write. cbn [get parent removelast]. rewrite lookup_partial_alter_eq. done. }
  cbn [fs trace update].
  erewrite fs_rmtree_mount; [|done|].
  2:{ unfold fs_rmtree. cbn [get].
      rewrite !lookup_partial_alter_ne, lookup_insert_eq by done. done. }
  cbn [fs trace update]. rewrite app_nil_l.
  rewrite (report_ext E t1 (fs w)) by done.
  f_equal. f_equal; [|by rewrite <-!app_assoc].
  do 3 f_equal. apply map_eq. intros k.
  destruct (decide (k = cfg)) as [->|Hk].
  - rewrite lookup_partial_alter_eq, lookup_insert_ne by done. done.
  - rewrite lookup_partial_alter_ne by done.
    destruct (decide (k = arch)) as [->|Hk'].
    + by rewrite !lookup_partial_alter_eq, lookup_insert_eq.
    + rewrite !lookup_partial_alter_ne by done. by rewrite !lookup_insert_ne.
Qed.

Lemma fmap_key_inj {A B} (f : A → B) (l : list A) x y :
  NoDup (f <$> l) → x ∈ l → y ∈ l → f x = f y → x = y.
Proof.
  induction l as [|a l IH]; intros Hnodup Hx Hy Heq; [by apply elem_of_nil in Hx|].
  rewrite fmap_cons in Hnodup. apply NoDup_cons in Hnodup as [Ha Hnodup].
  apply elem_of_cons in Hx as [->|Hx]; apply elem_of_cons in Hy as [->|Hy]; [done| | |eauto].
  - destruct Ha. rewrite Heq. apply list_elem_of_fmap. eauto.
  - destruct Ha. rewrite <-Heq. apply list_elem_of_fmap. eauto.
Qed.

Lemma report_get E t pairs pair :
  NoDup (result_key <$> pairs) → pair ∈ pairs →
  Dict.get (report E t pairs) (result_key pair) = Some (outcome E t pair.2).
Proof.
  induction pairs as [|a pairs IH]; intros Hnodup Hin; [by apply elem_of_nil in Hin|].
  unfold report. rewrite fmap_cons. cbn [Dict.get].
  destruct (decide (result_key a = result_key pair)) as [Heq|Hne].
  - assert (a = pair) as -> by (eapply fmap_key_inj; eauto; by left). done.
  - apply elem_of_cons in Hin as [->|Hin]; [done|].
    rewrite fmap_cons in Hnodup. apply NoDup_cons in Hnodup as [_ Hnodup]. by apply IH.
Qed.

Lemma staged_for_get E t pairs stg service p :
  NoDup (result_key <$> pairs) → staged_for E t pairs stg → (service, p) ∈ pairs →
  get (Dir stg) [service; name p] = copied E t p.
Proof.
  intros Hnodup (Ha & Hb & Hc) Hin. cbn [get].
  destruct (copied E t p) as [x|] eqn:Hx.
  - destruct (Hc _ _ _ Hin Hx) as (sub & -> & ->). done.
  - destruct (stg !! service) as [y|] eqn:Hy; [|done].
    destruct (Ha _ _ Hy) as [sub ->].
    destruct (sub !! name p) as [z|] eqn:Hz; [|done].
    destruct (Hb _ _ _ _ Hy Hz) as (p' & Hin' & Hname & Hz').
    assert ((service, p') = (service, p)) as Heq.
    { eapply (fmap_key_inj result_key); eauto. unfold result_key. cbn [fst snd].
      by rewrite Hname. }
    simplify_eq; congruence.
Qed.

(** ** The configuration restore *)

Lemma restore_configuration_prelude E self timestamp service w staged :
  config_archive_ready self timestamp staged (fs w) →
  ∃ es, get (fs w) (backup_dir self) = Some (Dir es) ∧
  let temp_dir := backup_dir self ++ ["temp_restore_" +:+ timestamp] in
  let config_dir := temp_dir ++ ["config_" +:+ timestamp] in
  let w1 := {| fs := update (fs w) (backup_dir self)
                       (Some (Dir (<["temp_restore_" +:+ timestamp :=
                                       Dir {[ "config_" +:+ timestamp := Dir staged ]}]> es)));
               trace := trace w ++ [Log INFO ("Restoring configuration from backup: " +:+ timestamp)] |} in
  restore_configuration E self timestamp service w =
    try_ (early ←
            match truthy service with
            | Some service =>
                let service_dir := config_dir ++ [service] in
                ex ← path_exists service_dir;
                if (ex : bool) then
                  foldM (restore_path_of_service E service service_dir) tt
                        (default [] (Dict.get (config_paths self) service));;
                  mret None
                else
                  logger ERROR ("Service " +:+ service +:+ " not found in backup");;
                  mret (Some false)
            | None =>
                foldM (λ _ service_name,
                         let service_dir := config_dir ++ [service_name] in
                         ex ← path_exists service_dir;
                         if (ex : bool) then
                           foldM (restore_path E service_name service_dir) tt
                                 (default [] (Dict.get (config_paths self) service_name))
                         else mret tt)
                      tt (Dict.keys (config_paths self));;
                mret None
            end;
          match early with
          | Some b => mret b
          | None =>
              rmtree temp_dir;;
              logger INFO "Configuration restore completed successfully";;
              mret true
          end)
         (λ e, logger ERROR ("Configuration restore failed: " +:+ str_exn e);; mret false) w1.
Proof.
  intros (es & m & Hbd & Harc & Htmp). exists es. split; [done|].
  intros temp_dir config_dir w1.
  unfold restore_configuration. run_step.
  rewrite (exists_at _ _ _ Hbd). unfold exists_ at 1. cbn [get].
  change ("config_backup_" +:+ timestamp +:+ ".tar.gz") with (archive_of Config timestamp).
  rewrite Harc. cbn [negb fs trace].
  erewrite extraction_mkdir by eassumption. cbn [fs trace].
  erewrite extraction_archive by eassumption. cbn [foldM]. run_step.
  erewrite extraction_makedirs by eassumption. cbn [fs trace].
  erewrite extraction_member by eassumption. cbn [fs trace].
  subst w1 config_dir temp_dir. run_step. reflexivity.
Qed.

Section Skipping.
Variables (E : environment) (self : TelecomBackup).
Variables (config_dir : path) (staged : gmap string node).

(** A path whose staged copy is absent is passed over: nothing changes,
    nothing is logged. *)
Lemma restore_path_of_service_absent service p w :
  get (fs w) config_dir = Some (Dir staged) →
  get (Dir staged) [service; name p] = None →
  restore_path_of_service E service (config_dir ++ [service]) tt p w = (Ok tt, w).
Proof.
  intros Hdir Habs. unfold restore_path_of_service. run_step.
  rewrite <-app_assoc. cbn [app]. rewrite (exists_at _ _ _ Hdir).
  unfold exists_. rewrite Habs. done.
Qed.

Lemma restore_path_absent service p w :
  get (fs w) config_dir = Some (Dir staged) →
  get (Dir staged) [service; name p] = None →
  restore_path E service (config_dir ++ [service]) tt p w = (Ok tt, w).
Proof.
  intros Hdir Habs. unfold restore_path. run_step.
  rewrite <-app_assoc. cbn [app]. rewrite (exists_at _ _ _ Hdir).
  unfold exists_. rewrite Habs. done.
Qed.

Lemma restore_paths_of_service_absent service paths w :
  get (fs w) config_dir = Some (Dir staged) →
  (∀ p, p ∈ paths → get (Dir staged) [service; name p] = None) →
  foldM (restore_path_of_service E service (config_dir ++ [service])) tt paths w = (Ok tt, w).
Proof.
  intros Hdir. induction paths as [|p paths IH]; intros Habs; [done|].
  cbn [foldM]. run_step. rewrite restore_path_of_service_absent; [|done|].
  - apply IH. intros q Hq. apply Habs. by right.
  - apply Habs. by left.
Qed.

Lemma restore_paths_absent service paths w :
  get (fs w) config_dir = Some (Dir staged) →
  (∀ p, p ∈ paths → get (Dir staged) [service; name p] = None) →
  foldM (restore_path E service (config_dir ++ [service])) tt paths w = (Ok tt, w).
Proof.
  intros Hdir. induction paths as [|p paths IH]; intros Habs; [done|].
  cbn [foldM]. run_step. rewrite restore_path_absent; [|done|].
  - apply IH. intros q Hq. apply Habs. by right.
  - apply Habs. by left.
Qed.

Lemma restore_services_absent services w :
  get (fs w) config_dir = Some (Dir staged) →
  (∀ service p, service ∈ services → p ∈ paths_of self service →
                get (Dir staged) [service; name p] = None) →
  foldM (λ _ service_name,
           let service_dir := config_dir ++ [service_name] in
           ex ← path_exists service_dir;
           if (ex : bool) then
             foldM (restore_path E service_name service_dir) tt
                   (default [] (Dict.get (config_paths self) service_name))
           else mret tt)
        tt services w = (Ok tt, w).
Proof.
  intros Hdir Habs. induction services as [|s services IH]; [done|].
  assert (∀ service p, service ∈ services → p ∈ paths_of self service →
                       get (Dir staged) [service; name p] = None) as Habs'
    by (intros ????; apply Habs; [by right|done]).
  cbn [foldM]. run_step.
  destruct (exists_ (fs w) (config_dir ++ [s])).
  - rewrite restore_paths_absent; [by apply IH|done|].
    intros p Hp. apply Habs; [by left|done].
  - by apply IH.
Qed.
End Skipping.

(** With every registered path absent from the staged tree, the restore
    succeeds and the file system is as before. *)
Lemma restore_configuration_all_absent E self timestamp service w staged :
  config_archive_ready self timestamp staged (fs w) →
  (∀ s, truthy service = Some s → is_Some (staged !! s)) →
  (∀ s p, s ∈ services_to_restore self service → p ∈ paths_of self s →
          get (Dir staged) [s; name p] = None) →
  restore_configuration E self timestamp service w =
    (Ok true,
     {| fs := fs w;
        trace := trace w ++
          [ Log INFO ("Restoring configuration from backup: " +:+ timestamp);
            Log INFO "Configuration restore completed successfully" ] |}).
Proof.
  intros Hready Hsvc Habs.
  destruct (restore_configuration_prelude E self timestamp service w staged Hready)
    as (es & Hbd & Hrun).
  cbv zeta in Hrun. rewrite Hrun. clear Hrun.
  destruct Hready as (es' & m & Hbd' & Harc & Htmp). simplify_eq.
  assert (is_Some (get (fs w) (backup_dir self))) as Hsome by eauto.
  set (w1 := {| fs := _; trace := _ |}).
  assert (get (fs w1) ((backup_dir self ++ ["temp_restore_" +:+ timestamp])
                         ++ ["config_" +:+ timestamp]) = Some (Dir staged)) as Hdir
    by by apply staged_dumps_at.
  unfold try_ at 1. unfold mbind at 1, M_bind at 1.
  unfold services_to_restore in Habs.
  destruct (truthy service) as [s|] eqn:Hs.
  - destruct (Hsvc s eq_refl) as [n Hn].
    run_step. rewrite (exists_at _ _ _ Hdir). unfold exists_ at 1. cbn [get]. rewrite Hn.
    erewrite restore_paths_of_service_absent;
      [|exact Hdir|by intros; apply Habs; [left|]].
    subst w1. cbn [fs trace].
    erewrite extraction_rmtree by eassumption. cbn [fs trace].
    by rewrite <-app_assoc.
  - unfold mbind at 1, M_bind at 1.
    erewrite restore_services_absent; [|exact Hdir|done].
    run_step. subst w1. cbn [fs trace].
    erewrite extraction_rmtree by eassumption. cbn [fs trace].
    by rewrite <-app_assoc.
Qed.

(** ** Restoring one service over a live directory *)

Lemma get_update_removed t p : p ≠ [] → get (update t p None) p = None.
Proof.
  revert t. induction p as [|c p IH]; intros t Hp; [done|].
  destruct t as [m d|es]; [done|]. destruct p as [|c' r].
  - cbn [update get]. by rewrite lookup_partial_alter_eq.
  - cbn [update]. cbn [get]. rewrite lookup_alter_eq.
    destruct (es !! c) as [t'|]; [|done]. cbn [fmap option_fmap option_map].
    by apply IH.
Qed.

Lemma update_cons2 es c c' r v :
  update (Dir es) (c :: c' :: r) v = Dir (alter (λ t', update t' (c' :: r) v) c es).
Proof. done. Qed.

Lemma mkdirs_cons es c q :
  mkdirs (Dir es) (c :: q)
  = match mkdirs (default (Dir ∅) (es !! c)) q with
    | Some t' => Some (Dir (<[c:=t']> es))
    | None => None
    end.
Proof. done. Qed.

(** [os.makedirs] on a directory that was just removed puts an empty one
    in its place. *)
Lemma mkdirs_after_remove t p x :
  get t p = Some (Dir x) → p ≠ [] →
  mkdirs (update t p None) p = Some (update t p (Some (Dir ∅))).
Proof.
  revert t. induction p as [|c p IH]; intros t Hget Hp; [done|].
  destruct t as [m d|es]; [done|]. cbn [get] in Hget.
  destruct (es !! c) as [t'|] eqn:Hc; [|done]. destruct p as [|c' r].
  - cbn [update mkdirs]. rewrite lookup_partial_alter_eq. cbn [default from_option id mkdirs].
    do 2 f_equal. exact (insert_delete_eq es c (Dir ∅)).
  - rewrite !update_cons2, mkdirs_cons, lookup_alter_eq, Hc.
    cbn [fmap option_fmap option_map default from_option id].
    rewrite (IH t') by done. do 2 f_equal. apply map_eq. intros k.
    destruct (decide (k = c)) as [->|Hk].
    + by rewrite lookup_insert_eq, lookup_alter_eq, Hc.
    + by rewrite lookup_insert_ne, !lookup_alter_ne.
Qed.

Lemma apart_not_root (p q : path) : apart p q → p ≠ [].
Proof. intros [Hp _] ->. apply Hp, prefix_nil. Qed.

(** The per-service restore of a staged directory over a live directory:
    the live one is removed and the staged one copied in its place. *)
Lemma restore_path_of_service_dir E service service_dir p w live changed :
  get (fs w) (service_dir ++ [name p]) = Some (Dir live) →
  get (fs w) p = Some (Dir changed) →
  apart p (service_dir ++ [name p]) →
  io_fault E (service_dir ++ [name p]) = None →
  restore_path_of_service E service service_dir tt p w
  = (Ok tt,
     {| fs := update (fs w) p (Some (Dir live));
        trace := trace w ++ [Log INFO ("Restoring " +:+ service +:+ " config to "
                                       +:+ str_path p)] |}).
Proof.
  intros Hsrc Hlive Hapart Hio.
  assert (p ≠ []) as Hp by by eapply apart_not_root.
  unfold restore_path_of_service. run_step. unfold exists_, is_dir.
  rewrite Hsrc. cbn [fs trace]. rewrite Hlive. cbn [fs trace].
  unfold fs_rmtree. rewrite Hlive. cbn [fs trace]. rewrite Hio. cbn [fs trace].
  rewrite get_update_apart, Hsrc by done.
  rewrite get_update_removed by done. cbn [andb fs trace].
  unfold fs_makedirs. rewrite (mkdirs_after_remove _ _ changed) by done. cbn [fs trace].
  rewrite get_update_at by eauto. rewrite graft_empty.
  rewrite update_update by by left. done.
Qed.
(** Restoring one service whose single registered path is staged as a
    directory, over a live directory: the restore succeeds and the live
    directory is the staged one. *)
Lemma restore_configuration_service_dir E self timestamp service p w staged sub live changed :
  config_archive_ready self timestamp staged (fs w) →
  service ≠ "" →
  Dict.get (config_paths self) service = Some [p] →
  staged !! service = Some (Dir sub) → sub !! name p = Some (Dir live) →
  get (fs w) p = Some (Dir changed) →
  apart (backup_dir self) p →
  io_fault E (backup_dir self
              ++ ["temp_restore_" +:+ timestamp; "config_" +:+ timestamp; service; name p])
    = None →
  ∃ w', restore_configuration E self timestamp (Some service) w = (Ok true, w') ∧
        get (fs w') p = Some (Dir live).
Proof.
  intros Hready Hservice Hpaths Hsvc Hsub Hlive Hapart Hio.
  destruct (restore_configuration_prelude E self timestamp (Some service) w staged Hready)
    as (es & Hbd & Hrun).
  cbv zeta in Hrun. rewrite Hrun. clear Hrun.
  destruct Hready as (es' & m & Hbd' & Harc & Htmp). simplify_eq.
  assert (is_Some (get (fs w) (backup_dir self))) as Hsome by eauto.
  set (w1 := {| fs := _; trace := _ |}).
  set (temp_dir := backup_dir self ++ ["temp_restore_" +:+ timestamp]).
  assert (get (fs w1) (temp_dir ++ ["config_" +:+ timestamp]) = Some (Dir staged)) as Hdir
    by by apply staged_dumps_at.
  assert (∀ r, apart p (backup_dir self ++ r)) as Hp
    by (intros r; by apply apart_app_r, apart_sym).
  assert (get (fs w1) p = Some (Dir changed)) as Hlive1.
  { subst w1. cbn [fs]. by rewrite get_mount_apart. }
  assert (truthy (Some service) = Some service) as -> by by destruct service.
  unfold try_ at 1. run_step. rewrite (exists_at _ _ _ Hdir). unfold exists_ at 1.
  cbn [get]. rewrite Hsvc, Hpaths. cbn [default from_option id foldM]. run_step.
  erewrite (restore_path_of_service_dir E service _ p w1 live changed); [| |done| |].
  2:{ rewrite <-app_assoc. cbn [app]. rewrite (get_at _ _ _ Hdir). cbn [get].
      by rewrite Hsvc, Hsub. }
  2:{ unfold temp_dir. rewrite <-!app_assoc. apply Hp. }
  2:{ unfold temp_dir. rewrite <-!app_assoc. exact Hio. }
  cbn [fs trace]. unfold fs_rmtree.
  rewrite (get_update_apart _ p temp_dir) by apply Hp.
  subst w1. cbn [fs trace]. unfold temp_dir at 1. rewrite get_mount by done. cbn [get].
  rewrite lookup_insert_eq. cbn [fs trace]. eexists. split; [done|]. cbn [fs].
  rewrite get_update_apart by apply apart_sym, Hp.
  apply get_update_at. rewrite get_mount_apart by done. eauto.
Qed.
Lemma pairs_of_get items service paths p :
  Dict.get items service = Some paths → p ∈ paths → (service, p) ∈ pairs_of items.
Proof.
  induction items as [|[s ps] items IH]; intros Hget Hp; [done|].
  assert (pairs_of ((s, ps) :: items) = ((λ p, (s, p)) <$> ps) ++ pairs_of items) as ->
    by done.
  apply elem_of_app. cbn [Dict.get] in Hget. destruct (decide (s = service)) as [->|Hs].
  - left. simplify_eq. apply list_elem_of_fmap. eauto.
  - right. by apply IH.
Qed.

Lemma restore_name_fresh timestamp :
  "temp_restore_" +:+ timestamp ≠ archive_of Config timestamp.
Proof. names_differ. Qed.
(** ** The retention sweep *)

Lemma metadata_of_no_archive n : fnmatch (metadata_of n) archive_glob = false.
Proof.
  destruct (fnmatch _ _) eqn:Hm; [|done].
  apply archive_glob_suffix in Hm as [v Hv]. by apply replace_targz_no_suffix in Hv.
Qed.

Section Sweep.
Variables (E : environment) (t0 : node) (bd : path) (cutoff : Z).
Hypothesis Hbd : is_Some (get t0 bd).

(** One turn of the loop, on an archive that is a regular file. *)
Lemma cleanup_one_file cur n m d count tr :
  cur !! n = Some (File m d) →
  (∀ ds, cur !! metadata_of n ≠ Some (Dir ds)) →
  metadata_of n ≠ n →
  ∃ tr',
    cleanup_one E cutoff count (bd ++ [n])
      {| fs := update t0 bd (Some (Dir cur)); trace := tr |}
    = (Ok (if m <? cutoff then S count else count),
       {| fs := update t0 bd
                  (Some (Dir (if m <? cutoff
                              then delete (metadata_of n) (delete n cur) else cur)));
          trace := tr ++ tr' |}).
Proof.
  intros Hn Hmeta Hne. unfold cleanup_one. run_step.
  rewrite get_mount by done. cbn [get]. rewrite Hn.
  destruct (m <? cutoff); [|exists []; by rewrite app_nil_r].
  cbn [fs trace].
  erewrite (fs_unlink_mount _ _ Hbd _ _ _ (Dir (delete n cur))).
  2:{ unfold fs_unlink. cbn [get]. by rewrite Hn. }
  cbn [fs trace]. rewrite parent_snoc, name_snoc, exists_mount by done.
  unfold exists_. cbn [get]. rewrite lookup_delete_ne by done.
  destruct (cur !! metadata_of n) as [[m' d'|ds]|] eqn:Hold; cbv beta iota; cbn [fs trace].
  - erewrite (fs_unlink_mount _ _ Hbd _ _ _ (Dir (delete (metadata_of n) (delete n cur)))).
    2:{ unfold fs_unlink. cbn [get]. by rewrite lookup_delete_ne, Hold. }
    cbn [fs trace]. eexists. done.
  - by destruct (Hmeta ds).
  - rewrite (delete_id (delete n cur)) by by rewrite lookup_delete_ne.
    eexists. done.
Qed.

(** The loop, on archives that are regular files. *)
Lemma cleanup_loop names : ∀ cur count tr,
  NoDup names →
  (∀ n, n ∈ names → fnmatch n archive_glob = true ∧ ∃ m d, cur !! n = Some (File m d)) →
  (∀ n ds, n ∈ names → cur !! metadata_of n ≠ Some (Dir ds)) →
  ∃ tr',
    foldM (cleanup_one E cutoff) count ((λ n, bd ++ [n]) <$> names)
      {| fs := update t0 bd (Some (Dir cur)); trace := tr |}
    = (Ok (count + swept cutoff cur names)%nat,
       {| fs := update t0 bd (Some (Dir (sweep cutoff cur names))); trace := tr ++ tr' |}).
Proof.
  induction names as [|n names IH]; intros cur count tr Hnodup Hfiles Hmeta.
  - exists []. cbn. by rewrite Nat.add_0_r, app_nil_r.
  - apply NoDup_cons in Hnodup as [Hn Hnodup].
    destruct (Hfiles n) as (Hmatch & m & d & Hcur); [by left|].
    assert (metadata_of n ≠ n) as Hne.
    { intros Heq. pose proof (metadata_of_no_archive n) as Hno. rewrite Heq in Hno. congruence. }
    destruct (cleanup_one_file cur n m d count tr Hcur) as [tr1 Hone];
      [intros ds; apply Hmeta; by left|done|].
    cbn [fmap list_fmap foldM]. erewrite bind_ok; [|exact Hone].
    cbn [sweep swept aged]. rewrite Hcur. cbn [aged].
    set (cur1 := if m <? cutoff then _ else cur).
    assert (∀ k, k ∈ names → cur1 !! k = cur !! k) as Hsame.
    { intros k Hk. subst cur1. destruct (m <? cutoff); [|done].
      destruct (Hfiles k) as (Hkm & _); [by right|].
      rewrite !lookup_delete_ne; [done|congruence|].
      intros Heq. pose proof (metadata_of_no_archive n) as Hno. rewrite Heq in Hno. congruence. }
    assert (∀ k, is_Some (cur1 !! k) → cur1 !! k = cur !! k) as Hsub.
    { intros k [x Hx]. subst cur1. destruct (m <? cutoff); [|done].
      apply lookup_delete_Some in Hx as [? Hx]. apply lookup_delete_Some in Hx as [? Hx].
      by rewrite !lookup_delete_ne. }
    destruct (IH cur1 (if m <? cutoff then S count else count) (tr ++ tr1) Hnodup)
      as [tr2 Hrest].
    + intros k Hk. rewrite (Hsame k Hk). apply Hfiles. by right.
    + intros k ds Hk Hdir. apply (Hmeta k ds); [by right|]. rewrite <-Hsub; eauto.
    + exists (tr1 ++ tr2). rewrite Hrest, app_assoc. subst cur1.
      destruct (m <? cutoff); [|done]. do 2 f_equal. lia.
Qed.
End Sweep.

(** The entries [sweep] leaves alone, and those it removes. *)
Section SweepLookup.
Variable cutoff : Z.

Lemma sweep_step_same (cur : gmap string node) n j :
  fnmatch j archive_glob = true → j ≠ n →
  (if aged cutoff (cur !! n) then delete (metadata_of n) (delete n cur) else cur) !! j
    = cur !! j.
Proof.
  intros Hj Hne. destruct (aged cutoff (cur !! n)); [|done].
  rewrite !lookup_delete_ne; [done|congruence|].
  intros Heq. pose proof (metadata_of_no_archive n) as Hno. rewrite Heq in Hno. congruence.
Qed.

Lemma sweep_subseteq names : ∀ cur k x, sweep cutoff cur names !! k = Some x → cur !! k = Some x.
Proof.
  induction names as [|n names IH]; intros cur k x; [done|]. cbn [sweep].
  intros Hk%IH. destruct (aged cutoff (cur !! n)); [|done].
  apply lookup_delete_Some in Hk as [? Hk]. by apply lookup_delete_Some in Hk as [? Hk].
Qed.

Lemma sweep_removed names : ∀ cur n k,
  NoDup names →
  (∀ j, j ∈ names → fnmatch j archive_glob = true) →
  n ∈ names → aged cutoff (cur !! n) = true → k = n ∨ k = metadata_of n →
  sweep cutoff cur names !! k = None.
Proof.
  induction names as [|j names IH]; intros cur n k Hnodup Hmatch Hn Hold Hk.
  - by apply elem_of_nil in Hn.
  - apply NoDup_cons in Hnodup as [Hj Hnodup]. cbn [sweep].
    apply elem_of_cons in Hn as [->|Hn].
    + rewrite Hold. destruct (sweep cutoff _ names !! k) as [x|] eqn:Hx; [|done].
      apply sweep_subseteq in Hx. destruct Hk as [->| ->].
      * destruct (decide (metadata_of j = j)) as [Heq|?].
        -- rewrite Heq in Hx. by rewrite lookup_delete_eq in Hx.
        -- by rewrite lookup_delete_ne, lookup_delete_eq in Hx.
      * by rewrite lookup_delete_eq in Hx.
    + eapply IH; eauto; [intros; apply Hmatch; by right|].
      rewrite sweep_step_same; [done|apply Hmatch; by right|congruence].
Qed.

Lemma sweep_kept names : ∀ cur k,
  NoDup names →
  (∀ j, j ∈ names → fnmatch j archive_glob = true) →
  (∀ n, n ∈ names → aged cutoff (cur !! n) = true → k ≠ n ∧ k ≠ metadata_of n) →
  sweep cutoff cur names !! k = cur !! k.
Proof.
  induction names as [|j names IH]; intros cur k Hnodup Hmatch Hk; [done|].
  apply NoDup_cons in Hnodup as [Hj Hnodup]. cbn [sweep]. rewrite IH; [|done|..].
  - destruct (aged cutoff (cur !! j)) eqn:Hold; [|done].
    destruct (Hk j) as [? ?]; [by left|done|]. by rewrite !lookup_delete_ne.
  - intros; apply Hmatch; by right.
  - intros n Hn Hold. apply Hk; [by right|].
    rewrite sweep_step_same in Hold; [done|apply Hmatch; by right|congruence].
Qed.

(** The count is that of the old archives among the entries. *)
Lemma swept_count names : ∀ cur,
  NoDup names →
  (∀ j, j ∈ names → fnmatch j archive_glob = true) →
  swept cutoff cur names = length (filter (λ n, aged cutoff (cur !! n) = true) names).
Proof.
  induction names as [|j names IH]; intros cur Hnodup Hmatch; [done|].
  apply NoDup_cons in Hnodup as [Hj Hnodup]. cbn [swept].
  assert (∀ cur' : gmap string node, (∀ n, n ∈ names → cur' !! n = cur !! n) →
            filter (λ n, aged cutoff (cur' !! n) = true) names
            = filter (λ n, aged cutoff (cur !! n) = true) names) as Hfilter.
  { intros cur' Hsame. clear -Hsame. induction names as [|n names IHn]; [done|].
    rewrite !filter_cons, Hsame by by left. rewrite IHn; [done|].
    intros ??; apply Hsame; by right. }
  rewrite filter_cons. destruct (aged cutoff (cur !! j)) eqn:Hold.
  - rewrite decide_True by done. cbn [length]. f_equal.
    rewrite IH; [|done|intros; apply Hmatch; by right]. f_equal. apply Hfilter.
    intros n Hn. rewrite !lookup_delete_ne; [done|congruence|].
    intros Heq. pose proof (metadata_of_no_archive j) as Hno. rewrite Heq in Hno.
    rewrite Hmatch in Hno; [done|by right].
  - rewrite decide_False by done. apply IH; [done|intros; apply Hmatch; by right].
Qed.
End SweepLookup.

Lemma count_old_archives cutoff (es : gmap string node) (L : list (string * node)) :
  (∀ n t, (n, t) ∈ L → es !! n = Some t) →
  length (filter (λ n, aged cutoff (es !! n) = true)
            (filter (λ n, Is_true (fnmatch n archive_glob)) L.*1))
  = length (filter (λ entry, is_old_archive cutoff entry = true) L).
Proof.
  induction L as [|[n t] L IH]; intros HL; [done|].
  assert (es !! n = Some t) as Hn by (apply HL; by left).
  assert (∀ n' t', (n', t') ∈ L → es !! n' = Some t') as HL'
    by (intros ???; apply HL; by right).
  specialize (IH HL'). cbn [fmap list_fmap fst].
  assert (is_old_archive cutoff (n, t)
          = fnmatch n archive_glob && aged cutoff (es !! n)) as Hold
    by by rewrite Hn.
  destruct (fnmatch n archive_glob) eqn:Hm.
  - rewrite (filter_cons_True (λ n, Is_true (fnmatch n archive_glob)))
      by by rewrite Hm.
    destruct (aged cutoff (es !! n)) eqn:Hage.
    + rewrite (filter_cons_True (λ n, aged cutoff (es !! n) = true)) by done.
      rewrite (filter_cons_True (λ e, is_old_archive cutoff e = true)) by done.
      cbn [length]. by rewrite IH.
    + rewrite (filter_cons_False (λ n, aged cutoff (es !! n) = true)) by by rewrite Hage.
      rewrite (filter_cons_False (λ e, is_old_archive cutoff e = true)) by (rewrite Hold; cbn; discriminate).
      done.
  - rewrite (filter_cons_False (λ n, Is_true (fnmatch n archive_glob)))
      by (rewrite Hm; exact id).
    rewrite (filter_cons_False (λ e, is_old_archive cutoff e = true)) by (rewrite Hold; cbn; discriminate).
    done.
Qed.

(** The sweep never touches a metadata file: it unlinks entries that match
    the archive pattern and names derived from them, and a metadata name
    is neither. *)
Lemma cleanup_keeps_metadata E self keep_days w timestamp :
  get (fs (cleanup_old_backups E self keep_days w).2)
      (backup_dir self ++ [metadata_name timestamp])
  = get (fs w) (backup_dir self ++ [metadata_name timestamp]).
Proof.
  unfold cleanup_old_backups.
  erewrite bind_ok; [|reflexivity]. cbv beta zeta.
  erewrite bind_ok; [|reflexivity]. cbv beta.
  destruct (get (fs w) (backup_dir self)) as [[m d|es]|] eqn:Hbd.
  1,3: unfold children, emit; cbn [fs]; rewrite Hbd; by cbn.
  set (w1 := emit w _). set (files := _ <$> _).
  set (P := root_keeps (backup_dir self) es is_metadata_name).
  assert (inv P (λ _, True) (trace w1) w1) as Hinv.
  { split; [by exists es|]. exists []. by rewrite app_nil_r. }
  assert (preserves (inv P (λ _, True) (trace w1))
            (removed_count ← foldM (cleanup_one E (clock E - keep_days * day)) 0%nat files;
             logger INFO ("Cleanup completed. Removed " +:+ pretty removed_count
                          +:+ " old backups.");;
             mret removed_count)) as Hkeeps.
  { assert (∀ lvl msg, (λ _ : event, True) (Log lvl msg)) as Hlog by done.
    apply preserves_bind; [|intros ?; repeat keeps_step].
    apply preserves_foldM. intros count file Hfile.
    subst files. apply list_elem_of_fmap in Hfile as (n & -> & Hn).
    apply list_elem_of_filter in Hn as [Hmatch _]. apply Is_true_true in Hmatch.
    assert (safe P (backup_dir self ++ [n])) as Hsafe1.
    { apply safe_root_keeps. intros [ts ->].
      change (fnmatch (metadata_name ts) archive_glob = true) in Hmatch.
      by rewrite metadata_name_no_archive in Hmatch. }
    assert (safe P (backup_dir self ++ [metadata_of n])) as Hsafe2.
    { apply safe_root_keeps. intros [ts Hts]. by apply metadata_of_ne_metadata_name in Hts. }
    unfold cleanup_one. rewrite parent_snoc, name_snoc. repeat keeps_step. }
  destruct (Hkeeps w1 Hinv) as [(es' & Hbd' & Hkeep) _].
  rewrite (get_at _ _ _ Hbd'), (get_at _ _ _ Hbd). cbn [get].
  rewrite Hkeep; [done|by eexists].
Qed.


(** A directory that holds only regular files holds no directory. *)
Lemma no_directory_among (es : gmap string node) :
  map_Forall (λ _ t, match t with File _ _ => True | Dir _ => False end) es →
  ∀ n ds, es !! n ≠ Some (Dir ds).
Proof. intros Hall n ds Hn. exact (Hall n _ Hn). Qed.
(** ** More on the retention sweep *)

Lemma archive_names_spec es n :
  n ∈ archive_names es ↔ fnmatch n archive_glob = true ∧ is_Some (es !! n).
Proof.
  unfold archive_names. rewrite list_elem_of_filter, Is_true_true. split.
  - intros [Hm Hn]. split; [done|].
    apply list_elem_of_fmap in Hn as ([k t] & -> & Hkt). apply elem_of_map_to_list in Hkt.
    cbn [fst]. eauto.
  - intros [Hm [t Hn]]. split; [done|]. apply list_elem_of_fmap. exists (n, t).
    split; [done|]. by apply elem_of_map_to_list.
Qed.

Lemma archive_names_NoDup es : NoDup (archive_names es).
Proof. apply NoDup_filter, NoDup_fst_map_to_list. Qed.

(** The run of the sweep over a backup root whose archives are regular
    files. *)
Lemma cleanup_run E self keep_days w es :
  get (fs w) (backup_dir self) = Some (Dir es) →
  (∀ n ds, es !! n = Some (Dir ds) → fnmatch n archive_glob = false) →
  (∀ n ds, fnmatch n archive_glob = true → es !! metadata_of n ≠ Some (Dir ds)) →
  ∃ tr,
    cleanup_old_backups E self keep_days w
    = (Ok (swept (clock E - keep_days * day) es (archive_names es)),
       {| fs := update (fs w) (backup_dir self)
                  (Some (Dir (sweep (clock E - keep_days * day) es (archive_names es))));
          trace := trace w ++ tr |}).
Proof.
  intros Hbd Hfiles Hmeta. set (cutoff := clock E - keep_days * day).
  assert (is_Some (get (fs w) (backup_dir self))) as Hsome by eauto.
  assert (∀ n, n ∈ archive_names es →
               fnmatch n archive_glob = true ∧ ∃ m d, es !! n = Some (File m d)) as Hnames.
  { intros n [Hm [t Hn]]%archive_names_spec. split; [done|].
    destruct t as [m d|ds]; [eauto|]. rewrite (Hfiles _ _ Hn) in Hm. done. }
  destruct (cleanup_loop E (fs w) (backup_dir self) cutoff Hsome (archive_names es) es 0%nat
              (trace w ++ [Log INFO ("Cleaning up backups older than " +:+ pretty keep_days
                                     +:+ " days...")])
              (archive_names_NoDup es) Hnames)
    as [tr Hloop].
  { intros n ds Hn. apply Hmeta. by apply Hnames. }
  rewrite (update_id _ _ _ Hbd) in Hloop.
  unfold cleanup_old_backups.
  erewrite bind_ok; [|reflexivity]. cbv beta zeta.
  erewrite bind_ok; [|reflexivity]. cbv beta.
  unfold children. cbn [fs emit]. rewrite Hbd.
  erewrite bind_ok; [|exact Hloop]. run_step. rewrite Nat.add_0_l.
  eexists. by rewrite <-!app_assoc.
Qed.

(** Where nothing is old, the sweep does nothing. *)
Lemma sweep_nothing cutoff names : ∀ cur,
  (∀ n, n ∈ names → aged cutoff (cur !! n) = false) →
  sweep cutoff cur names = cur ∧ swept cutoff cur names = 0%nat.
Proof.
  induction names as [|n names IH]; intros cur Hyoung; [done|].
  cbn [sweep swept]. rewrite (Hyoung n) by by left. apply IH.
  intros k Hk. apply Hyoung. by right.
Qed.

(** The conditions on the backup root carry over to what the sweep
    leaves. *)
Lemma sweep_files cutoff names (cur : gmap string node) :
  (∀ n ds, cur !! n = Some (Dir ds) → fnmatch n archive_glob = false) →
  ∀ n ds, sweep cutoff cur names !! n = Some (Dir ds) → fnmatch n archive_glob = false.
Proof. intros Hfiles n ds Hn%sweep_subseteq. eauto. Qed.

Lemma sweep_sidecars cutoff names (cur : gmap string node) :
  (∀ n ds, fnmatch n archive_glob = true → cur !! metadata_of n ≠ Some (Dir ds)) →
  ∀ n ds, fnmatch n archive_glob = true →
          sweep cutoff cur names !! metadata_of n ≠ Some (Dir ds).
Proof. intros Hmeta n ds Hm Hn%sweep_subseteq. by apply (Hmeta n ds). Qed.

(** After the sweep no archive is old. *)
Lemma sweep_leaves_young cutoff (es : gmap string node) n :
  fnmatch n archive_glob = true →
  aged cutoff (sweep cutoff es (archive_names es) !! n) = false.
Proof.
  intros Hm. destruct (aged _ _) eqn:Haged; [|done]. exfalso.
  destruct (sweep cutoff es (archive_names es) !! n) as [[m d|ds]|] eqn:Hn; try done.
  pose proof (sweep_subseteq _ _ _ _ _ Hn) as Hes.
  rewrite (sweep_removed cutoff (archive_names es) es n n) in Hn; [done|..].
  - apply archive_names_NoDup.
  - by intros j [? _]%archive_names_spec.
  - apply archive_names_spec. eauto.
  - by rewrite Hes.
  - by left.
Qed.

(** The loop over archives none of which is old: nothing happens. *)
Lemma cleanup_loop_young E cutoff bd names : ∀ count w,
  (∀ n, n ∈ names → ∃ m d, get (fs w) (bd ++ [n]) = Some (File m d) ∧ cutoff ≤ m) →
  foldM (cleanup_one E cutoff) count ((λ n, bd ++ [n]) <$> names) w = (Ok count, w).
Proof.
  induction names as [|n names IH]; intros count w Hyoung; [done|].
  destruct (Hyoung n) as (m & d & Hn & Hm); [by left|].
  rewrite fmap_cons. cbn [foldM]. erewrite bind_ok.
  2:{ unfold cleanup_one. run_step. rewrite Hn.
      assert ((m <? cutoff) = false) as -> by by apply Z.ltb_ge. reflexivity. }
  apply IH. intros k Hk. apply Hyoung. by right.
Qed.
(** ** Wildcards *)

Lemma pattern_app a b : pattern (a +:+ b) = pattern a ++ pattern b.
Proof.
  induction a as [|c a IH]; [done|].
  change (String c a +:+ b) with (String c (a +:+ b)). cbn [pattern app]. by rewrite IH.
Qed.

Lemma wild_star pat s :
  wild (Star :: pat) s = true ↔ ∃ a b, s = a +:+ b ∧ wild pat b = true.
Proof.
  split.
  - induction s as [|c s IH]; cbn [wild].
    + rewrite orb_false_r. intros Hm. by exists "", "".
    + intros [Hm|Hm]%orb_true_iff.
      * by exists "", (String c s).
      * destruct (IH Hm) as (a & b & -> & Hb). by exists (String c a), b.
  - intros (a & b & -> & Hb). induction a as [|c a IH].
    + change ("" +:+ b) with b. destruct b; cbn [wild]; rewrite Hb; done.
    + change (String c a +:+ b) with (String c (a +:+ b)). cbn [wild].
      apply orb_true_iff. right. exact IH.
Qed.

Lemma wild_literal_prefix u pat s :
  occurs "*" u = false →
  wild (pattern u ++ pat) s = true ↔ ∃ r, s = u +:+ r ∧ wild pat r = true.
Proof.
  revert s. induction u as [|c u IH]; intros s Hu.
  - cbn [pattern app]. split; [by exists s|]. by intros (r & -> & Hr).
  - cbn [occurs] in Hu. apply orb_false_iff in Hu as [Hc Hu]. cbn [pattern].
    rewrite Ascii.eqb_sym, Hc. cbn [app wild]. destruct s as [|d s].
    + split; [done|]. by intros (r & Heq & _).
    + rewrite andb_true_iff, Ascii.eqb_eq, (IH s Hu). split.
      * intros [-> (r & -> & Hr)]. by exists r.
      * intros (r & Heq & Hr). injection Heq as -> ->. eauto.
Qed.

(** What the pattern of the sweep matches. *)
Lemma archive_glob_iff n :
  fnmatch n archive_glob = true ↔ ∃ a b, n = a +:+ "backup_" +:+ b +:+ ".tar.gz".
Proof.
  unfold fnmatch, archive_glob.
  change (pattern "*backup_*.tar.gz")
    with (Star :: pattern "backup_" ++ Star :: pattern ".tar.gz" ++ []).
  rewrite wild_star. split.
  - intros (a & r & -> & Hr). apply wild_literal_prefix in Hr as (r' & -> & Hr'); [|done].
    apply wild_star in Hr' as (b & t & -> & Ht).
    apply wild_literal_prefix in Ht as (t' & -> & Ht'); [|done].
    destruct t'; [|done]. by exists a, b.
  - intros (a & b & ->). exists a, ("backup_" +:+ b +:+ ".tar.gz"). split; [done|].
    apply wild_literal_prefix; [done|]. eexists. split; [done|].
    apply wild_star. exists b, ".tar.gz". split; [done|].
    apply wild_literal_prefix; [done|]. by exists "".
Qed.
(** ** The database restore, when every database comes through *)

Lemma restore_database_clean E self timestamp database w dumps :
  database_archive_ready self timestamp dumps (fs w) →
  Forall (restores_cleanly E self timestamp dumps) (databases_to_restore self database) →
  ∃ tr, restore_database E self timestamp database w
          = (Ok true, {| fs := fs w; trace := trace w ++ tr |}) ∧
        commands tr = mysql_restore self <$> databases_to_restore self database.
Proof.
  intros Hready Hall.
  destruct (restore_database_prelude E self timestamp database w dumps Hready)
    as (es & Hbd & Hrun).
  cbv zeta in Hrun. rewrite Hrun. clear Hrun.
  destruct Hready as (es' & m & Hbd' & Harc & Htmp). simplify_eq.
  assert (is_Some (get (fs w) (backup_dir self))) as Hsome by eauto.
  set (w1 := {| fs := _; trace := _ |}).
  assert (get (fs w1) ((backup_dir self ++ ["temp_db_restore_" +:+ timestamp])
                         ++ ["database_" +:+ timestamp]) = Some (Dir dumps)) as Hdir
    by by apply staged_dumps_at.
  destruct (restore_loop_clean E self timestamp _ dumps _ [] w1 Hdir Hall)
    as (tr1 & Hloop & Hcmds).
  rewrite app_nil_r in Hloop.
  unfold try_ at 1. unfold mbind at 1, M_bind at 1. rewrite Hloop. cbn [for_].
  run_step. subst w1. cbn [fs trace].
  erewrite extraction_rmtree by eassumption. cbn [fs trace].
  eexists. split.
  - rewrite <-!app_assoc. reflexivity.
  - rewrite !commands_app, Hcmds. cbn. by rewrite app_nil_r.
Qed.
(** ** The database backup: what is staged and reported *)

Lemma sql_name_inj a b timestamp : sql_name a timestamp = sql_name b timestamp → a = b.
Proof. unfold sql_name. apply append_inj_r. Qed.

Lemma gz_name_inj a b timestamp :
  sql_name a timestamp +:+ ".gz" = sql_name b timestamp +:+ ".gz" → a = b.
Proof. intros Heq. apply append_inj_r in Heq. by apply sql_name_inj in Heq. Qed.

Lemma append_assoc (a b c : string) : (a +:+ b) +:+ c = a +:+ (b +:+ c).
Proof.
  induction a as [|x a IH]; [done|].
  change (String x ((a +:+ b) +:+ c) = String x (a +:+ b +:+ c)). by rewrite IH.
Qed.

Lemma last_char_sql a timestamp : last_char (sql_name a timestamp) = Some "l"%char.
Proof.
  unfold sql_name. rewrite <-(append_assoc "_"), <-append_assoc. by rewrite last_char_app.
Qed.

Lemma last_char_gz s : last_char (s +:+ ".gz") = Some "z"%char.
Proof. by rewrite last_char_app. Qed.

Lemma last_char_galera timestamp : last_char (galera_name timestamp) = Some "t"%char.
Proof. unfold galera_name. rewrite <-append_assoc. by rewrite last_char_app. Qed.

Lemma sql_ne_gz a b timestamp : sql_name a timestamp ≠ sql_name b timestamp +:+ ".gz".
Proof.
  intros Heq. apply (f_equal last_char) in Heq. by rewrite last_char_sql, last_char_gz in Heq.
Qed.

Lemma dump_entry_key E self timestamp database :
  (dump_entry E self timestamp database).1 = sql_name database timestamp ∨
  (dump_entry E self timestamp database).1 = sql_name database timestamp +:+ ".gz".
Proof. unfold dump_entry. destruct (went_well _ _); cbn [fst]; eauto. Qed.

Lemma dump_entry_key_inj E self timestamp a b :
  (dump_entry E self timestamp a).1 = (dump_entry E self timestamp b).1 → a = b.
Proof.
  destruct (dump_entry_key E self timestamp a) as [->| ->],
           (dump_entry_key E self timestamp b) as [->| ->]; intros Heq.
  - by apply sql_name_inj in Heq.
  - by apply sql_ne_gz in Heq.
  - symmetry in Heq. by apply sql_ne_gz in Heq.
  - by apply gz_name_inj in Heq.
Qed.

Lemma dump_entry_not_sql E self timestamp a b :
  a ≠ b → (dump_entry E self timestamp a).1 ≠ sql_name b timestamp.
Proof.
  intros Hne. destruct (dump_entry_key E self timestamp a) as [->| ->]; intros Heq.
  - by apply sql_name_inj in Heq.
  - symmetry in Heq. by apply sql_ne_gz in Heq.
Qed.

Lemma dump_entry_not_galera E self timestamp a :
  (dump_entry E self timestamp a).1 ≠ galera_name timestamp.
Proof.
  intros Heq. apply (f_equal last_char) in Heq. rewrite last_char_galera in Heq.
  destruct (dump_entry_key E self timestamp a) as [Hk|Hk]; rewrite Hk in Heq.
  - by rewrite last_char_sql in Heq.
  - by rewrite last_char_gz in Heq.
Qed.

Lemma dump_entry_file E self timestamp a :
  ∃ m d, (dump_entry E self timestamp a).2 = File m d.
Proof. unfold dump_entry. destruct (went_well _ _); cbn [snd]; eauto. Qed.

Lemma dumps_of_files E self timestamp databases dumps :
  dumps_of E self timestamp databases dumps → ∀ k ds, dumps !! k ≠ Some (Dir ds).
Proof.
  intros Hdumps k ds Hk. apply Hdumps in Hk as (db & _ & Heq).
  destruct (dump_entry_file E self timestamp db) as (m & d & Hfile).
  rewrite Heq in Hfile. done.
Qed.

(** One more database dumped. *)
Lemma dumps_of_snoc E self timestamp done database dumps :
  database ∉ done →
  dumps_of E self timestamp done dumps →
  dumps_of E self timestamp (done ++ [database])
    (<[(dump_entry E self timestamp database).1 := (dump_entry E self timestamp database).2]>
       (delete (sql_name database timestamp) dumps)).
Proof.
  intros Hnew Hdumps k x. rewrite lookup_insert_Some, lookup_delete_Some. split.
  - intros [[<- <-]|(Hk & Hsql & Hold)].
    + exists database. split; [|by destruct (dump_entry _ _ _ _)].
      apply elem_of_app. right. by left.
    + apply Hdumps in Hold as (db & Hdb & Heq). exists db. split; [|done].
      apply elem_of_app. by left.
  - intros (db & [Hdb|Hdb%list_elem_of_singleton]%elem_of_app & Heq).
    + right. assert (db ≠ database) as Hne by (intros ->; done).
      assert (k = (dump_entry E self timestamp db).1) as -> by by rewrite Heq.
      split; [|split].
      * intros Hk. by apply dump_entry_key_inj in Hk.
      * intros Hk. symmetry in Hk. by apply dump_entry_not_sql in Hk.
      * apply Hdumps. exists db. by rewrite Heq.
    + subst db. left. by rewrite Heq.
Qed.

Lemma keys_of_report {B} (f : string → B) (l : list string) :
  ((λ x, (x, f x)) <$> l).*1 = l.
Proof. induction l as [|x l IH]; [done|]. cbn. by rewrite IH. Qed.

Section DumpStaging.
Variables (E : environment) (self : TelecomBackup) (timestamp : string).
Variables (t1 : node) (stage : path).
Hypothesis Hstage : is_Some (get t1 stage).

#[local] Abbreviation dump_world dumps tr :=
  {| fs := update t1 stage (Some (Dir dumps)); trace := tr |}.

(** One turn of the loop over the databases, in a staging directory that
    holds regular files only. *)
Lemma backup_database_staged database results tr0 dumps :
  (∀ k ds, dumps !! k ≠ Some (Dir ds)) →
  ∃ tr,
    backup_database E self timestamp stage results database (dump_world dumps tr0)
    = (Ok (Dict.set results database (ran E (dump_command self database))),
       dump_world
         (<[(dump_entry E self timestamp database).1 :=
              (dump_entry E self timestamp database).2]>
            (delete (sql_name database timestamp) dumps))
         (tr0 ++ tr)).
Proof.
  intros Hfiles. unfold backup_database, ran, dump_entry, captured, went_well.
  fold (dump_command self database). fold (sql_name database timestamp).
  set (sql := sql_name database timestamp). set (cmd := dump_command self database).
  assert (∀ f, fs_write [sql] f (Dir dumps) = Ok (Dir (<[sql := f]> dumps))) as Hwrite.
  { intros f. unfold fs_write. cbn [get parent removelast].
    destruct (dumps !! sql) as [[m d|ds]|] eqn:Hold; [done| |done]. by destruct (Hfiles sql ds). }
  assert (sql ≠ sql +:+ ".gz") as Hne1 by apply sql_ne_gz.
  assert (sql +:+ ".gz" ≠ sql) as Hne2 by (intros Heq; by symmetry in Heq).
  run_step.
  erewrite fs_write_mount; [|done|apply Hwrite]. cbn [fs trace].
  destruct (spawn E cmd None) as [r|e]; cbn [fs trace].
  - erewrite fs_write_mount; [|done|].
    2:{ unfold fs_write. cbn [get parent removelast]. rewrite lookup_insert_eq. done. }
    cbn [fs trace update]. destruct (returncode r =? 0); cbn [fs trace fst snd].
    + rewrite get_mount by done. cbn [get]. rewrite lookup_partial_alter_eq. cbn [fs trace].
      erewrite fs_write_mount; [|done|].
      2:{ unfold fs_write. cbn [get parent removelast].
          rewrite !lookup_partial_alter_ne by done. rewrite lookup_insert_ne by done.
          destruct (dumps !! (sql +:+ ".gz")) as [[m d|ds]|] eqn:Hold; [done| |done].
          by destruct (Hfiles (sql +:+ ".gz") ds). }
      cbn [fs trace update].
      erewrite fs_unlink_mount; [|done|].
      2:{ unfold fs_unlink. cbn [get].
          rewrite lookup_partial_alter_ne by done.
          rewrite lookup_partial_alter_eq. done. }
      cbn [fs trace update]. eexists. f_equal. f_equal; [|by rewrite <-!app_assoc].
      do 3 f_equal. apply map_eq. intros k.
      destruct (decide (k = sql)) as [->|Hk].
      * rewrite lookup_partial_alter_eq, lookup_insert_ne by done.
        by rewrite lookup_delete_eq.
      * rewrite lookup_partial_alter_ne by done.
        destruct (decide (k = sql +:+ ".gz")) as [->|Hk'].
        -- by rewrite lookup_partial_alter_eq, lookup_insert_eq.
        -- rewrite !lookup_partial_alter_ne, !lookup_insert_ne by done.
           by rewrite lookup_delete_ne.
    + eexists. f_equal. f_equal; [|by rewrite <-!app_assoc].
      do 3 f_equal. apply map_eq. intros k.
      destruct (decide (k = sql)) as [->|Hk].
      * by rewrite lookup_partial_alter_eq, lookup_insert_eq.
      * rewrite lookup_partial_alter_ne, !lookup_insert_ne by done.
        by rewrite lookup_delete_ne.
  - eexists. f_equal. f_equal; [|by rewrite <-!app_assoc].
    do 3 f_equal. apply map_eq. intros k.
    destruct (decide (k = sql)) as [->|Hk].
    + by rewrite !lookup_insert_eq.
    + rewrite !lookup_insert_ne by done. by rewrite lookup_delete_ne.
Qed.

Lemma backup_databases_loop databases : ∀ done tr0 dumps,
  NoDup (done ++ databases) →
  dumps_of E self timestamp done dumps →
  ∃ tr dumps',
    foldM (backup_database E self timestamp stage) (database_report E self done) databases
          (dump_world dumps tr0)
    = (Ok (database_report E self (done ++ databases)), dump_world dumps' (tr0 ++ tr)) ∧
    dumps_of E self timestamp (done ++ databases) dumps'.
Proof.
  induction databases as [|db databases IH]; intros done tr0 dumps Hnodup Hdumps.
  - rewrite app_nil_r. cbn [foldM]. exists [], dumps. by rewrite app_nil_r.
  - assert (∀ rest, done ++ db :: rest = (done ++ [db]) ++ rest) as Hmid
      by (intros rest; by rewrite <-app_assoc).
    rewrite Hmid in Hnodup |- *.
    assert (db ∉ done) as Hnew.
    { apply NoDup_app in Hnodup as [Hnodup _]. apply NoDup_app in Hnodup as (_ & Hdis & _).
      intros Hin. apply (Hdis _ Hin). by left. }
    destruct (backup_database_staged db (database_report E self done) tr0 dumps)
      as [tr Hstep]; [by eapply dumps_of_files|].
    cbn [foldM]. erewrite bind_ok; [|exact Hstep].
    assert (Dict.set (database_report E self done) db (ran E (dump_command self db))
            = database_report E self (done ++ [db])) as ->.
    { rewrite dict_set_fresh.
      - unfold database_report. by rewrite fmap_app.
      - unfold database_report. by rewrite keys_of_report. }
    destruct (IH (done ++ [db]) (tr0 ++ tr) _ Hnodup (dumps_of_snoc _ _ _ _ _ _ Hnew Hdumps))
      as (tr' & dumps' & Hrun & Hdumps').
    exists (tr ++ tr'), dumps'. by rewrite app_assoc.
Qed.

(** The Galera status file. *)
Lemma galera_staged results tr0 dumps :
  (∀ k ds, dumps !! k ≠ Some (Dir ds)) →
  ∃ tr,
    try_ (let cluster_info_file := stage ++ [galera_name timestamp] in
          result ← run_to_file E galera_command cluster_info_file;
          if returncode result =? 0 then
            mret (Dict.set results "galera_cluster_info" "success")
          else
            mret (Dict.set results "galera_cluster_info" ("error: " +:+ stderr result)))
         (λ e, mret (Dict.set results "galera_cluster_info" ("exception: " +:+ str_exn e)))
         (dump_world dumps tr0)
    = (Ok (Dict.set results "galera_cluster_info" (ran E galera_command)),
       dump_world (<[galera_name timestamp :=
                       File (clock E) (Raw (captured E galera_command))]> dumps)
                  (tr0 ++ tr)).
Proof.
  intros Hfiles. unfold ran, captured. run_step.
  erewrite fs_write_mount; [|done|].
  2:{ unfold fs_write. cbn [get parent removelast].
      destruct (dumps !! galera_name timestamp) as [[m d|ds]|] eqn:Hold; [done| |done].
      by destruct (Hfiles (galera_name timestamp) ds). }
  cbn [fs trace update].
  destruct (spawn E galera_command None) as [r|e]; cbn [fs trace].
  - erewrite fs_write_mount; [|done|].
    2:{ unfold fs_write. cbn [get parent removelast]. rewrite lookup_partial_alter_eq. done. }
    cbn [fs trace update].
    assert (partial_alter (λ _, Some (File (clock E) (Raw (stdout r)))) (galera_name timestamp)
              (partial_alter (λ _, Some (File (clock E) (Raw ""))) (galera_name timestamp) dumps)
            = <[galera_name timestamp := File (clock E) (Raw (stdout r))]> dumps) as ->
      by exact (insert_insert_eq dumps _ _ _).
    destruct (returncode r =? 0); cbn [fs trace]; eexists; by rewrite <-!app_assoc.
  - eexists. by rewrite <-!app_assoc.
Qed.
End DumpStaging.

Lemma database_staging_fresh timestamp :
  archive_of Database timestamp ≠ "database_" +:+ timestamp.
Proof. names_differ. Qed.

(** The run of the database backup when MariaDB is up. *)
Lemma backup_databases_run E self timestamp w es r0 :
  get (fs w) (backup_dir self) = Some (Dir es) →
  es !! ("database_" +:+ timestamp) = None →
  (∀ ds, es !! archive_of Database timestamp ≠ Some (Dir ds)) →
  spawn E ["systemctl"; "is-active"; "mariadb"] None = Ok r0 → returncode r0 = 0 →
  NoDup (db_databases self) →
  ∃ tr dumps,
    backup_databases E self timestamp w
    = (Ok (Dict.set (database_report E self (db_databases self)) "galera_cluster_info"
                    (ran E galera_command)),
       {| fs := update (fs w) (backup_dir self)
                  (Some (Dir (<[archive_of Database timestamp :=
                                  File (clock E)
                                    (TarGz [("database_" +:+ timestamp,
                                             Dir (<[galera_name timestamp :=
                                                      File (clock E)
                                                        (Raw (captured E galera_command))]>
                                                    dumps))])]> es)));
          trace := trace w ++ tr |}) ∧
    dumps_of E self timestamp (db_databases self) dumps.
Proof.
  intros Hbd Hfresh Harch Hlive Hrc Hnodup.
  set (dbd := "database_" +:+ timestamp). set (stage := backup_dir self ++ [dbd]).
  set (t1 := update (fs w) (backup_dir self) (Some (Dir (<[dbd := Dir ∅]> es)))).
  assert (is_Some (get (fs w) (backup_dir self))) as Hsome by eauto.
  assert (get t1 stage = Some (Dir ∅)) as Hstage.
  { unfold t1, stage. rewrite get_mount by done. cbn [get]. by rewrite lookup_insert_eq. }
  assert (is_Some (get t1 stage)) as Hstage' by eauto.
  unfold backup_databases.
  erewrite bind_ok; [|reflexivity]. cbv beta zeta.
  erewrite bind_ok.
  2:{ unfold mkdir, modify_fs, logger, tell, emit. cbn [fs trace].
      erewrite (fs_mkdir_at _ _ _ Hbd).
      2:{ unfold fs_mkdir. cbn [get mkdirs]. rewrite Hfresh. done. }
      reflexivity. }
  unfold with_fs. cbn [fs trace]. fold dbd stage t1.
  erewrite bind_ok.
  2:{ run_step. rewrite Hlive, Hrc. cbn [Z.eqb negb fs trace]. reflexivity. }
  cbv beta iota.
  set (tr0 := (trace w ++ _) ++ _).
  destruct (backup_databases_loop E self timestamp t1 stage Hstage' (db_databases self) []
              tr0 ∅) as (tr1 & dumps & Hloop & Hdumps).
  { done. }
  { intros k x. rewrite lookup_empty. split; [done|]. intros (db & Hdb & _).
    by apply elem_of_nil in Hdb. }
  rewrite (update_id _ _ _ Hstage) in Hloop. cbn [app] in Hloop, Hdumps.
  erewrite bind_ok; [|exact Hloop].
  destruct (galera_staged E timestamp t1 stage Hstage'
              (database_report E self (db_databases self)) (tr0 ++ tr1) dumps)
    as [tr2 Hgalera]; [by eapply dumps_of_files|].
  erewrite bind_ok; [|exact Hgalera].
  set (dumps2 := <[galera_name timestamp := _]> dumps).
  assert (update t1 stage (Some (Dir dumps2))
          = update (fs w) (backup_dir self) (Some (Dir (<[dbd := Dir dumps2]> es)))) as ->.
  { unfold t1, stage. rewrite update_mount by done. cbn [update]. do 3 f_equal.
    exact (insert_insert_eq es dbd (Dir dumps2) (Dir ∅)). }
  change ("database_backup_" +:+ timestamp +:+ ".tar.gz") with (archive_of Database timestamp).
  set (arch := archive_of Database timestamp).
  assert (arch ≠ dbd) as Hne by apply database_staging_fresh.
  run_step.
  erewrite fs_write_mount; [|done|].
  2:{ unfold fs_write. cbn [get parent removelast]. rewrite lookup_insert_ne by done.
      destruct (es !! arch) as [[m d|ds]|] eqn:Hold; [done| |done]. by destruct (Harch ds). }
  cbn [fs trace update]. unfold stage. rewrite get_mount by done. cbn [get].
  rewrite lookup_partial_alter_ne, lookup_insert_eq by done. cbn [fs trace].
  erewrite fs_write_mount; [|done|].
  2:{ unfold fs_write. cbn [get parent removelast]. rewrite lookup_partial_alter_eq. done. }
  cbn [fs trace update].
  erewrite fs_rmtree_mount; [|done|].
  2:{ unfold fs_rmtree. cbn [get].
      rewrite !lookup_partial_alter_ne, lookup_insert_eq by done. done. }
  cbn [fs trace update].
  eexists _, dumps. split; [|done].
  f_equal. f_equal; [|subst tr0; rewrite <-!app_assoc; reflexivity].
  do 3 f_equal. apply map_eq. intros k.
  destruct (decide (k = dbd)) as [->|Hk].
  - rewrite lookup_partial_alter_eq, lookup_insert_ne by done. done.
  - rewrite lookup_partial_alter_ne by done.
    destruct (decide (k = arch)) as [->|Hk'].
    + by rewrite !lookup_partial_alter_eq, lookup_insert_eq.
    + rewrite !lookup_partial_alter_ne by done. by rewrite !lookup_insert_ne.
Qed.

Lemma dump_name_gz database timestamp :
  dump_name database timestamp = sql_name database timestamp +:+ ".gz".
Proof.
  unfold dump_name, sql_name.
  by rewrite (append_assoc database), (append_assoc "_"), (append_assoc timestamp).
Qed.

Lemma db_restore_name_fresh timestamp :
  "temp_db_restore_" +:+ timestamp ≠ archive_of Database timestamp.
Proof. names_differ. Qed.

(** What the staging directory holds for one database. *)
Lemma dumps_of_lookup E self timestamp databases dumps database :
  dumps_of E self timestamp databases dumps → database ∈ databases →
  dumps !! dump_name database timestamp
    = (if went_well E (dump_command self database)
       then Some (File (clock E) (Gz (Raw (captured E (dump_command self database)))))
       else None) ∧
  dumps !! sql_name database timestamp
    = (if went_well E (dump_command self database)
       then None
       else Some (File (clock E) (Raw (captured E (dump_command self database))))).
Proof.
  intros Hdumps Hin. rewrite dump_name_gz.
  assert (dumps !! (dump_entry E self timestamp database).1
          = Some (dump_entry E self timestamp database).2) as Hhere.
  { apply Hdumps. exists database. split; [done|]. by destruct (dump_entry _ _ _ _). }
  assert (∀ k, k ≠ (dump_entry E self timestamp database).1 →
               k = sql_name database timestamp ∨ k = sql_name database timestamp +:+ ".gz" →
               dumps !! k = None) as Hother.
  { intros k Hk Hform. destruct (dumps !! k) as [x|] eqn:Hx; [|done]. exfalso.
    apply Hdumps in Hx as (db & Hdb & Heq).
    assert ((dump_entry E self timestamp db).1 = k) as Hkey by by rewrite Heq.
    destruct (decide (db = database)) as [->|Hne]; [done|].
    destruct Hform as [->| ->].
    - by apply dump_entry_not_sql in Hkey.
    - destruct (dump_entry_key E self timestamp db) as [Hd|Hd]; rewrite Hd in Hkey.
      + by apply sql_ne_gz in Hkey.
      + by apply gz_name_inj in Hkey. }
  unfold dump_entry in Hhere, Hother.
  destruct (went_well E (dump_command self database)); cbn [fst snd] in Hhere, Hother.
  - split; [done|]. apply Hother; [apply sql_ne_gz|by left].
  - split; [|done]. apply Hother; [|by right].
    intros Heq. symmetry in Heq. by apply sql_ne_gz in Heq.
Qed.
(** ** More on trees: removing and putting back *)

Lemma update_twice t p u v : p ≠ [] → update (update t p u) p v = update t p v.
Proof.
  revert t. induction p as [|c p IH]; intros t Hp; [done|].
  destruct t as [m d|es]; [done|]. destruct p as [|c' r].
  - cbn [update]. f_equal. apply map_eq. intros k.
    destruct (decide (k = c)) as [->|Hk].
    + by rewrite !lookup_partial_alter_eq.
    + by rewrite !lookup_partial_alter_ne.
  - rewrite !update_cons2. f_equal. apply map_eq. intros k.
    destruct (decide (k = c)) as [->|Hk].
    + rewrite !lookup_alter_eq. destruct (es !! c) as [t'|]; [|done].
      cbn [fmap option_fmap option_map]. f_equal. by apply IH.
    + by rewrite !lookup_alter_ne.
Qed.

Lemma update_absent t p : get t p = None → update t p None = t.
Proof.
  revert t. induction p as [|c p IH]; intros t Hget; [done|].
  destruct t as [m d|es]; [done|]. cbn [get] in Hget. destruct p as [|c' r].
  - cbn [update]. f_equal. apply map_eq. intros k.
    destruct (decide (k = c)) as [->|Hk].
    + rewrite lookup_partial_alter_eq. by destruct (es !! c).
    + by rewrite lookup_partial_alter_ne.
  - rewrite update_cons2. f_equal. apply map_eq. intros k.
    destruct (decide (k = c)) as [->|Hk].
    + rewrite lookup_alter_eq. destruct (es !! c) as [t'|]; [|done].
      cbn [fmap option_fmap option_map]. f_equal. by apply IH.
    + by rewrite lookup_alter_ne.
Qed.

(** Writing below a directory that is there. *)
Lemma get_update_new t p es n :
  get t (parent p) = Some (Dir es) → p ≠ [] → get (update t p (Some n)) p = Some n.
Proof.
  revert t. induction p as [|c p IH]; intros t Hpar Hp; [done|].
  destruct p as [|c' r].
  - cbn [parent removelast get] in Hpar. simplify_eq. cbn [update get].
    by rewrite lookup_partial_alter_eq.
  - change (parent (c :: c' :: r)) with (c :: parent (c' :: r)) in Hpar.
    destruct t as [m d|es0]; [done|]. cbn [get] in Hpar.
    destruct (es0 !! c) as [t'|] eqn:Hc; [|done].
    rewrite update_cons2. cbn [get]. rewrite lookup_alter_eq, Hc.
    cbn [fmap option_fmap option_map]. by apply IH.
Qed.

(** [os.makedirs] where the entry is absent, or was just removed, and the
    directory that holds it is there. *)
Lemma mkdirs_in_place t p es :
  get t (parent p) = Some (Dir es) → p ≠ [] →
  mkdirs (update t p None) p = Some (update t p (Some (Dir ∅))).
Proof.
  revert t. induction p as [|c p IH]; intros t Hpar Hp; [done|].
  destruct p as [|c' r].
  - cbn [parent removelast get] in Hpar. simplify_eq.
    cbn [update mkdirs]. rewrite lookup_partial_alter_eq. cbn [default from_option id mkdirs].
    do 2 f_equal. exact (insert_delete_eq es c (Dir ∅)).
  - change (parent (c :: c' :: r)) with (c :: parent (c' :: r)) in Hpar.
    destruct t as [m d|es0]; [done|]. cbn [get] in Hpar.
    destruct (es0 !! c) as [t'|] eqn:Hc; [|done].
    rewrite !update_cons2, mkdirs_cons, lookup_alter_eq, Hc.
    cbn [fmap option_fmap option_map default from_option id].
    rewrite (IH t') by done. do 2 f_equal. apply map_eq. intros k.
    destruct (decide (k = c)) as [->|Hk].
    + by rewrite lookup_insert_eq, lookup_alter_eq, Hc.
    + by rewrite lookup_insert_ne, !lookup_alter_ne.
Qed.

(** A directory stays a directory when something is written or removed
    elsewhere or below it. *)
Lemma is_dir_update t q v r :
  ¬ q `prefix_of` r → is_dir t r = true → is_dir (update t q v) r = true.
Proof.
  unfold is_dir. revert t r. induction q as [|c q IH]; intros t r Hq Hr.
  - destruct Hq. apply prefix_nil.
  - destruct t as [m d|es0]; [done|]. destruct r as [|c' r].
    + cbn [get]. by destruct q.
    + cbn [get] in Hr. destruct (es0 !! c') as [t'|] eqn:Hc'; [|done].
      destruct (decide (c = c')) as [->|Hne].
      * destruct q as [|c2 q].
        { destruct Hq. apply prefix_cons, prefix_nil. }
        rewrite update_cons2. cbn [get]. rewrite lookup_alter_eq, Hc'.
        cbn [fmap option_fmap option_map]. apply IH; [|done].
        intros Hpre. apply Hq. by apply prefix_cons.
      * destruct q as [|c2 q].
        -- cbn [update get]. by rewrite lookup_partial_alter_ne, Hc'.
        -- rewrite update_cons2. cbn [get]. by rewrite lookup_alter_ne, Hc'.
Qed.

Lemma parent_not_below (p : path) : p ≠ [] → ¬ p `prefix_of` parent p.
Proof.
  intros Hp Hpre. apply list.prefix_length in Hpre.
  destruct (exists_last Hp) as (q & c & ->).
  rewrite parent_snoc, length_app in Hpre. cbn in Hpre. lia.
Qed.

Lemma apart_not_prefix_parent (q p : path) : apart q p → ¬ q `prefix_of` parent p.
Proof.
  intros [Hqp _] Hpre. apply Hqp. etrans; [exact Hpre|].
  destruct p as [|c p] using rev_ind; [done|]. rewrite parent_snoc. by apply prefix_app_r.
Qed.

(** ** The restore of all services *)

(** One registered path whose staged copy is there: whatever is at the
    path is removed and the staged copy is put in its place. *)
Lemma restore_path_present E service_name service_dir p w x pes :
  get (fs w) (service_dir ++ [name p]) = Some x →
  get (fs w) (parent p) = Some (Dir pes) →
  apart p (service_dir ++ [name p]) →
  io_fault E (service_dir ++ [name p]) = None →
  restore_path E service_name service_dir tt p w
  = (Ok tt,
     {| fs := update (fs w) p (Some x);
        trace := trace w ++ [Log INFO ("Restoring " +:+ service_name +:+ " config to "
                                       +:+ str_path p)] |}).
Proof.
  intros Hsrc Hpar Hapart Hio.
  assert (p ≠ []) as Hp by by eapply apart_not_root.
  set (t' := update (fs w) p None).
  assert (get t' (service_dir ++ [name p]) = Some x) as Hsrc'
    by (unfold t'; by rewrite get_update_apart).
  assert (get t' p = None) as Hgone by by apply get_update_removed.
  assert (is_dir t' (parent p) = true) as Hpar'.
  { apply is_dir_update; [by apply parent_not_below|]. unfold is_dir. by rewrite Hpar. }
  assert (is_dir t' p = false) as Hnd by (unfold is_dir; by rewrite Hgone).
  assert (∀ tr,
    (isd ← path_is_dir (service_dir ++ [name p]);
     if (isd : bool) then copytree E (service_dir ++ [name p]) p false
     else copy2 E (service_dir ++ [name p]) p) {| fs := t'; trace := tr |}
    = (Ok tt, {| fs := update (fs w) p (Some x); trace := tr |})) as Hcopy.
  { intros tr. run_step. unfold is_dir at 1. rewrite Hsrc', Hio.
    destruct x as [m d|live]; cbn [fs trace]; rewrite Hsrc'.
    - rewrite Hnd. cbn [fs trace]. unfold fs_write. rewrite Hgone.
      unfold is_dir in Hpar'. destruct (get t' (parent p)) as [[?|?]|]; try done.
      unfold t'. by rewrite update_twice.
    - unfold exists_. rewrite Hgone. cbn [andb fs trace].
      unfold fs_makedirs, t'. rewrite (mkdirs_in_place _ _ pes) by done. cbn [fs trace].
      rewrite (get_update_new _ _ pes) by done. rewrite graft_empty.
      by rewrite update_twice. }
  assert (∀ tr,
    (if exists_ (fs w) p then
       isd ← path_is_dir p;
       if (isd : bool) then rmtree p else unlink p
     else mret tt) {| fs := fs w; trace := tr |}
    = (Ok tt, {| fs := t'; trace := tr |})) as Hremove.
  { intros tr. run_step. unfold exists_, is_dir, fs_rmtree, fs_unlink.
    destruct (get (fs w) p) as [[m d|ds]|] eqn:Hlive; cbn [fs trace]; rewrite ?Hlive;
      cbn [fs trace]; rewrite ?Hlive; try reflexivity.
    unfold t'. by rewrite update_absent. }
  unfold restore_path. erewrite bind_ok.
  2:{ unfold path_exists. run_step. unfold exists_. rewrite Hsrc. reflexivity. }
  cbv iota. erewrite bind_ok; [|reflexivity].
  erewrite bind_ok; [|reflexivity]. unfold emit. cbn [fs trace].
  erewrite bind_ok; [|apply Hremove].
  apply Hcopy.
Qed.

Lemma all_apart_pair (paths : list path) p q :
  all_apart paths → p ∈ paths → q ∈ paths → p = q ∨ apart p q.
Proof.
  induction paths as [|a paths IH]; intros Hall Hp Hq; [by apply elem_of_nil in Hp|].
  destruct Hall as [Ha Hall].
  apply elem_of_cons in Hp as [->|Hp]; apply elem_of_cons in Hq as [->|Hq].
  - by left.
  - right. by apply (proj1 (Forall_forall _ _) Ha).
  - right. by apply apart_sym, (proj1 (Forall_forall _ _) Ha).
  - by apply IH.
Qed.

Section AllServices.
Variables (E : environment) (config_dir : path) (staged : gmap string node).
Variable paths : list path.
Hypothesis Hbelow : ∀ p r, p ∈ paths → apart p (config_dir ++ r).
Hypothesis Hapart : all_apart paths.
Hypothesis Hio : ∀ r, io_fault E (config_dir ++ r) = None.

#[local] Abbreviation ready := (ready_for config_dir staged paths).

Lemma ready_update t p v : ready t → p ∈ paths → ready (update t p v).
Proof.
  intros [Hdir Hparents] Hp. split.
  - rewrite get_update_apart; [done|]. rewrite <-(app_nil_r config_dir). by apply Hbelow.
  - apply Forall_forall. intros q Hq. apply is_dir_update.
    + destruct (all_apart_pair paths p q Hapart Hp Hq) as [->|Hpq].
      * apply parent_not_below. eapply apart_not_root, (Hbelow q []); done.
      * by apply apart_not_prefix_parent.
    + by apply (proj1 (Forall_forall _ _) Hparents).
Qed.

Lemma ready_put_back t service p : ready t → p ∈ paths → ready (put_back staged t (service, p)).
Proof.
  intros Hready Hp. unfold put_back. cbn [fst snd].
  destruct (get (Dir staged) [service; name p]); [by apply ready_update|done].
Qed.

(** One registered path, staged or not. *)
Lemma restore_path_any service p w :
  ready (fs w) → p ∈ paths →
  ∃ tr, restore_path E service (config_dir ++ [service]) tt p w
        = (Ok tt, {| fs := put_back staged (fs w) (service, p); trace := trace w ++ tr |}).
Proof.
  intros [Hdir Hparents] Hp. unfold put_back. cbn [fst snd].
  destruct (get (Dir staged) [service; name p]) as [x|] eqn:Hx.
  - pose proof (proj1 (Forall_forall _ _) Hparents p Hp) as Hpar. unfold is_dir in Hpar.
    destruct (get (fs w) (parent p)) as [[?|pes]|] eqn:Hpp; try done.
    eexists. apply (restore_path_present E service _ p w x pes).
    + rewrite <-app_assoc. cbn [app]. by rewrite (get_at _ _ _ Hdir).
    + done.
    + rewrite <-app_assoc. by apply Hbelow.
    + rewrite <-app_assoc. apply Hio.
  - exists []. rewrite (restore_path_absent E config_dir staged) by done.
    rewrite app_nil_r. by destruct w.
Qed.

(** The paths of one service. *)
Lemma restore_paths_any service ps : ∀ w,
  ready (fs w) → ps ⊆ paths →
  ∃ tr, foldM (restore_path E service (config_dir ++ [service])) tt ps w
        = (Ok tt, {| fs := foldl (put_back staged) (fs w) ((λ p, (service, p)) <$> ps);
                     trace := trace w ++ tr |}) ∧
        ready (foldl (put_back staged) (fs w) ((λ p, (service, p)) <$> ps)).
Proof.
  induction ps as [|p ps IH]; intros w Hready Hsub.
  - exists []. cbn. rewrite app_nil_r. by destruct w.
  - assert (p ∈ paths) as Hp by (apply Hsub; by left).
    destruct (restore_path_any service p w Hready Hp) as [tr Hstep].
    set (w1 := {| fs := _; trace := _ |}) in Hstep.
    destruct (IH w1) as (tr' & Hrest & Hready').
    + by apply ready_put_back.
    + intros q Hq. apply Hsub. by right.
    + exists (tr ++ tr'). rewrite fmap_cons. cbn [foldM foldl].
      erewrite bind_ok; [|exact Hstep]. rewrite Hrest. subst w1. cbn [fs trace].
      by rewrite app_assoc.
Qed.

Lemma put_back_no_service t ps service :
  staged !! service = None →
  foldl (put_back staged) t ((λ p, (service, p)) <$> ps) = t.
Proof.
  intros Hnone. induction ps as [|p ps IH]; [done|].
  rewrite fmap_cons. cbn [foldl]. unfold put_back at 2. cbn [get fst snd].
  by rewrite Hnone.
Qed.

(** The loop over the services. *)
Lemma restore_services_any (lookup : string → option (list path)) items : ∀ w,
  ready (fs w) →
  (∀ pair, pair ∈ pairs_of items → pair.2 ∈ paths) →
  (∀ service ps, (service, ps) ∈ items → lookup service = Some ps) →
  ∃ tr,
    foldM (λ _ service_name,
             let service_dir := config_dir ++ [service_name] in
             ex ← path_exists service_dir;
             if (ex : bool) then
               foldM (restore_path E service_name service_dir) tt
                     (default [] (lookup service_name))
             else mret tt)
          tt items.*1 w
    = (Ok tt, {| fs := foldl (put_back staged) (fs w) (pairs_of items);
                 trace := trace w ++ tr |}).
Proof.
  induction items as [|[service ps] items IH]; intros w Hready Hin Hlookup.
  - exists []. cbn. rewrite app_nil_r. by destruct w.
  - assert (pairs_of ((service, ps) :: items)
            = ((λ p, (service, p)) <$> ps) ++ pairs_of items) as Hcons by done.
    rewrite Hcons in *. rewrite foldl_app.
    assert (ps ⊆ paths) as Hsub.
    { intros p Hp. apply (Hin (service, p)). apply elem_of_app. left.
      apply list_elem_of_fmap. eauto. }
    destruct (restore_paths_any service ps w Hready Hsub) as (tr & Hrun & Hready').
    set (t1 := foldl _ (fs w) _) in *.
    assert (∃ tr1, (ex ← path_exists (config_dir ++ [service]);
                    if (ex : bool) then
                      foldM (restore_path E service (config_dir ++ [service])) tt
                            (default [] (lookup service))
                    else mret tt) w
                   = (Ok tt, {| fs := t1; trace := trace w ++ tr1 |})) as [tr1 Hstep].
    { rewrite (Hlookup service ps) by by left. cbn [default from_option id].
      run_step. destruct Hready as [Hdir _]. rewrite (exists_at _ _ _ Hdir).
      unfold exists_. cbn [get]. destruct (staged !! service) as [x|] eqn:Hx.
      - eauto.
      - exists []. subst t1. rewrite put_back_no_service by done.
        rewrite app_nil_r. by destruct w. }
    destruct (IH {| fs := t1; trace := trace w ++ tr1 |}) as [tr2 Hrest].
    + done.
    + intros pair Hpair. apply Hin. apply elem_of_app. by right.
    + intros s qs Hs. apply Hlookup. by right.
    + exists (tr1 ++ tr2). rewrite fmap_cons. cbn [foldM fst].
      erewrite bind_ok; [|exact Hstep]. cbv beta. etrans; [exact Hrest|].
      cbn [fs trace]. by rewrite app_assoc.
Qed.
End AllServices.

Lemma put_back_frame staged pairs : ∀ t q,
  (∀ pair, pair ∈ pairs → apart pair.2 q) →
  get (foldl (put_back staged) t pairs) q = get t q.
Proof.
  induction pairs as [|a pairs IH]; intros t q Hq; [done|]. cbn [foldl].
  rewrite IH by (intros pair Hpair; apply Hq; by right).
  unfold put_back. destruct (get (Dir staged) _); [|done].
  apply get_update_apart, Hq. by left.
Qed.

Lemma put_back_get staged pairs : ∀ t service p,
  all_apart pairs.*2 → (service, p) ∈ pairs → p ≠ [] → is_dir t (parent p) = true →
  get (foldl (put_back staged) t pairs) p
  = match get (Dir staged) [service; name p] with
    | Some x => Some x
    | None => get t p
    end.
Proof.
  induction pairs as [|a pairs IH]; intros t service p Hall Hin Hp Hpar;
    [by apply elem_of_nil in Hin|].
  rewrite fmap_cons in Hall. destruct Hall as [Ha Hall]. cbn [foldl].
  apply elem_of_cons in Hin as [<-|Hin].
  - rewrite put_back_frame.
    2:{ intros pair Hpair. apply apart_sym, (proj1 (Forall_forall _ _) Ha).
        apply list_elem_of_fmap. eauto. }
    unfold put_back. cbn [fst snd]. destruct (get (Dir staged) _) as [x|]; [|done].
    unfold is_dir in Hpar. destruct (get t (parent p)) as [[?|pes]|] eqn:Hpp; try done.
    by apply (get_update_new _ _ pes).
  - assert (apart a.2 p) as Hap.
    { apply (proj1 (Forall_forall _ _) Ha). apply list_elem_of_fmap. by exists (service, p). }
    rewrite (IH _ service p Hall Hin Hp).
    + destruct (get (Dir staged) [service; name p]); [done|].
      unfold put_back. destruct (get (Dir staged) _); [|done]. by apply get_update_apart.
    + unfold put_back. destruct (get (Dir staged) _); [|done].
      apply is_dir_update; [by apply apart_not_prefix_parent|done].
Qed.

Lemma dict_get_in {V} (d : list (string * V)) k v :
  NoDup d.*1 → (k, v) ∈ d → Dict.get d k = Some v.
Proof.
  induction d as [|[k' v'] d IH]; intros Hnodup Hin; [by apply elem_of_nil in Hin|].
  rewrite fmap_cons in Hnodup. apply NoDup_cons in Hnodup as [Hk' Hnodup]. cbn [Dict.get].
  apply elem_of_cons in Hin as [Heq|Hin].
  - simplify_eq. by rewrite decide_True.
  - rewrite decide_False; [by apply IH|]. intros ->. apply Hk'.
    apply list_elem_of_fmap. by exists (k, v).
Qed.

(** The restore of all services. *)
Lemma restore_configuration_all E self timestamp w staged :
  config_archive_ready self timestamp staged (fs w) →
  NoDup (Dict.keys (config_paths self)) →
  Forall (apart (backup_dir self)) (config_pairs self).*2 →
  all_apart (config_pairs self).*2 →
  Forall (λ p, is_dir (fs w) (parent p) = true) (config_pairs self).*2 →
  (∀ r, io_fault E (backup_dir self
                    ++ ["temp_restore_" +:+ timestamp; "config_" +:+ timestamp] ++ r) = None) →
  ∃ w',
    restore_configuration E self timestamp None w = (Ok true, w') ∧
    (∀ service p, (service, p) ∈ config_pairs self →
       get (fs w') p = match get (Dir staged) [service; name p] with
                       | Some x => Some x
                       | None => get (fs w) p
                       end) ∧
    (∀ q, apart (backup_dir self) q → (∀ pair, pair ∈ config_pairs self → apart pair.2 q) →
          get (fs w') q = get (fs w) q) ∧
    get (fs w') (backup_dir self) = get (fs w) (backup_dir self).
Proof.
  intros Hready Hkeys Hout Hall Hparents Hio.
  destruct (restore_configuration_prelude E self timestamp None w staged Hready)
    as (es & Hbd & Hrun).
  cbv zeta in Hrun. rewrite Hrun. clear Hrun.
  destruct Hready as (es' & m & Hbd' & Harc & Htmp). simplify_eq.
  assert (is_Some (get (fs w) (backup_dir self))) as Hsome by eauto.
  set (w1 := {| fs := _; trace := _ |}).
  set (temp_dir := backup_dir self ++ ["temp_restore_" +:+ timestamp]).
  set (config_dir := temp_dir ++ ["config_" +:+ timestamp]).
  set (paths := (config_pairs self).*2) in *.
  assert (∀ pair, pair ∈ config_pairs self → pair.2 ∈ paths) as Hpaths.
  { intros pair Hpair. apply list_elem_of_fmap. eauto. }
  assert (∀ p, p ∈ paths → apart (backup_dir self) p) as Hout'
    by by apply Forall_forall.
  assert (∀ p r, p ∈ paths → apart p (backup_dir self ++ r)) as Hbelow0.
  { intros p r Hp. by apply apart_app_r, apart_sym, Hout'. }
  assert (∀ p r, p ∈ paths → apart p (config_dir ++ r)) as Hbelow.
  { intros p r Hp. unfold config_dir, temp_dir. rewrite <-!app_assoc. by apply Hbelow0. }
  assert (∀ r, io_fault E (config_dir ++ r) = None) as Hio'.
  { intros r. unfold config_dir, temp_dir. rewrite <-!app_assoc. apply Hio. }
  assert (ready_for config_dir staged paths (fs w1)) as Hready1.
  { split; [by apply staged_dumps_at|]. apply Forall_forall. intros p Hp.
    subst w1. cbn [fs]. apply is_dir_update.
    - by apply apart_not_prefix_parent, Hout'.
    - by apply (proj1 (Forall_forall _ _) Hparents). }
  destruct (restore_services_any E config_dir staged paths Hbelow Hall Hio'
              (Dict.get (config_paths self)) (config_paths self) w1 Hready1)
    as [tr Hloop].
  { done. }
  { intros service ps Hin. by apply dict_get_in. }
  set (T := foldl (put_back staged) (fs w1) (pairs_of (config_paths self))) in *.
  assert (get T temp_dir = get (fs w1) temp_dir) as Htemp.
  { apply put_back_frame. intros pair Hpair. by apply Hbelow0, Hpaths. }
  unfold try_ at 1. erewrite bind_ok.
  2:{ unfold truthy. erewrite bind_ok; [|exact Hloop]. reflexivity. }
  cbv beta iota. run_step. unfold fs_rmtree. fold temp_dir. rewrite Htemp.
  subst w1. cbn [fs trace]. unfold temp_dir at 1. rewrite get_mount by done. cbn [get].
  rewrite lookup_insert_eq. cbn [fs trace].
  eexists. split; [done|]. cbn [fs]. split; [|split].
  - intros service p Hin. pose proof (Hpaths _ Hin) as Hp. cbn [snd] in Hp.
    rewrite get_update_apart by by apply apart_sym, Hbelow0.
    unfold T. rewrite (put_back_get staged _ _ service p); [| done | done | | ].
    + cbn [fs get]. repeat case_match; try done; by apply get_mount_apart, Hout'.
    + eapply apart_not_root, (Hbelow0 p []); done.
    + apply is_dir_update; [by apply apart_not_prefix_parent, Hout'|].
      by apply (proj1 (Forall_forall _ _) Hparents).
  - intros q Hq Hothers.
    rewrite get_update_apart by (apply apart_sym, apart_app_r, apart_sym; done).
    unfold T. rewrite put_back_frame by done. by apply get_mount_apart.
  - assert (get T (backup_dir self)
            = Some (Dir (<["temp_restore_" +:+ timestamp :=
                             Dir {[ "config_" +:+ timestamp := Dir staged ]}]> es'))) as HT.
    { unfold T. rewrite put_back_frame.
      - by apply get_update_at.
      - intros pair Hpair. rewrite <-(app_nil_r (backup_dir self)). by apply Hbelow0, Hpaths. }
    unfold temp_dir. rewrite (update_app _ _ _ _ _ HT) by done.
    rewrite get_update_at by (rewrite HT; eauto). rewrite Hbd'. cbn [update]. do 2 f_equal.
    apply map_eq. intros k. destruct (decide (k = "temp_restore_" +:+ timestamp)) as [->|Hk].
    + by rewrite lookup_partial_alter_eq.
    + by rewrite lookup_partial_alter_ne, lookup_insert_ne.
Qed.
(** ** The monitoring backup *)

Lemma returns_ret {A} (a : A) : returns (mret a).
Proof. intros w. by exists a, w. Qed.

Lemma returns_bind {A B} (m : M A) (k : A → M B) :
  returns m → (∀ a, returns (k a)) → returns (m ≫= k).
Proof.
  intros Hm Hk w. destruct (Hm w) as (a & w' & Hrun).
  destruct (Hk a w') as (b & w'' & Hrun'). exists b, w''. by rewrite (bind_ok _ _ _ _ _ Hrun).
Qed.

Lemma returns_try {A} (m : M A) (h : exn → M A) : (∀ e, returns (h e)) → returns (try_ m h).
Proof.
  intros Hh w. unfold try_. destruct (m w) as [[a|e] w']; [by exists a, w'|]. apply Hh.
Qed.

Lemma returns_path_exists p : returns (path_exists p).
Proof. intros w. by eexists _, _. Qed.

Lemma returns_glob dir pat : returns (glob dir pat).
Proof. intros w. by eexists _, _. Qed.

(** The pass over the volumes always ends: a failing copy is reported,
    not raised. *)
Lemma backup_volumes_returns E dir label errkey volumes : ∀ results,
  returns (backup_volumes E dir label errkey results volumes).
Proof.
  induction volumes as [|v volumes IH]; intros results; [apply returns_ret|].
  cbn [backup_volumes]. apply returns_bind.
  - apply returns_try. intros e. apply returns_ret.
  - intros [e|]; [apply returns_ret|apply IH].
Qed.

(** A step of a run that keeps an invariant and ends. *)
Lemma run_kept {A} (I : world → Prop) (m : M A) w :
  I w → preserves I m → returns m → ∃ a w', I w' ∧ m w = (Ok a, w').
Proof.
  intros Hw Hkeeps Hreturns. destruct (Hreturns w) as (a & w' & Hrun).
  exists a, w'. split; [|done]. specialize (Hkeeps w Hw). by rewrite Hrun in Hkeeps.
Qed.

Lemma mkdirs_is_directory t p t' : mkdirs t p = Some t' → ∃ es, t' = Dir es.
Proof.
  destruct t as [m d|es]; [by destruct p|]. destruct p as [|c p].
  - cbn. intros [= <-]. eauto.
  - rewrite mkdirs_cons. destruct (mkdirs _ p); [|done]. intros [= <-]. eauto.
Qed.

(** Writing below a child of the staging directory keeps it a directory
    and touches nothing apart from it. *)
Lemma safe_staging stage t0 c : safe (staging_kept stage t0) (stage ++ [c]).
Proof.
  intros r. rewrite <-app_assoc. cbn [app]. split.
  - intros t v [Hdir Hframe]. split.
    + apply is_dir_update; [|done]. intros Hpre. apply list.prefix_length in Hpre.
      rewrite length_app in Hpre. cbn in Hpre. lia.
    + intros q Hq. rewrite get_update_apart; [by apply Hframe|].
      by apply apart_sym, apart_app_r, apart_sym.
  - intros t t' [Hdir Hframe]. unfold is_dir in Hdir.
    destruct (get t stage) as [[?|s]|] eqn:Hstage; try done.
    rewrite (mkdirs_app _ _ _ _ Hstage).
    destruct (mkdirs (Dir s) (c :: r)) as [n'|] eqn:Hmk; [|done].
    cbn. intros [= <-]. apply mkdirs_is_directory in Hmk as [s' ->]. split.
    + unfold is_dir. rewrite get_update_at by eauto. done.
    + intros q Hq. rewrite get_update_apart by done. by apply Hframe.
Qed.

Lemma monitoring_staging_fresh timestamp :
  "monitoring_backup_" +:+ timestamp +:+ ".tar.gz" ≠ "monitoring_" +:+ timestamp.
Proof. names_differ. Qed.

Section Monitoring.
Variables (E : environment) (self : TelecomBackup) (timestamp : string).
Variables (t0 : node) (tr0 : list event).

#[local] Abbreviation stage := (backup_dir self ++ ["monitoring_" +:+ timestamp]).
#[local] Abbreviation kept := (inv (staging_kept stage t0) (λ _, True) tr0).

Lemma backup_volumes_kept label errkey volumes : ∀ results,
  preserves kept (backup_volumes E stage label errkey results volumes).
Proof.
  assert (∀ lvl msg, (λ _ : event, True) (Log lvl msg)) as Hlog by done.
  induction volumes as [|v volumes IH]; intros results; [apply preserves_ret|].
  pose proof (safe_staging stage t0 (name v)) as Hsafe.
  cbn [backup_volumes]. repeat keeps_step. apply IH.
Qed.

(** What comes between the creation of the staging directory and the
    archive: it ends, with the staging directory still a directory and
    nothing apart from it changed. *)
Lemma monitoring_passes_kept {B} (k : list (string * string) → M B) w :
  kept w →
  ∃ results w',
    kept w' ∧
    (ex ← path_exists volumes_dir;
     backup_results ←
       (if (ex : bool) then
          volumes ← glob volumes_dir "*prometheus*";
          backup_volumes E stage "prometheus_volume_" "prometheus_data" [] volumes
        else mret []);
     ex ← path_exists volumes_dir;
     backup_results ←
       (if (ex : bool) then
          volumes ← glob volumes_dir "*grafana*";
          backup_volumes E stage "grafana_volume_" "grafana_data" backup_results volumes
        else mret backup_results);
     backup_results ←
       try_ (let grafana_export_dir := stage ++ ["grafana_export"] in
             mkdir true true grafana_export_dir;;
             ex ← path_exists dashboards_dir;
             if (ex : bool) then
               copytree E dashboards_dir (grafana_export_dir ++ ["dashboards"]) true;;
               mret (Dict.set backup_results "grafana_dashboards" "success")
             else mret backup_results)
            (λ e, mret (Dict.set backup_results "grafana_dashboards"
                          ("error: " +:+ str_exn e)));
     k backup_results) w
    = k results w'.
Proof.
  assert (∀ lvl msg, (λ _ : event, True) (Log lvl msg)) as Hlog by done.
  pose proof (safe_staging stage t0 "grafana_export") as Hsafe.
  intros Hw.
  destruct (run_kept kept (path_exists volumes_dir) w Hw) as (ex1 & w1 & Hw1 & Hrun1);
    [apply preserves_path_exists|apply returns_path_exists|].
  erewrite bind_ok; [|exact Hrun1].
  assert (∀ label errkey pat (results : list (string * string)) (ex : bool) w,
            kept w →
            ∃ r w', kept w' ∧
              (if ex then
                 volumes ← glob volumes_dir pat;
                 backup_volumes E stage label errkey results volumes
               else mret results) w = (Ok r, w')) as Hpass.
  { intros label errkey pat results ex w0 Hw0. apply run_kept; [done|..].
    - destruct ex; [|apply preserves_ret].
      apply preserves_bind; [apply preserves_glob|]. intros ?. apply backup_volumes_kept.
    - destruct ex; [|apply returns_ret].
      apply returns_bind; [apply returns_glob|]. intros ?. apply backup_volumes_returns. }
  destruct (Hpass "prometheus_volume_" "prometheus_data" "*prometheus*" [] ex1 w1 Hw1)
    as (r1 & w2 & Hw2 & Hrun2).
  erewrite bind_ok; [|exact Hrun2].
  destruct (run_kept kept (path_exists volumes_dir) w2 Hw2) as (ex2 & w3 & Hw3 & Hrun3);
    [apply preserves_path_exists|apply returns_path_exists|].
  erewrite bind_ok; [|exact Hrun3].
  destruct (Hpass "grafana_volume_" "grafana_data" "*grafana*" r1 ex2 w3 Hw3)
    as (r2 & w4 & Hw4 & Hrun4).
  erewrite bind_ok; [|exact Hrun4].
  assert (∃ r3 w5, kept w5 ∧
            try_ (let grafana_export_dir := stage ++ ["grafana_export"] in
                  mkdir true true grafana_export_dir;;
                  ex ← path_exists dashboards_dir;
                  if (ex : bool) then
                    copytree E dashboards_dir (grafana_export_dir ++ ["dashboards"]) true;;
                    mret (Dict.set r2 "grafana_dashboards" "success")
                  else mret r2)
                 (λ e, mret (Dict.set r2 "grafana_dashboards" ("error: " +:+ str_exn e))) w4
            = (Ok r3, w5)) as (r3 & w5 & Hw5 & Hrun5).
  { apply run_kept; [done|repeat keeps_step|].
    apply returns_try. intros e. apply returns_ret. }
  erewrite bind_ok; [|exact Hrun5]. by exists r3, w5.
Qed.
End Monitoring.

(** The monitoring backup ends, whatever happens to the volumes and the
    dashboards. *)
Lemma backup_monitoring_data_run E self timestamp w es :
  get (fs w) (backup_dir self) = Some (Dir es) →
  es !! ("monitoring_" +:+ timestamp) = None →
  (∀ ds, es !! ("monitoring_backup_" +:+ timestamp +:+ ".tar.gz") ≠ Some (Dir ds)) →
  ∃ results w' n,
    backup_monitoring_data E self timestamp w = (Ok results, w') ∧
    get (fs w') (backup_dir self ++ ["monitoring_backup_" +:+ timestamp +:+ ".tar.gz"])
      = Some (File (clock E) (TarGz [("monitoring_" +:+ timestamp, n)])) ∧
    get (fs w') (backup_dir self ++ ["monitoring_" +:+ timestamp]) = None ∧
    ∀ q, apart (backup_dir self ++ ["monitoring_" +:+ timestamp]) q →
         apart (backup_dir self ++ ["monitoring_backup_" +:+ timestamp +:+ ".tar.gz"]) q →
         get (fs w') q = get (fs w) q.
Proof.
  intros Hbd Hfresh Harch.
  set (mon := "monitoring_" +:+ timestamp).
  set (arch := "monitoring_backup_" +:+ timestamp +:+ ".tar.gz").
  set (stage := backup_dir self ++ [mon]). set (archp := backup_dir self ++ [arch]).
  assert (arch ≠ mon) as Hne by apply monitoring_staging_fresh.
  assert (is_Some (get (fs w) (backup_dir self))) as Hsome by eauto.
  set (t0 := update (fs w) (backup_dir self) (Some (Dir (<[mon := Dir ∅]> es)))).
  assert (apart stage archp) as Hsa by (apply apart_cons_ne; congruence).
  assert (∀ q, apart stage q → get t0 q = get (fs w) q) as Hframe0.
  { intros q Hq. unfold t0.
    assert (Dir (<[mon := Dir ∅]> es) = update (Dir es) [mon] (Some (Dir ∅))) as -> by done.
    rewrite <-(update_app _ _ _ _ _ Hbd) by done. by apply get_update_apart. }
  unfold backup_monitoring_data.
  erewrite bind_ok; [|reflexivity]. cbv beta zeta.
  erewrite bind_ok.
  2:{ unfold mkdir, modify_fs, logger, tell, emit. cbn [fs trace].
      erewrite (fs_mkdir_at _ _ _ Hbd).
      2:{ unfold fs_mkdir. cbn [get mkdirs]. rewrite Hfresh. done. }
      reflexivity. }
  unfold with_fs. cbn [fs trace]. fold mon arch stage archp t0.
  set (w1 := {| fs := _; trace := _ |}).
  assert (inv (staging_kept stage t0) (λ _, True) (trace w1) w1) as Hw1.
  { split; [|exists []; by rewrite app_nil_r]. split; [|done].
    unfold is_dir, w1, stage. cbn [fs]. rewrite get_mount by done. cbn [get].
    by rewrite lookup_insert_eq. }
  destruct (monitoring_passes_kept E self timestamp t0 (trace w1)
              (λ backup_results,
                 tar_create E archp stage mon;;
                 rmtree stage;;
                 logger INFO ("Monitoring backup completed: " +:+ str_path archp);;
                 mret backup_results) w1 Hw1)
    as (results & w2 & Hw2 & Hrun).
  unfold volumes_dir, dashboards_dir in Hrun. cbv zeta in Hrun.
  destruct Hw2 as [[Hdir Hframe] _].
  change (is_dir (fs w2) stage = true) in Hdir.
  change (∀ q, apart stage q → get (fs w2) q = get t0 q) in Hframe.
  unfold is_dir in Hdir. destruct (get (fs w2) stage) as [[?|n]|] eqn:Hstage; try done.
  assert (∃ es2, get (fs w2) (backup_dir self) = Some (Dir es2)) as [es2 Hbd2].
  { unfold stage in Hstage. rewrite get_app in Hstage.
    destruct (get (fs w2) (backup_dir self)) as [[?|es2]|]; try done. eauto. }
  assert (parent archp = backup_dir self) as Hpar by apply parent_snoc.
  assert (get (fs w2) archp = es !! arch) as Hold.
  { rewrite Hframe by done. rewrite Hframe0 by done.
    unfold archp. rewrite (get_at _ _ _ Hbd). cbn [get]. by destruct (es !! arch). }
  assert (archp ≠ []) as Hnil by (unfold archp; by destruct (backup_dir self)).
  set (final := update (update (fs w2) archp
                          (Some (File (clock E) (TarGz [(mon, Dir n)])))) stage None).
  assert (∃ tr, (tar_create E archp stage mon;;
                 rmtree stage;;
                 logger INFO ("Monitoring backup completed: " +:+ str_path archp);;
                 mret results) w2 = (Ok results, {| fs := final; trace := tr |}))
    as [tr Hend].
  { run_step. unfold fs_write at 1. rewrite Hold, Hpar, Hbd2.
    assert (∀ f, match es !! arch with
                 | Some (Dir _) => Raise (IsADirectoryError archp)
                 | _ => Ok (update (fs w2) archp (Some f))
                 end = Ok (update (fs w2) archp (Some f))) as Hwrite.
    { intros f. destruct (es !! arch) as [[?|ds]|] eqn:Ha; try done. by destruct (Harch ds). }
    rewrite Hwrite. cbn [fs trace].
    rewrite get_update_apart, Hstage by by apply apart_sym.
    cbn [fs trace]. unfold fs_write.
    rewrite (get_update_new _ _ es2) by (by rewrite ?Hpar).
    rewrite Hpar.
    assert (is_dir (update (fs w2) archp (Some (File (clock E) (TarGz [])))) (backup_dir self)
            = true) as Hbd3.
    { apply is_dir_update; [|unfold is_dir; by rewrite Hbd2].
      intros Hpre. apply list.prefix_length in Hpre. unfold archp in Hpre.
      rewrite length_app in Hpre. cbn in Hpre. lia. }
    unfold is_dir in Hbd3. destruct (get (update (fs w2) archp _) (backup_dir self))
      as [[?|es3]|] eqn:Hbd3'; try done.
    cbn [fs trace]. rewrite update_twice by done.
    unfold fs_rmtree. rewrite get_update_apart, Hstage by by apply apart_sym.
    cbn [fs trace]. eexists. reflexivity. }
  exists results, {| fs := final; trace := tr |}, (Dir n).
  split; [etrans; [exact Hrun|exact Hend]|]. cbn [fs]. unfold final. split; [|split].
  - rewrite get_update_apart by done. by apply (get_update_new _ _ es2); rewrite ?Hpar.
  - apply get_update_removed. unfold stage. by destruct (backup_dir self).
  - intros q Hq Hq'. rewrite !get_update_apart by done.
    rewrite Hframe by done. by apply Hframe0.
Qed.

(** The monitoring backup on a host without docker volumes. *)
Lemma backup_monitoring_data_bare E self timestamp w es :
  get (fs w) (backup_dir self) = Some (Dir es) →
  es !! ("monitoring_" +:+ timestamp) = None →
  (∀ ds, es !! ("monitoring_backup_" +:+ timestamp +:+ ".tar.gz") ≠ Some (Dir ds)) →
  apart (backup_dir self) volumes_dir →
  apart (backup_dir self) dashboards_dir →
  exists_ (fs w) volumes_dir = false →
  ∃ tr,
    backup_monitoring_data E self timestamp w
    = (Ok (dashboards_result E (fs w)).1,
       {| fs := update (fs w) (backup_dir self)
                  (Some (Dir (<["monitoring_backup_" +:+ timestamp +:+ ".tar.gz" :=
                                  File (clock E)
                                    (TarGz [("monitoring_" +:+ timestamp,
                                             Dir {[ "grafana_export" :=
                                                      Dir (dashboards_result E (fs w)).2 ]})])]>
                                es)));
          trace := trace w ++ tr |}).
Proof.
  intros Hbd Hfresh Harch Hvol Hdash Hnovol.
  set (mon := "monitoring_" +:+ timestamp).
  set (arch := "monitoring_backup_" +:+ timestamp +:+ ".tar.gz").
  assert (arch ≠ mon) as Hne by apply monitoring_staging_fresh.
  assert (is_Some (get (fs w) (backup_dir self))) as Hsome by eauto.
  assert (∀ L, exists_ (update (fs w) (backup_dir self) (Some L)) volumes_dir = false)
    as Hnovol'.
  { intros L. unfold exists_. rewrite get_mount_apart by done. exact Hnovol. }
  assert (∀ L, get (update (fs w) (backup_dir self) (Some L)) dashboards_dir
               = get (fs w) dashboards_dir) as Hdash'
    by (intros L; by apply get_mount_apart).
  unfold backup_monitoring_data.
  erewrite bind_ok; [|reflexivity]. cbv beta zeta.
  erewrite bind_ok.
  2:{ unfold mkdir, modify_fs, logger, tell, emit. cbn [fs trace].
      erewrite (fs_mkdir_at _ _ _ Hbd).
      2:{ unfold fs_mkdir. cbn [get mkdirs]. rewrite Hfresh. cbn [from_option id]. done. }
      reflexivity. }
  unfold with_fs. cbn [fs trace]. fold mon arch volumes_dir dashboards_dir.
  erewrite bind_ok; [|reflexivity]. cbn [fs]. rewrite Hnovol'.
  erewrite bind_ok; [|reflexivity].
  erewrite bind_ok; [|reflexivity]. cbn [fs]. rewrite Hnovol'.
  erewrite bind_ok; [|reflexivity].
  set (export := (dashboards_result E (fs w)).2).
  set (report := (dashboards_result E (fs w)).1).
  set (w1 := {| fs := _; trace := _ |}).
  assert (∃ tr1,
    try_ (let grafana_export_dir := (backup_dir self ++ [mon]) ++ ["grafana_export"] in
          mkdir true true grafana_export_dir;;
          ex ← path_exists dashboards_dir;
          if (ex : bool) then
            copytree E dashboards_dir (grafana_export_dir ++ ["dashboards"]) true;;
            mret (Dict.set [] "grafana_dashboards" "success")
          else mret [])
         (λ e, mret (Dict.set [] "grafana_dashboards" ("error: " +:+ str_exn e))) w1
    = (Ok report,
       {| fs := update (fs w) (backup_dir self)
                  (Some (Dir (<[mon := Dir {[ "grafana_export" := Dir export ]}]> es)));
          trace := trace w1 ++ tr1 |})) as [tr1 Hexport].
  { exists []. rewrite app_nil_r.
    unfold try_. cbv zeta. rewrite <-!app_assoc. cbn [app].
    erewrite bind_ok.
    2:{ unfold mkdir, modify_fs. subst w1. cbn [fs trace].
        erewrite fs_mkdir_mount; [|done|].
        2:{ unfold fs_mkdir. cbn [get]. rewrite lookup_insert_eq, lookup_empty.
            cbn [mkdirs]. rewrite lookup_insert_eq. cbn [default from_option id mkdirs].
            rewrite lookup_empty. cbn [default from_option id]. rewrite insert_insert_eq.
            reflexivity. }
        reflexivity. }
    unfold with_fs. cbn [fs trace]. rewrite insert_empty.
    run_step. unfold exists_ at 1. rewrite !Hdash'.
    subst export report. unfold dashboards_result.
    destruct (get (fs w) dashboards_dir) as [[m d|ds]|] eqn:Hsrc; cbn [fst snd fs trace].
    - destruct (io_fault E dashboards_dir) as [e|]; cbn [fst snd fs trace];
        rewrite ?Hdash', ?Hsrc; reflexivity.
    - destruct (io_fault E dashboards_dir) as [e|]; cbn [fst snd fs trace];
        rewrite ?Hdash', ?Hsrc; [reflexivity|].
      unfold exists_. rewrite get_mount by done. cbn [get].
      rewrite lookup_insert_eq, lookup_singleton_eq, lookup_empty. cbn [andb fs trace].
      erewrite fs_makedirs_mount; [|done|].
      2:{ unfold fs_makedirs. cbn [mkdirs]. rewrite lookup_insert_eq.
          cbn [default from_option id mkdirs]. rewrite lookup_singleton_eq.
          cbn [default from_option id mkdirs]. rewrite lookup_empty.
          cbn [default from_option id]. reflexivity. }
      cbn [fs trace]. rewrite get_mount by done. cbn [get].
      rewrite !lookup_insert_eq, graft_empty.
      rewrite update_mount by done. cbn [update fs trace]. repeat f_equal.
      rewrite alter_insert_eq, insert_insert_eq. by do 2 f_equal.
    - reflexivity. }
  erewrite bind_ok; [|exact Hexport].
  set (stage := backup_dir self ++ [mon]).
  run_step.
  erewrite fs_write_mount; [|done|].
  2:{ unfold fs_write. cbn [get parent removelast]. rewrite lookup_insert_ne by done.
      destruct (es !! arch) as [[m d|ds]|] eqn:Hold; [done| |done]. by destruct (Harch ds). }
  cbn [fs trace update]. unfold stage. rewrite get_mount by done. cbn [get].
  rewrite lookup_partial_alter_ne, lookup_insert_eq by done. cbn [fs trace].
  erewrite fs_write_mount; [|done|].
  2:{ unfold fs_write. cbn [get parent removelast]. rewrite lookup_partial_alter_eq. done. }
  cbn [fs trace update].
  erewrite fs_rmtree_mount; [|done|].
  2:{ unfold fs_rmtree. cbn [get].
      rewrite !lookup_partial_alter_ne, lookup_insert_eq by done. done. }
  cbn [fs trace update]. eexists.
  f_equal. f_equal; [|subst w1; cbn [trace]; rewrite <-!app_assoc; reflexivity].
  do 3 f_equal. apply map_eq. intros k.
  destruct (decide (k = mon)) as [->|Hk].
  - rewrite lookup_partial_alter_eq, lookup_insert_ne by done. done.
  - rewrite lookup_partial_alter_ne by done.
    destruct (decide (k = arch)) as [->|Hk'].
    + by rewrite !lookup_partial_alter_eq, lookup_insert_eq.
    + rewrite !lookup_partial_alter_ne by done. by rewrite !lookup_insert_ne.
Qed.
(** * The claims *)

(** C7. For every timestamp and restore type: when nothing lies at the
    archive path under the backup root, the restore returns [False], the
    file system is left exactly as it was, and the run adds nothing but
    log lines to the trace, so no command touched a database. *)
Theorem restore_without_archive E self type timestamp service database w :
  exists_ (fs w) (backup_dir self ++ [archive_of type timestamp]) = false →
  ∃ w', restore E self type timestamp service database w = (Ok false, w') ∧
        fs w' = fs w ∧
        ∃ tr, trace w' = trace w ++ tr ∧ only_logs tr.
Proof.
  intros Hmissing. destruct type; cbn [archive_of restore] in *.
  - unfold restore_configuration. run_step. rewrite Hmissing. world_simpl.
    eexists. split; [done|]. split; [done|]. world_simpl.
    eexists. split; [by rewrite <-app_assoc|].
    repeat apply only_logs_cons. apply only_logs_nil.
  - unfold restore_database. run_step. rewrite Hmissing. world_simpl.
    eexists. split; [done|]. split; [done|]. world_simpl.
    eexists. split; [by rewrite <-app_assoc|].
    repeat apply only_logs_cons. apply only_logs_nil.
Qed.

Lemma restore_without_archive_witness :
  ∃ w', restore Lab.env Lab.tool Database "19990101_000000" None (Some "radius") Lab.started
          = (Ok false, w') ∧
        fs w' = fs Lab.started ∧
        ∃ tr, trace w' = trace Lab.started ++ tr ∧ only_logs tr.
Proof.
  apply (restore_without_archive Lab.env Lab.tool Database "19990101_000000"
           None (Some "radius") Lab.started).
  vm_compute. reflexivity.
Defined.

(** C4. When [systemctl is-active mariadb] exits non-zero, the database
    backup returns the single outcome [database_service: not_running]; the
    liveness check is the only command of the run, so no dump is attempted
    for any configured database. *)
Theorem backup_databases_service_down E self timestamp w t1 r :
  fs_mkdir true true (backup_dir self ++ ["database_" +:+ timestamp]) (fs w) = Ok t1 →
  spawn E ["systemctl"; "is-active"; "mariadb"] None = Ok r →
  returncode r ≠ 0 →
  backup_databases E self timestamp w =
    (Ok [("database_service", "not_running")],
     {| fs := t1;
        trace := trace w ++ [ Log INFO "Starting database backup...";
                              Exec ["systemctl"; "is-active"; "mariadb"];
                              Log ERROR "MariaDB service is not running" ] |}).
Proof.
  intros Hmk Hrun Hrc. unfold backup_databases. run_step.
  rewrite Hmk. world_simpl. rewrite Hrun. world_simpl.
  destruct (Z.eqb_spec (returncode r) 0) as [?|_]; [done|]. world_simpl.
  by rewrite <-!app_assoc.
Qed.

Lemma backup_databases_service_down_witness :
  ∃ t1, backup_databases Lab.env_db_down Lab.tool Lab.stamp0 Lab.started =
          (Ok [("database_service", "not_running")],
           {| fs := t1;
              trace := trace Lab.started ++
                         [ Log INFO "Starting database backup...";
                           Exec ["systemctl"; "is-active"; "mariadb"];
                           Log ERROR "MariaDB service is not running" ] |}).
Proof.
  eexists.
  apply (backup_databases_service_down Lab.env_db_down Lab.tool Lab.stamp0 Lab.started
           _ (Completed 3 "inactive" "")).
  - vm_compute. reflexivity.
  - reflexivity.
  - discriminate.
Defined.

(** C3, as the code has it.  On the lab host after a full backup, a
    configuration restore naming a service the archive does not hold, and
    a database restore that meets the missing dump of [radius], both
    return [False] and both leave their extraction directory behind under
    the backup root: the early [return False] skips [shutil.rmtree]. *)
Theorem restore_leaves_staging_behind :
  init Lab.root Lab.boot = (Ok Lab.tool, Lab.started) ∧
  (let run := restore_configuration Lab.env Lab.tool Lab.stamp0 (Some "kamailo")
                Lab.backed_up in
   run.1 = Ok false ∧
   is_dir (fs run.2) (Lab.root ++ ["temp_restore_" +:+ Lab.stamp0]) = true) ∧
  (let run := restore_database Lab.env Lab.tool Lab.stamp0 None
                Lab.backed_up_without_radius in
   run.1 = Ok false ∧
   is_dir (fs run.2) (Lab.root ++ ["temp_db_restore_" +:+ Lab.stamp0]) = true).
Proof. vm_compute. done. Qed.

(** C6. With the configured databases [a; b; c]: when the dump of [a]
    restores cleanly and [mysql] exits non-zero on the dump of [b], the
    database restore returns [False] and the commands it has run are the
    restore of [a] and the restore of [b]; none is run for [c]. *)
Theorem restore_database_fail_fast E self timestamp w dumps a b c :
  db_databases self = [a; b; c] →
  database_archive_ready self timestamp dumps (fs w) →
  restores_cleanly E self timestamp dumps a →
  restore_fails E self timestamp dumps b →
  ∃ w' tr, restore_database E self timestamp None w = (Ok false, w') ∧
           trace w' = trace w ++ tr ∧
           commands tr = [mysql_restore self a; mysql_restore self b].
Proof.
  intros Hdbs Hready Ha Hb.
  destruct (restore_database_stops E self timestamp None w dumps [a] b [c])
    as (w' & tr & Hrun & Htr & Hcmds & _); eauto.
  exists w', tr. eauto.
Qed.

Lemma restore_database_fail_fast_witness :
  ∃ w' tr, restore_database Lab.env_import_fails Lab.tool Lab.stamp0 None Lab.backed_up
             = (Ok false, w') ∧
           trace w' = trace Lab.backed_up ++ tr ∧
           commands tr = [mysql_restore Lab.tool "kamailio"; mysql_restore Lab.tool "radius"].
Proof.
  apply (restore_database_fail_fast Lab.env_import_fails Lab.tool Lab.stamp0 Lab.backed_up
           Lab.dumps "kamailio" "radius" "mysql").
  - reflexivity.
  - do 2 eexists. split; [vm_compute; reflexivity|]. split; vm_compute; reflexivity.
  - do 3 eexists. split; [vm_compute; reflexivity|]. split; vm_compute; reflexivity.
  - do 3 eexists. split; [vm_compute; reflexivity|]. split; [vm_compute; reflexivity|].
    vm_compute. discriminate.
Defined.

(** C10. A database restore that comes to a database whose dump
    [{db}_{timestamp}.sql.gz] is not in the extracted archive returns
    [False] at once: the commands it has run are the restores of the
    databases before it, none for it or for those after it.  A
    configuration restore is not stopped by registered paths absent from
    the staged tree: when the staged copy of every path it goes through
    is absent it still returns [True], and leaves the file system as it
    was. *)
Theorem missing_dump_aborts_absent_path_skipped E self timestamp :
  (∀ database w dumps done d rest,
     databases_to_restore self database = done ++ d :: rest →
     database_archive_ready self timestamp dumps (fs w) →
     Forall (restores_cleanly E self timestamp dumps) done →
     dumps !! dump_name d timestamp = None →
     ∃ w' tr, restore_database E self timestamp database w = (Ok false, w') ∧
              trace w' = trace w ++ tr ∧
              commands tr = mysql_restore self <$> done) ∧
  (∀ service w staged,
     config_archive_ready self timestamp staged (fs w) →
     (∀ s, truthy service = Some s → is_Some (staged !! s)) →
     (∀ s p, s ∈ services_to_restore self service → p ∈ paths_of self s →
             get (Dir staged) [s; name p] = None) →
     restore_configuration E self timestamp service w =
       (Ok true,
        {| fs := fs w;
           trace := trace w ++
             [ Log INFO ("Restoring configuration from backup: " +:+ timestamp);
               Log INFO "Configuration restore completed successfully" ] |})).
Proof.
  split.
  - intros database w dumps done d rest Hdbs Hready Hdone Hmiss.
    destruct (restore_database_stops E self timestamp database w dumps done d rest)
      as (w' & tr & Hrun & Htr & _ & Hcmds); eauto.
    exists w', tr. eauto.
  - intros service w staged. apply restore_configuration_all_absent.
Qed.

Lemma missing_dump_aborts_absent_path_skipped_witness :
  (∃ w' tr, restore_database Lab.env Lab.tool Lab.stamp0 None Lab.backed_up_without_radius
              = (Ok false, w') ∧
            trace w' = trace Lab.backed_up_without_radius ++ tr ∧
            commands tr = [mysql_restore Lab.tool "kamailio"]) ∧
  restore_configuration Lab.env Lab.tool Lab.stamp0 (Some "freeradius") Lab.backed_up =
    (Ok true,
     {| fs := fs Lab.backed_up;
        trace := trace Lab.backed_up ++
          [ Log INFO ("Restoring configuration from backup: " +:+ Lab.stamp0);
            Log INFO "Configuration restore completed successfully" ] |}).
Proof.
  split.
  - apply (proj1 (missing_dump_aborts_absent_path_skipped Lab.env Lab.tool Lab.stamp0)
             None Lab.backed_up_without_radius Lab.dumps_without_radius
             ["kamailio"] "radius" ["mysql"]).
    + reflexivity.
    + do 2 eexists. split; [vm_compute; reflexivity|]. split; vm_compute; reflexivity.
    + constructor; [|constructor].
      do 3 eexists. split; [vm_compute; reflexivity|]. split; vm_compute; reflexivity.
    + vm_compute. reflexivity.
  - apply (proj2 (missing_dump_aborts_absent_path_skipped Lab.env Lab.tool Lab.stamp0)
             (Some "freeradius") Lab.backed_up Lab.staged).
    + do 2 eexists. split; [vm_compute; reflexivity|]. split; vm_compute; reflexivity.
    + intros s Hs. injection Hs as <-. vm_compute. eauto.
    + intros s p Hs Hp. apply list_elem_of_singleton in Hs as ->.
      apply list_elem_of_singleton in Hp as ->. vm_compute. reflexivity.
Defined.

(** C2. A full backup on a host whose backup root is a directory, with no
    directory in the place of the metadata file: the run returns, the file
    [backup_metadata_{timestamp}.json] of its timestamp holds the record
    it returns, no metadata file of another timestamp is touched, and in
    the trace the one writing of a metadata file comes after the
    configuration, database and monitoring components have each announced
    themselves, whatever became of them. *)
Theorem full_backup_writes_metadata E self w es :
  get (fs w) (backup_dir self) = Some (Dir es) →
  (∀ ds, es !! metadata_name (stamp E) ≠ Some (Dir ds)) →
  ∃ info w' tr1 tr2 tr3,
    create_full_backup E self w = (Ok info, w') ∧
    get (fs w') (backup_dir self ++ [metadata_name (stamp E)])
      = Some (File (clock E) (Json info)) ∧
    (∀ timestamp, timestamp ≠ stamp E →
       get (fs w') (backup_dir self ++ [metadata_name timestamp])
         = get (fs w) (backup_dir self ++ [metadata_name timestamp])) ∧
    trace w' =
      trace w ++
        Log INFO ("Starting full backup with timestamp: " +:+ stamp E)
        :: Log INFO "Starting configuration backup..." :: tr1
        ++ Log INFO "Starting database backup..." :: tr2
        ++ Log INFO "Starting monitoring data backup..." :: tr3
        ++ [ Open (backup_dir self ++ [metadata_name (stamp E)]);
             Log INFO ("Full backup completed. Metadata saved to: "
                       +:+ str_path (backup_dir self ++ [metadata_name (stamp E)])) ] ∧
    Forall (no_metadata_write (backup_dir self)) (tr1 ++ tr2 ++ tr3).
Proof.
  intros Hbd Hnodir.
  destruct (components_attempted E self es) as (Hc & Hd & Hm).
  set (w1 := emit w (Log INFO ("Starting full backup with timestamp: " +:+ stamp E))).
  assert (root_keeps (backup_dir self) es is_metadata_name (fs w1)) as HP0
    by (exists es; done).
  destruct (Hc w1 HP0) as (r1 & tr1 & w2 & Hrun1 & HP1 & Htr1 & HQ1).
  destruct (Hd w2 HP1) as (r2 & tr2 & w3 & Hrun2 & HP2 & Htr2 & HQ2).
  destruct (Hm w3 HP2) as (r3 & tr3 & w4 & Hrun3 & (es4 & Hbd4 & Hkeep) & Htr3 & HQ3).
  unfold create_full_backup.
  erewrite bind_ok; [|reflexivity]. cbv beta.
  erewrite bind_ok; [|reflexivity]. cbv beta.
  erewrite bind_ok; [|exact Hrun1]. cbv beta.
  erewrite bind_ok; [|exact Hrun2]. cbv beta.
  erewrite bind_ok; [|exact Hrun3]. cbv beta zeta.
  set (info := backup_info _ _ _).
  assert (es4 !! metadata_name (stamp E) = es !! metadata_name (stamp E)) as Hmeta
    by (apply Hkeep; by eexists).
  run_step.
  erewrite (fs_write_at _ _ _ Hbd4 _ _ _
              (Dir (<[metadata_name (stamp E) := File (clock E) (Json info)]> es4))).
  2:{ unfold fs_write. cbn [get parent removelast]. rewrite Hmeta.
      destruct (es !! metadata_name (stamp E)) as [[m d|ds]|] eqn:Hold; try done.
      by destruct (Hnodir ds). }
  cbn [fs trace].
  exists info. eexists. exists tr1, tr2, tr3. split; [done|]. cbn [fs trace].
  assert (is_Some (get (fs w4) (backup_dir self))) as Hsome by eauto.
  split; [|split; [|split]].
  - rewrite get_mount by done. cbn [get]. by rewrite lookup_insert_eq.
  - intros timestamp Hts. rewrite get_mount by done. cbn [get].
    rewrite lookup_insert_ne by (intros Heq; by apply metadata_name_inj in Heq).
    rewrite Hkeep by by eexists. rewrite (get_at _ _ _ Hbd). done.
  - rewrite Htr3, Htr2, Htr1. subst w1. cbn [trace emit].
    rewrite <-!app_assoc. cbn [app]. done.
  - by rewrite !Forall_app.
Qed.


Lemma full_backup_writes_metadata_witness :
  ∃ info w' tr1 tr2 tr3,
    create_full_backup Lab.env_dump_fails Lab.tool Lab.started = (Ok info, w') ∧
    get (fs w') (Lab.root ++ [metadata_name Lab.stamp0])
      = Some (File (clock Lab.env) (Json info)) ∧
    (∀ timestamp, timestamp ≠ Lab.stamp0 →
       get (fs w') (Lab.root ++ [metadata_name timestamp])
         = get (fs Lab.started) (Lab.root ++ [metadata_name timestamp])) ∧
    trace w' =
      trace Lab.started ++
        Log INFO ("Starting full backup with timestamp: " +:+ Lab.stamp0)
        :: Log INFO "Starting configuration backup..." :: tr1
        ++ Log INFO "Starting database backup..." :: tr2
        ++ Log INFO "Starting monitoring data backup..." :: tr3
        ++ [ Open (Lab.root ++ [metadata_name Lab.stamp0]);
             Log INFO ("Full backup completed. Metadata saved to: "
                       +:+ str_path (Lab.root ++ [metadata_name Lab.stamp0])) ] ∧
    Forall (no_metadata_write Lab.root) (tr1 ++ tr2 ++ tr3).
Proof.
  apply (full_backup_writes_metadata Lab.env_dump_fails Lab.tool Lab.started ∅).
  - vm_compute. reflexivity.
  - intros ds. rewrite lookup_empty. discriminate.
Defined.
(** C8. With the backup root a directory in which what matches the
    archive pattern is a regular file (and no directory sits where the
    sweep looks for metadata): [cleanup_old_backups(keep_days)] returns
    the number of archives whose modification time is strictly before
    [now - keep_days]; afterwards exactly those are gone from the backup
    root, every other archive is there unchanged, and nothing outside the
    backup root has changed.  The count does not depend on whether a
    metadata file was found and removed. *)
Theorem cleanup_removes_old_archives E self keep_days w es :
  get (fs w) (backup_dir self) = Some (Dir es) →
  (∀ n ds, es !! n = Some (Dir ds) → fnmatch n archive_glob = false) →
  (∀ n ds, fnmatch n archive_glob = true → es !! metadata_of n ≠ Some (Dir ds)) →
  let cutoff := clock E - keep_days * day in
  ∃ w' es',
    cleanup_old_backups E self keep_days w
      = (Ok (length (filter (λ entry, is_old_archive cutoff entry = true) (map_to_list es))),
         w') ∧
    get (fs w') (backup_dir self) = Some (Dir es') ∧
    (∀ n m d, es !! n = Some (File m d) → fnmatch n archive_glob = true →
       es' !! n = if m <? cutoff then None else Some (File m d)) ∧
    (∀ q, apart (backup_dir self) q → get (fs w') q = get (fs w) q).
Proof.
  intros Hbd Hfiles Hmeta cutoff.
  assert (is_Some (get (fs w) (backup_dir self))) as Hsome by eauto.
  set (names := filter (λ n, Is_true (fnmatch n archive_glob)) (map_to_list es).*1).
  assert (NoDup names) as Hnodup by apply NoDup_filter, NoDup_fst_map_to_list.
  assert (∀ n, n ∈ names → fnmatch n archive_glob = true ∧ ∃ m d, es !! n = Some (File m d))
    as Hnames.
  { intros n [Hm Hn]%list_elem_of_filter. apply Is_true_true in Hm. split; [done|].
    apply list_elem_of_fmap in Hn as ([n' t] & -> & Hnt). apply elem_of_map_to_list in Hnt.
    cbn [fst] in *. destruct t as [m d|ds]; [eauto|]. rewrite (Hfiles _ _ Hnt) in Hm. done. }
  destruct (cleanup_loop E (fs w) (backup_dir self) cutoff Hsome names es 0%nat
              (trace w ++ [Log INFO ("Cleaning up backups older than " +:+ pretty keep_days
                                     +:+ " days...")]) Hnodup Hnames)
    as [tr Hloop].
  { intros n ds Hn. apply Hmeta. by apply Hnames. }
  rewrite (update_id _ _ _ Hbd) in Hloop.
  unfold cleanup_old_backups.
  erewrite bind_ok; [|reflexivity]. cbv beta zeta.
  erewrite bind_ok; [|reflexivity]. cbv beta.
  unfold children. cbn [fs emit]. rewrite Hbd.
  erewrite bind_ok; [|exact Hloop]. run_step.
  eexists _, (sweep cutoff es names). split; [|split; [|split]].
  - rewrite Nat.add_0_l, swept_count; [|done|by intros; apply Hnames].
    rewrite <-(count_old_archives cutoff es (map_to_list es)); [done|].
    intros n t. apply elem_of_map_to_list.
  - cbn [fs]. by apply get_update_at.
  - intros n m d Hn Hmatch.
    assert (n ∈ names) as Hin.
    { apply list_elem_of_filter. split; [by apply Is_true_true|].
      apply list_elem_of_fmap. exists (n, File m d). split; [done|].
      by apply elem_of_map_to_list. }
    destruct (m <? cutoff) eqn:Hage.
    + eapply sweep_removed; eauto; [by intros; apply Hnames|]. by rewrite Hn.
    + rewrite sweep_kept, Hn; [done|done|by intros; apply Hnames|].
      intros n' Hn' Hold. split.
      * intros <-. rewrite Hn in Hold. cbn in Hold. congruence.
      * intros Heq. pose proof (metadata_of_no_archive n') as Hno.
        rewrite <-Heq in Hno. congruence.
  - intros q Hq. cbn [fs]. by apply get_update_apart.
Qed.

Lemma cleanup_removes_old_archives_witness :
  ∃ w' es',
    cleanup_old_backups Lab.env_later Lab.tool 30 Lab.backed_up_twice
      = (Ok (length (filter (λ entry, is_old_archive (clock Lab.env_later - 30 * day) entry = true)
                       (map_to_list (Lab.shelf Lab.backed_up_twice)))),
         w') ∧
    get (fs w') Lab.root = Some (Dir es') ∧
    (∀ n m d, Lab.shelf Lab.backed_up_twice !! n = Some (File m d) →
       fnmatch n archive_glob = true →
       es' !! n = if m <? clock Lab.env_later - 30 * day then None else Some (File m d)) ∧
    (∀ q, apart Lab.root q → get (fs w') q = get (fs Lab.backed_up_twice) q).
Proof.
  assert (∀ n ds, Lab.shelf Lab.backed_up_twice !! n ≠ Some (Dir ds)) as Hfiles.
  { apply no_directory_among, map_Forall_to_list. vm_compute. repeat constructor. }
  apply (cleanup_removes_old_archives Lab.env_later Lab.tool 30 Lab.backed_up_twice
           (Lab.shelf Lab.backed_up_twice)).
  - vm_compute. reflexivity.
  - intros n ds Hn. by destruct (Hfiles n ds).
  - intros n ds _. apply Hfiles.
Defined.
(** C9. For an archive name the program creates, [kind_backup_ts.tar.gz]
    with [kind] one of config, database and monitoring and [ts] a
    timestamp of digits and underscores, the name the sweep derives is
    [kind_metadata_ts.json]; that is not the name [backup_metadata_ts.json]
    a full backup writes its metadata to, for any timestamp; a metadata
    name does not match the archive pattern; and so the sweep leaves what
    is at a metadata name in the backup root as it was, in every world. *)
Theorem cleanup_misses_metadata E self keep_days w kind timestamp :
  kind ∈ backup_kinds → stamp_like timestamp = true →
  metadata_of (archive_name kind timestamp)
    = kind +:+ "_metadata_" +:+ timestamp +:+ ".json" ∧
  (∀ timestamp', metadata_of (archive_name kind timestamp) ≠ metadata_name timestamp') ∧
  (∀ timestamp', fnmatch (metadata_name timestamp') archive_glob = false) ∧
  (∀ timestamp',
     get (fs (cleanup_old_backups E self keep_days w).2)
         (backup_dir self ++ [metadata_name timestamp'])
     = get (fs w) (backup_dir self ++ [metadata_name timestamp'])).
Proof.
  intros Hkind Hstamp. split; [by apply metadata_of_archive_name|].
  split; [intros ?; apply metadata_of_ne_metadata_name|].
  split; [apply metadata_name_no_archive|].
  intros ?. apply cleanup_keeps_metadata.
Qed.

Lemma cleanup_misses_metadata_witness :
  metadata_of (archive_name "database" Lab.stamp0)
    = "database" +:+ "_metadata_" +:+ Lab.stamp0 +:+ ".json" ∧
  (∀ timestamp', metadata_of (archive_name "database" Lab.stamp0) ≠ metadata_name timestamp') ∧
  (∀ timestamp', fnmatch (metadata_name timestamp') archive_glob = false) ∧
  (∀ timestamp',
     get (fs (cleanup_old_backups Lab.env_later Lab.tool 30 Lab.backed_up_twice).2)
         (backup_dir Lab.tool ++ [metadata_name timestamp'])
     = get (fs Lab.backed_up_twice) (backup_dir Lab.tool ++ [metadata_name timestamp'])).
Proof.
  apply (cleanup_misses_metadata Lab.env_later Lab.tool 30 Lab.backed_up_twice
           "database" Lab.stamp0).
  - vm_compute. set_solver.
  - vm_compute. reflexivity.
Defined.

(** C5. Let the backup root be a directory with no staging directory of
    this timestamp in it, the registered paths lie outside the backup
    root, and the keys [service_basename] of the registered pairs be
    distinct.  Then the configuration backup returns, its report has one
    entry per registered pair, in order, and the archive it writes holds
    the staged tree [stg], where for every pair: an absent path is
    reported [path_not_found] and has nothing in the archive; a path that
    is there and cannot be read is reported [error: ...] with the text of
    its exception, under its own key; and a path that is there and can be
    read is reported [success] and is in the archive as it is on disk.
    The outcome of a pair is a function of its own path alone, so a
    missing or failing path changes nothing for the others. *)
Theorem backup_configurations_outcomes E self timestamp w es :
  get (fs w) (backup_dir self) = Some (Dir es) →
  es !! ("config_" +:+ timestamp) = None →
  (∀ ds, es !! archive_of Config timestamp ≠ Some (Dir ds)) →
  Forall (λ pair, apart (backup_dir self) pair.2) (config_pairs self) →
  NoDup (result_key <$> config_pairs self) →
  ∃ results w' stg,
    backup_configurations E self timestamp w = (Ok results, w') ∧
    get (fs w') (backup_dir self ++ [archive_of Config timestamp])
      = Some (File (clock E) (TarGz [("config_" +:+ timestamp, Dir stg)])) ∧
    Dict.keys results = result_key <$> config_pairs self ∧
    ∀ service p, (service, p) ∈ config_pairs self →
      let key := result_key (service, p) in
      (exists_ (fs w) p = false →
         Dict.get results key = Some "path_not_found" ∧
         get (Dir stg) [service; name p] = None) ∧
      (exists_ (fs w) p = true → ∀ e, io_fault E p = Some e →
         Dict.get results key = Some ("error: " +:+ str_exn e) ∧
         get (Dir stg) [service; name p] = None) ∧
      (exists_ (fs w) p = true → io_fault E p = None →
         Dict.get results key = Some "success" ∧
         get (Dir stg) [service; name p] = get (fs w) p).
Proof.
  intros Hbd Hfresh Harch Hapart Hnodup.
  destruct (backup_configurations_run E self timestamp w es Hbd Hfresh Harch Hapart Hnodup)
    as (tr & stg & Hrun & Hinv).
  eexists _, _, stg. split; [exact Hrun|]. cbn [fs].
  split; [|split].
  - rewrite get_mount by eauto. cbn [get]. by rewrite lookup_insert_eq.
  - unfold Dict.keys, report. rewrite <-list_fmap_compose. done.
  - intros service p Hin.
    pose proof (report_get E (fs w) _ _ Hnodup Hin) as Hget.
    pose proof (staged_for_get E (fs w) _ _ _ _ Hnodup Hinv Hin) as Hstg.
    cbn [snd] in Hget. rewrite Hget, Hstg.
    unfold outcome, copied, exists_.
    destruct (get (fs w) p) as [x|]; destruct (io_fault E p) as [e|]; repeat split;
      try done; intros; simplify_eq; done.
Qed.

Lemma backup_configurations_outcomes_witness :
  ∃ results w' stg,
    backup_configurations Lab.env_unreadable Lab.tool Lab.stamp0 Lab.started = (Ok results, w') ∧
    get (fs w') (backup_dir Lab.tool ++ [archive_of Config Lab.stamp0])
      = Some (File (clock Lab.env_unreadable)
                   (TarGz [("config_" +:+ Lab.stamp0, Dir stg)])) ∧
    Dict.keys results = result_key <$> config_pairs Lab.tool ∧
    ∀ service p, (service, p) ∈ config_pairs Lab.tool →
      let key := result_key (service, p) in
      (exists_ (fs Lab.started) p = false →
         Dict.get results key = Some "path_not_found" ∧
         get (Dir stg) [service; name p] = None) ∧
      (exists_ (fs Lab.started) p = true → ∀ e, io_fault Lab.env_unreadable p = Some e →
         Dict.get results key = Some ("error: " +:+ str_exn e) ∧
         get (Dir stg) [service; name p] = None) ∧
      (exists_ (fs Lab.started) p = true → io_fault Lab.env_unreadable p = None →
         Dict.get results key = Some "success" ∧
         get (Dir stg) [service; name p] = get (fs Lab.started) p).
Proof.
  apply (backup_configurations_outcomes Lab.env_unreadable Lab.tool Lab.stamp0 Lab.started ∅).
  - vm_compute. reflexivity.
  - apply lookup_empty.
  - intros ds. rewrite lookup_empty. discriminate.
  - apply (bool_decide_unpack _). vm_compute. exact I.
  - apply (bool_decide_unpack _). vm_compute. exact I.
Defined.

(** C1. Let a service have a single registered path [p], a directory on
    disk that can be read, and let the configuration backup at
    [timestamp] run from a backup root with no staging or extraction
    directory of that timestamp (registered paths outside the backup
    root, keys distinct).  The backup returns; and whatever the live
    directory [p] has been changed to since, as long as it is still a
    directory, restoring that service from [timestamp] returns [True] and
    leaves at [p] the directory as it was when backed up: every file
    below it has the content and the modification time it had. *)
Theorem backup_restore_round_trip E E' self timestamp w es service p live :
  get (fs w) (backup_dir self) = Some (Dir es) →
  es !! ("config_" +:+ timestamp) = None →
  es !! ("temp_restore_" +:+ timestamp) = None →
  (∀ ds, es !! archive_of Config timestamp ≠ Some (Dir ds)) →
  Forall (λ pair, apart (backup_dir self) pair.2) (config_pairs self) →
  NoDup (result_key <$> config_pairs self) →
  service ≠ "" →
  Dict.get (config_paths self) service = Some [p] →
  get (fs w) p = Some (Dir live) →
  io_fault E p = None →
  io_fault E' (backup_dir self
               ++ ["temp_restore_" +:+ timestamp; "config_" +:+ timestamp; service; name p])
    = None →
  ∃ results w1,
    backup_configurations E self timestamp w = (Ok results, w1) ∧
    ∀ changed tr,
      ∃ w3,
        restore_configuration E' self timestamp (Some service)
          {| fs := update (fs w1) p (Some (Dir changed)); trace := tr |} = (Ok true, w3) ∧
        get (fs w3) p = Some (Dir live) ∧
        ∀ f m d, get (fs w) (p ++ f) = Some (File m d) →
                 get (fs w3) (p ++ f) = Some (File m d).
Proof.
  intros Hbd Hfresh Htmp Harch Hapart Hnodup Hservice Hpaths Hlive Hio Hio'.
  destruct (backup_configurations_run E self timestamp w es Hbd Hfresh Harch Hapart Hnodup)
    as (tr1 & stg & Hrun & Hinv).
  eexists _, _. split; [exact Hrun|]. cbn [fs]. intros changed tr.
  assert ((service, p) ∈ config_pairs self) as Hin.
  { eapply pairs_of_get; [exact Hpaths|]. by left. }
  assert (apart (backup_dir self) p) as Hp
    by exact (proj1 (Forall_forall _ _) Hapart _ Hin).
  assert (is_Some (get (fs w) (backup_dir self))) as Hsome by eauto.
  destruct Hinv as (_ & _ & Hc).
  destruct (Hc service p (Dir live) Hin) as (sub & Hsvc & Hsub).
  { unfold copied. by rewrite Hio. }
  set (t1 := update (fs w) (backup_dir self) _).
  assert (get t1 p = Some (Dir live)) as Hlive1.
  { unfold t1. by rewrite get_mount_apart. }
  destruct (restore_configuration_service_dir E' self timestamp service p
              {| fs := update t1 p (Some (Dir changed)); trace := tr |}
              stg sub live changed) as (w3 & Hrestore & Hp3); try done.
  - eexists _, _. cbn [fs]. split; [|split].
    + rewrite get_update_apart by by apply apart_sym.
      unfold t1. by apply get_update_at.
    + by rewrite lookup_insert_eq.
    + rewrite lookup_insert_ne by (intros Heq; symmetry in Heq; by apply restore_name_fresh in Heq).
      done.
  - cbn [fs]. apply get_update_at. eauto.
  - exists w3. split; [done|]. split; [done|].
    intros f m d. by rewrite !get_app, Hp3, Hlive.
Qed.

Lemma backup_restore_round_trip_witness :
  ∃ results w1,
    backup_configurations Lab.env Lab.tool Lab.stamp0 Lab.started = (Ok results, w1) ∧
    ∀ changed tr,
      ∃ w3,
        restore_configuration Lab.env Lab.tool Lab.stamp0 (Some "kamailio")
          {| fs := update (fs w1) ["etc"; "kamailio"] (Some (Dir changed)); trace := tr |}
          = (Ok true, w3) ∧
        get (fs w3) ["etc"; "kamailio"]
          = Some (Dir {[ "a.cfg" := File 1600000000000000 (Raw "listen=udp:10.0.0.1:5060") ]}) ∧
        ∀ f m d, get (fs Lab.started) (["etc"; "kamailio"] ++ f) = Some (File m d) →
                 get (fs w3) (["etc"; "kamailio"] ++ f) = Some (File m d).
Proof.
  apply (backup_restore_round_trip Lab.env Lab.env Lab.tool Lab.stamp0 Lab.started ∅
           "kamailio" ["etc"; "kamailio"]).
  - vm_compute. reflexivity.
  - apply lookup_empty.
  - apply lookup_empty.
  - intros ds. rewrite lookup_empty. discriminate.
  - apply (bool_decide_unpack _). vm_compute. exact I.
  - apply (bool_decide_unpack _). vm_compute. exact I.
  - discriminate.
  - reflexivity.
  - vm_compute. reflexivity.
  - reflexivity.
  - reflexivity.
Defined.
(** * Further properties of the program *)

(** ** Retention sweep *)

(** X1. Next to every archive it removes, the sweep removes the entry
    whose name the two replacements derive from the archive's name; every
    other entry of the backup root is left as it was. *)
Theorem cleanup_directory_afterwards E self keep_days w es :
  get (fs w) (backup_dir self) = Some (Dir es) →
  (∀ n ds, es !! n = Some (Dir ds) → fnmatch n archive_glob = false) →
  (∀ n ds, fnmatch n archive_glob = true → es !! metadata_of n ≠ Some (Dir ds)) →
  let cutoff := clock E - keep_days * day in
  ∃ count w' es',
    cleanup_old_backups E self keep_days w = (Ok count, w') ∧
    get (fs w') (backup_dir self) = Some (Dir es') ∧
    (∀ n, is_old cutoff es n = true → es' !! n = None ∧ es' !! metadata_of n = None) ∧
    (∀ k, (∀ n, is_old cutoff es n = true → k ≠ n ∧ k ≠ metadata_of n) →
          es' !! k = es !! k).
Proof.
  intros Hbd Hfiles Hmeta cutoff.
  destruct (cleanup_run E self keep_days w es Hbd Hfiles Hmeta) as [tr Hrun].
  fold cutoff in Hrun. eexists _, _, _. split; [exact Hrun|]. cbn [fs].
  split; [apply get_update_at; eauto|].
  assert (∀ j, j ∈ archive_names es → fnmatch j archive_glob = true) as Hmatch
    by by intros j [? _]%archive_names_spec.
  assert (∀ n, is_old cutoff es n = true → n ∈ archive_names es ∧ aged cutoff (es !! n) = true)
    as Hold.
  { intros n [Hm Haged]%andb_true_iff. split; [|done]. apply archive_names_spec.
    split; [done|]. by destruct (es !! n). }
  split.
  - intros n [Hn Haged]%Hold.
    split; eapply sweep_removed; eauto using archive_names_NoDup.
  - intros k Hk. apply sweep_kept; [apply archive_names_NoDup|done|].
    intros n Hn Haged. apply Hk. unfold is_old. by rewrite (Hmatch n Hn), Haged.
Qed.

Lemma cleanup_directory_afterwards_witness :
  ∃ count w' es',
    cleanup_old_backups Lab.env_later Lab.tool 30 Lab.backed_up_twice = (Ok count, w') ∧
    get (fs w') (backup_dir Lab.tool) = Some (Dir es') ∧
    (∀ n, is_old (clock Lab.env_later - 30 * day) (Lab.shelf Lab.backed_up_twice) n = true →
          es' !! n = None ∧ es' !! metadata_of n = None) ∧
    (∀ k, (∀ n, is_old (clock Lab.env_later - 30 * day) (Lab.shelf Lab.backed_up_twice) n = true →
                k ≠ n ∧ k ≠ metadata_of n) →
          es' !! k = Lab.shelf Lab.backed_up_twice !! k).
Proof.
  assert (∀ n ds, Lab.shelf Lab.backed_up_twice !! n ≠ Some (Dir ds)) as Hfiles.
  { apply no_directory_among, map_Forall_to_list. vm_compute. repeat constructor. }
  apply (cleanup_directory_afterwards Lab.env_later Lab.tool 30 Lab.backed_up_twice
           (Lab.shelf Lab.backed_up_twice)).
  - vm_compute. reflexivity.
  - intros n ds Hn. by destruct (Hfiles n ds).
  - intros n ds _. apply Hfiles.
Defined.

(** X2. When no archive in the backup root is older than the cutoff, the
    sweep returns 0 and leaves the file system as it is. *)
Theorem cleanup_nothing_old E self keep_days w es :
  get (fs w) (backup_dir self) = Some (Dir es) →
  (∀ n ds, es !! n = Some (Dir ds) → fnmatch n archive_glob = false) →
  (∀ n m d, es !! n = Some (File m d) → fnmatch n archive_glob = true →
            clock E - keep_days * day ≤ m) →
  ∃ w', cleanup_old_backups E self keep_days w = (Ok 0%nat, w') ∧ fs w' = fs w.
Proof.
  intros Hbd Hfiles Hyoung.
  unfold cleanup_old_backups.
  erewrite bind_ok; [|reflexivity]. cbv beta zeta.
  erewrite bind_ok; [|reflexivity]. cbv beta.
  unfold children. cbn [fs emit]. rewrite Hbd.
  erewrite bind_ok.
  2:{ apply cleanup_loop_young. cbn [fs]. intros n [Hm [t Hn]]%archive_names_spec.
      rewrite (get_at _ _ _ Hbd). cbn [get]. rewrite Hn.
      destruct t as [m d|ds]; [eauto|]. rewrite (Hfiles _ _ Hn) in Hm. done. }
  run_step. eexists. done.
Qed.

Lemma cleanup_nothing_old_witness :
  ∃ w', cleanup_old_backups Lab.env_later Lab.tool 60 Lab.backed_up_twice = (Ok 0%nat, w') ∧
        fs w' = fs Lab.backed_up_twice.
Proof.
  assert (map_Forall (λ n t, match t with
                             | File m _ => clock Lab.env_later - 60 * day ≤ m
                             | Dir _ => False
                             end) (Lab.shelf Lab.backed_up_twice)) as Hall.
  { apply map_Forall_to_list. vm_compute. repeat constructor; discriminate. }
  apply (cleanup_nothing_old Lab.env_later Lab.tool 60 Lab.backed_up_twice
           (Lab.shelf Lab.backed_up_twice)).
  - vm_compute. reflexivity.
  - intros n ds Hn. by destruct (Hall n _ Hn).
  - intros n m d Hn _. exact (Hall n _ Hn).
Defined.

(** X3. The sweep is idempotent: run again at the same time with the
    same retention, it finds nothing to remove, returns 0 and leaves the
    file system as the first run left it. *)
Theorem cleanup_twice E self keep_days w es :
  get (fs w) (backup_dir self) = Some (Dir es) →
  (∀ n ds, es !! n = Some (Dir ds) → fnmatch n archive_glob = false) →
  (∀ n ds, fnmatch n archive_glob = true → es !! metadata_of n ≠ Some (Dir ds)) →
  ∃ count w1 w2,
    cleanup_old_backups E self keep_days w = (Ok count, w1) ∧
    cleanup_old_backups E self keep_days w1 = (Ok 0%nat, w2) ∧
    fs w2 = fs w1.
Proof.
  intros Hbd Hfiles Hmeta.
  destruct (cleanup_run E self keep_days w es Hbd Hfiles Hmeta) as [tr Hrun].
  set (cutoff := clock E - keep_days * day) in *.
  set (es1 := sweep cutoff es (archive_names es)) in *.
  set (w1 := {| fs := _; trace := _ |}) in Hrun.
  assert (get (fs w1) (backup_dir self) = Some (Dir es1)) as Hbd1
    by (apply get_update_at; eauto).
  destruct (cleanup_run E self keep_days w1 es1 Hbd1) as [tr' Hrun'].
  { by apply sweep_files. }
  { by apply sweep_sidecars. }
  fold cutoff in Hrun'.
  destruct (sweep_nothing cutoff (archive_names es1) es1) as [Hsweep Hswept].
  { intros n [Hm _]%archive_names_spec. by apply sweep_leaves_young. }
  rewrite Hsweep, Hswept in Hrun'.
  eexists _, w1, _. split; [exact Hrun|]. split; [exact Hrun'|]. cbn [fs].
  by apply update_id.
Qed.

Lemma cleanup_twice_witness :
  ∃ count w1 w2,
    cleanup_old_backups Lab.env_later Lab.tool 30 Lab.backed_up_twice = (Ok count, w1) ∧
    cleanup_old_backups Lab.env_later Lab.tool 30 w1 = (Ok 0%nat, w2) ∧
    fs w2 = fs w1.
Proof.
  assert (∀ n ds, Lab.shelf Lab.backed_up_twice !! n ≠ Some (Dir ds)) as Hfiles.
  { apply no_directory_among, map_Forall_to_list. vm_compute. repeat constructor. }
  apply (cleanup_twice Lab.env_later Lab.tool 30 Lab.backed_up_twice
           (Lab.shelf Lab.backed_up_twice)).
  - vm_compute. reflexivity.
  - intros n ds Hn. by destruct (Hfiles n ds).
  - intros n ds _. apply Hfiles.
Defined.

(** X4. The files the sweep goes through are exactly the entries of the
    backup root whose name is [a ++ "backup_" ++ b ++ ".tar.gz"] for some
    [a] and [b], each listed once: any prefix will do, so the sweep is not
    confined to the three kinds of archive the tool writes. *)
Theorem sweep_candidates (self : TelecomBackup) w es :
  get (fs w) (backup_dir self) = Some (Dir es) →
  ∃ files,
    glob (backup_dir self) "*backup_*.tar.gz" w = (Ok files, w) ∧
    NoDup files ∧
    ∀ p, p ∈ files ↔
         ∃ a b, p = backup_dir self ++ [a +:+ "backup_" +:+ b +:+ ".tar.gz"] ∧
                is_Some (get (fs w) p).
Proof.
  intros Hbd. eexists. split; [reflexivity|]. unfold children. rewrite Hbd.
  fold archive_glob. fold (archive_names es). split.
  - apply NoDup_fmap_2; [|apply archive_names_NoDup]. intros n1 n2 Heq.
    apply app_inv_head in Heq. by simplify_eq.
  - intros p. rewrite list_elem_of_fmap. split.
    + intros (n & -> & [Hm Hn]%archive_names_spec).
      apply archive_glob_iff in Hm as (a & b & ->). exists a, b. split; [done|].
      rewrite (get_at _ _ _ Hbd). cbn [get]. by destruct (es !! _).
    + intros (a & b & -> & Hp). eexists. split; [done|]. apply archive_names_spec.
      split; [apply archive_glob_iff; eauto|].
      rewrite (get_at _ _ _ Hbd) in Hp. cbn [get] in Hp. by destruct (es !! _).
Qed.

Lemma sweep_candidates_witness :
  ∃ files,
    glob (backup_dir Lab.tool) "*backup_*.tar.gz" Lab.backed_up = (Ok files, Lab.backed_up) ∧
    NoDup files ∧
    ∀ p, p ∈ files ↔
         ∃ a b, p = backup_dir Lab.tool ++ [a +:+ "backup_" +:+ b +:+ ".tar.gz"] ∧
                is_Some (get (fs Lab.backed_up) p).
Proof.
  apply (sweep_candidates Lab.tool Lab.backed_up (Lab.shelf Lab.backed_up)).
  vm_compute. reflexivity.
Defined.

(** ** Configuration backup *)

(** X5. A configuration backup that returns has changed nothing but its
    archive: the staging directory is gone again, every other entry of the
    backup root and everything outside the backup root is as before. *)
Theorem backup_configurations_frame E self timestamp w es :
  get (fs w) (backup_dir self) = Some (Dir es) →
  es !! ("config_" +:+ timestamp) = None →
  (∀ ds, es !! archive_of Config timestamp ≠ Some (Dir ds)) →
  Forall (λ pair, apart (backup_dir self) pair.2) (config_pairs self) →
  NoDup (result_key <$> config_pairs self) →
  ∃ results w' es',
    backup_configurations E self timestamp w = (Ok results, w') ∧
    get (fs w') (backup_dir self) = Some (Dir es') ∧
    es' !! ("config_" +:+ timestamp) = None ∧
    (∀ n, n ≠ archive_of Config timestamp → es' !! n = es !! n) ∧
    (∀ q, apart (backup_dir self) q → get (fs w') q = get (fs w) q).
Proof.
  intros Hbd Hfresh Harch Hapart Hnodup.
  destruct (backup_configurations_run E self timestamp w es Hbd Hfresh Harch Hapart Hnodup)
    as (tr & stg & Hrun & _).
  eexists _, _, _. split; [exact Hrun|]. cbn [fs].
  split; [apply get_update_at; eauto|]. split; [|split].
  - rewrite lookup_insert_ne; [done|]. apply staging_name_fresh.
  - intros n Hn. by rewrite lookup_insert_ne.
  - intros q Hq. by apply get_update_apart.
Qed.

Lemma backup_configurations_frame_witness :
  ∃ results w' es',
    backup_configurations Lab.env Lab.tool Lab.stamp0 Lab.started = (Ok results, w') ∧
    get (fs w') (backup_dir Lab.tool) = Some (Dir es') ∧
    es' !! ("config_" +:+ Lab.stamp0) = None ∧
    (∀ n, n ≠ archive_of Config Lab.stamp0 → es' !! n = (∅ : gmap string node) !! n) ∧
    (∀ q, apart (backup_dir Lab.tool) q → get (fs w') q = get (fs Lab.started) q).
Proof.
  apply (backup_configurations_frame Lab.env Lab.tool Lab.stamp0 Lab.started ∅).
  - vm_compute. reflexivity.
  - apply lookup_empty.
  - intros ds. rewrite lookup_empty. discriminate.
  - apply (bool_decide_unpack _). vm_compute. exact I.
  - apply (bool_decide_unpack _). vm_compute. exact I.
Defined.

(** ** Database restore *)

(** X6. When the archive holds the dump of every database to restore and
    [mysql] accepts each, the database restore returns [True], has run
    one [mysql] per database, in order and nothing else, and leaves the
    file system as it found it: the extraction directory is removed. *)
Theorem restore_database_success E self timestamp database w dumps :
  database_archive_ready self timestamp dumps (fs w) →
  Forall (restores_cleanly E self timestamp dumps) (databases_to_restore self database) →
  ∃ w' tr,
    restore_database E self timestamp database w = (Ok true, w') ∧
    fs w' = fs w ∧
    trace w' = trace w ++ tr ∧
    commands tr = mysql_restore self <$> databases_to_restore self database.
Proof.
  intros Hready Hall.
  destruct (restore_database_clean E self timestamp database w dumps Hready Hall)
    as (tr & Hrun & Hcmds).
  by eexists _, tr.
Qed.

Lemma restore_database_success_witness :
  ∃ w' tr,
    restore_database Lab.env Lab.tool Lab.stamp0 (Some "radius") Lab.backed_up = (Ok true, w') ∧
    fs w' = fs Lab.backed_up ∧
    trace w' = trace Lab.backed_up ++ tr ∧
    commands tr = mysql_restore Lab.tool <$> databases_to_restore Lab.tool (Some "radius").
Proof.
  apply (restore_database_success Lab.env Lab.tool Lab.stamp0 (Some "radius") Lab.backed_up
           Lab.dumps).
  - do 2 eexists. split; [vm_compute; reflexivity|]. split; vm_compute; reflexivity.
  - repeat constructor.
    do 3 eexists. split; [vm_compute; reflexivity|]. split; vm_compute; reflexivity.
Defined.

(** ** Database backup *)

(** X7. When the liveness check fails, by a non-zero exit or by an
    exception of [subprocess.run], the database backup returns its
    one-entry report having run no other command; it leaves the empty
    staging directory [database_T] in the backup root and writes no
    archive: every other entry of the backup root is as before. *)
Theorem backup_databases_unavailable E self timestamp w es report :
  get (fs w) (backup_dir self) = Some (Dir es) →
  es !! ("database_" +:+ timestamp) = None →
  match spawn E ["systemctl"; "is-active"; "mariadb"] None with
  | Ok r => returncode r ≠ 0 ∧ report = [("database_service", "not_running")]
  | Raise e => report = [("database_check", "error: " +:+ str_exn e)]
  end →
  ∃ tr,
    backup_databases E self timestamp w
    = (Ok report,
       {| fs := update (fs w) (backup_dir self)
                  (Some (Dir (<["database_" +:+ timestamp := Dir ∅]> es)));
          trace := trace w ++ tr |}) ∧
    commands tr = [["systemctl"; "is-active"; "mariadb"]].
Proof.
  intros Hbd Hfresh Hcheck. unfold backup_databases.
  erewrite bind_ok; [|reflexivity]. cbv beta zeta.
  erewrite bind_ok.
  2:{ unfold mkdir, modify_fs, logger, tell, emit. cbn [fs trace].
      erewrite (fs_mkdir_at _ _ _ Hbd).
      2:{ unfold fs_mkdir. cbn [get mkdirs]. rewrite Hfresh. done. }
      reflexivity. }
  unfold with_fs. cbn [fs trace]. run_step.
  destruct (spawn E ["systemctl"; "is-active"; "mariadb"] None) as [r|e].
  - destruct Hcheck as [Hrc ->].
    destruct (Z.eqb_spec (returncode r) 0) as [?|_]; [done|].
    cbn [negb fs trace]. eexists. split; [by rewrite <-!app_assoc|done].
  - subst report. cbn [fs trace]. eexists. split; [by rewrite <-!app_assoc|done].
Qed.

Lemma backup_databases_unavailable_witness :
  ∃ tr,
    backup_databases Lab.env_db_down Lab.tool Lab.stamp0 Lab.started
    = (Ok [("database_service", "not_running")],
       {| fs := update (fs Lab.started) (backup_dir Lab.tool)
                  (Some (Dir (<["database_" +:+ Lab.stamp0 := Dir ∅]> ∅)));
          trace := trace Lab.started ++ tr |}) ∧
    commands tr = [["systemctl"; "is-active"; "mariadb"]].
Proof.
  apply (backup_databases_unavailable Lab.env_db_down Lab.tool Lab.stamp0 Lab.started ∅).
  - vm_compute. reflexivity.
  - apply lookup_empty.
  - split; [discriminate|reflexivity].
Defined.

(** ** Configuration restore *)

(** X8. Restoring a named service whose first registered path was backed
    up as a directory, while that path is no directory any more (removed,
    or replaced by a regular file): the branch for a named service copies
    with [shutil.copy2], which fails on a directory; the restore returns
    [False], the path is left as it is, and the extraction directory stays
    in the backup root. *)
Theorem restore_service_not_a_directory E self timestamp service p rest w staged sub live :
  config_archive_ready self timestamp staged (fs w) →
  service ≠ "" →
  Dict.get (config_paths self) service = Some (p :: rest) →
  staged !! service = Some (Dir sub) → sub !! name p = Some (Dir live) →
  is_dir (fs w) p = false →
  apart (backup_dir self) p →
  ∃ w',
    restore_configuration E self timestamp (Some service) w = (Ok false, w') ∧
    get (fs w') p = get (fs w) p ∧
    is_dir (fs w') (backup_dir self ++ ["temp_restore_" +:+ timestamp]) = true.
Proof.
  intros Hready Hservice Hpaths Hsvc Hsub Hlive Hapart.
  destruct (restore_configuration_prelude E self timestamp (Some service) w staged Hready)
    as (es & Hbd & Hrun).
  cbv zeta in Hrun. rewrite Hrun. clear Hrun.
  destruct Hready as (es' & m & Hbd' & Harc & Htmp). simplify_eq.
  assert (is_Some (get (fs w) (backup_dir self))) as Hsome by eauto.
  set (w1 := {| fs := _; trace := _ |}).
  set (temp_dir := backup_dir self ++ ["temp_restore_" +:+ timestamp]).
  assert (get (fs w1) (temp_dir ++ ["config_" +:+ timestamp]) = Some (Dir staged)) as Hdir
    by by apply staged_dumps_at.
  assert (get (fs w1) p = get (fs w) p) as Hsame.
  { subst w1. cbn [fs]. by rewrite get_mount_apart. }
  assert (is_dir (fs w1) temp_dir = true) as Htemp.
  { subst w1 temp_dir. cbn [fs]. rewrite is_dir_mount by done. unfold is_dir. cbn [get].
    by rewrite lookup_insert_eq. }
  assert (truthy (Some service) = Some service) as -> by by destruct service.
  unfold try_ at 1. run_step. rewrite (exists_at _ _ _ Hdir). unfold exists_ at 1.
  cbn [get]. rewrite Hsvc, Hpaths. cbn [default from_option id foldM].
  unfold restore_path_of_service. run_step.
  rewrite <-!(app_assoc (temp_dir ++ ["config_" +:+ timestamp]) [service] [name p]).
  cbn [app]. rewrite (exists_at _ _ _ Hdir). unfold exists_ at 1.
  cbn [get]. rewrite Hsvc, Hsub. cbn [fs trace].
  assert (is_dir (fs w1) p = false) as Hlive1 by (unfold is_dir; by rewrite Hsame).
  rewrite Hlive1.
  destruct (io_fault E _) as [e|]; cbn [fs trace].
  - eexists. split; [done|]. cbn [fs]. by rewrite Hsame, Htemp.
  - rewrite (get_at _ _ _ Hdir). cbn [get]. rewrite Hsvc, Hsub. cbn [fs trace].
    eexists. split; [done|]. cbn [fs]. by rewrite Hsame, Htemp.
Qed.

Lemma restore_service_not_a_directory_witness :
  ∃ w',
    restore_configuration Lab.env Lab.tool Lab.stamp0 (Some "kamailio")
      {| fs := update (fs Lab.backed_up) ["etc"; "kamailio"] None; trace := [] |}
      = (Ok false, w') ∧
    get (fs w') ["etc"; "kamailio"]
      = get (update (fs Lab.backed_up) ["etc"; "kamailio"] None) ["etc"; "kamailio"] ∧
    is_dir (fs w') (backup_dir Lab.tool ++ ["temp_restore_" +:+ Lab.stamp0]) = true.
Proof.
  apply (restore_service_not_a_directory Lab.env Lab.tool Lab.stamp0 "kamailio"
           ["etc"; "kamailio"] []
           {| fs := update (fs Lab.backed_up) ["etc"; "kamailio"] None; trace := [] |}
           Lab.staged
           {[ "kamailio" := Dir {[ "a.cfg" := File 1600000000000000
                                                (Raw "listen=udp:10.0.0.1:5060") ]} ]}
           {[ "a.cfg" := File 1600000000000000 (Raw "listen=udp:10.0.0.1:5060") ]}).
  - do 2 eexists. split; [vm_compute; reflexivity|]. split; vm_compute; reflexivity.
  - discriminate.
  - reflexivity.
  - vm_compute. reflexivity.
  - vm_compute. reflexivity.
  - vm_compute. reflexivity.
  - apply (bool_decide_unpack _). vm_compute. exact I.
Defined.

(** X9. With MariaDB up, the database backup returns a report with one
    entry per configured database, in order, followed by the entry of the
    Galera status: [success], [error: <stderr>] for a non-zero exit, or
    [exception: ...] when the command could not be run.  A failing dump
    does not stop the others.  The archive holds, for each database, the
    gzip of the dump when [mysqldump] succeeded and no plain dump, and
    otherwise the plain output and no gzip; and it holds the Galera status
    file. *)
Theorem backup_databases_outcomes E self timestamp w es r0 :
  get (fs w) (backup_dir self) = Some (Dir es) →
  es !! ("database_" +:+ timestamp) = None →
  (∀ ds, es !! archive_of Database timestamp ≠ Some (Dir ds)) →
  spawn E ["systemctl"; "is-active"; "mariadb"] None = Ok r0 → returncode r0 = 0 →
  NoDup (db_databases self) →
  "galera_cluster_info" ∉ db_databases self →
  ∃ w' dumps,
    backup_databases E self timestamp w
    = (Ok (database_report E self (db_databases self)
           ++ [("galera_cluster_info", ran E galera_command)]), w') ∧
    get (fs w') (backup_dir self ++ [archive_of Database timestamp])
      = Some (File (clock E) (TarGz [("database_" +:+ timestamp, Dir dumps)])) ∧
    dumps !! galera_name timestamp
      = Some (File (clock E) (Raw (captured E galera_command))) ∧
    ∀ database, database ∈ db_databases self →
      dumps !! dump_name database timestamp
        = (if went_well E (dump_command self database)
           then Some (File (clock E) (Gz (Raw (captured E (dump_command self database)))))
           else None) ∧
      dumps !! sql_name database timestamp
        = (if went_well E (dump_command self database)
           then None
           else Some (File (clock E) (Raw (captured E (dump_command self database))))).
Proof.
  intros Hbd Hfresh Harch Hlive Hrc Hnodup Hgalera.
  destruct (backup_databases_run E self timestamp w es r0 Hbd Hfresh Harch Hlive Hrc Hnodup)
    as (tr & dumps & Hrun & Hdumps).
  rewrite dict_set_fresh in Hrun
    by (unfold database_report; by rewrite keys_of_report).
  eexists _, _. split; [exact Hrun|]. cbn [fs]. split; [|split].
  - rewrite get_mount by eauto. cbn [get]. by rewrite lookup_insert_eq.
  - by rewrite lookup_insert_eq.
  - intros database Hin.
    destruct (dumps_of_lookup E self timestamp _ dumps database Hdumps Hin) as [Hgz Hsql].
    rewrite !lookup_insert_ne; [done|..].
    + intros Heq. apply (f_equal last_char) in Heq.
      by rewrite last_char_galera, last_char_sql in Heq.
    + intros Heq. apply (f_equal last_char) in Heq.
      by rewrite last_char_galera, dump_name_gz, last_char_gz in Heq.
Qed.

Lemma backup_databases_outcomes_witness :
  ∃ w' dumps,
    backup_databases Lab.env_dump_fails Lab.tool Lab.stamp0 Lab.started
    = (Ok (database_report Lab.env_dump_fails Lab.tool (db_databases Lab.tool)
           ++ [("galera_cluster_info", ran Lab.env_dump_fails galera_command)]), w') ∧
    get (fs w') (backup_dir Lab.tool ++ [archive_of Database Lab.stamp0])
      = Some (File (clock Lab.env_dump_fails)
                   (TarGz [("database_" +:+ Lab.stamp0, Dir dumps)])) ∧
    dumps !! galera_name Lab.stamp0
      = Some (File (clock Lab.env_dump_fails)
                   (Raw (captured Lab.env_dump_fails galera_command))) ∧
    ∀ database, database ∈ db_databases Lab.tool →
      dumps !! dump_name database Lab.stamp0
        = (if went_well Lab.env_dump_fails (dump_command Lab.tool database)
           then Some (File (clock Lab.env_dump_fails)
                        (Gz (Raw (captured Lab.env_dump_fails
                                    (dump_command Lab.tool database)))))
           else None) ∧
      dumps !! sql_name database Lab.stamp0
        = (if went_well Lab.env_dump_fails (dump_command Lab.tool database)
           then None
           else Some (File (clock Lab.env_dump_fails)
                        (Raw (captured Lab.env_dump_fails
                                (dump_command Lab.tool database))))).
Proof.
  apply (backup_databases_outcomes Lab.env_dump_fails Lab.tool Lab.stamp0 Lab.started ∅
           (Completed 0 "" "")).
  - vm_compute. reflexivity.
  - apply lookup_empty.
  - intros ds. rewrite lookup_empty. discriminate.
  - reflexivity.
  - reflexivity.
  - apply (bool_decide_unpack _). vm_compute. exact I.
  - apply (bool_decide_unpack _). vm_compute. exact I.
Defined.

(** X10. Database round trip: after a database backup in which every
    dump succeeded, restoring all databases from that timestamp hands
    [mysql], for each database in order, the content of its [.sql.gz] file
    as stored, the gzip stream of what [mysqldump] printed; when [mysql]
    accepts each, the restore returns [True], has run nothing else, and
    leaves the file system as the backup left it. *)
Theorem database_round_trip E E' self timestamp w es r0 :
  get (fs w) (backup_dir self) = Some (Dir es) →
  es !! ("database_" +:+ timestamp) = None →
  es !! ("temp_db_restore_" +:+ timestamp) = None →
  (∀ ds, es !! archive_of Database timestamp ≠ Some (Dir ds)) →
  spawn E ["systemctl"; "is-active"; "mariadb"] None = Ok r0 → returncode r0 = 0 →
  NoDup (db_databases self) →
  Forall (λ database,
            went_well E (dump_command self database) = true ∧
            ∃ r, spawn E' (mysql_restore self database)
                   (Some (Gz (Raw (captured E (dump_command self database))))) = Ok r ∧
                 returncode r = 0)
         (db_databases self) →
  ∃ results w1 w2 tr,
    backup_databases E self timestamp w = (Ok results, w1) ∧
    restore_database E' self timestamp None w1 = (Ok true, w2) ∧
    fs w2 = fs w1 ∧
    trace w2 = trace w1 ++ tr ∧
    commands tr = mysql_restore self <$> db_databases self.
Proof.
  intros Hbd Hfresh Htmp Harch Hlive Hrc Hnodup Hall.
  destruct (backup_databases_run E self timestamp w es r0 Hbd Hfresh Harch Hlive Hrc Hnodup)
    as (tr1 & dumps & Hrun & Hdumps).
  set (w1 := {| fs := _; trace := _ |}) in Hrun.
  set (dumps' := <[galera_name timestamp := _]> dumps) in *.
  destruct (restore_database_clean E' self timestamp None w1 dumps') as (tr & Hrestore & Hcmds).
  - eexists _, _. subst w1. cbn [fs]. split; [apply get_update_at; eauto|]. split.
    + by rewrite lookup_insert_eq.
    + rewrite lookup_insert_ne; [done|].
      intros Heq. symmetry in Heq. by apply db_restore_name_fresh in Heq.
  - apply Forall_forall. intros database Hin.
    destruct (proj1 (Forall_forall _ _) Hall database Hin) as (Hwell & r & Hspawn & Hr).
    destruct (dumps_of_lookup E self timestamp _ dumps database Hdumps Hin) as [Hgz _].
    rewrite Hwell in Hgz. eexists _, _, r. split; [|done].
    subst dumps'. rewrite lookup_insert_ne; [exact Hgz|].
    intros Heq. apply (f_equal last_char) in Heq.
    by rewrite last_char_galera, dump_name_gz, last_char_gz in Heq.
  - eexists _, w1, _, tr. split; [exact Hrun|]. split; [exact Hrestore|]. done.
Qed.

Lemma database_round_trip_witness :
  ∃ results w1 w2 tr,
    backup_databases Lab.env Lab.tool Lab.stamp0 Lab.started = (Ok results, w1) ∧
    restore_database Lab.env Lab.tool Lab.stamp0 None w1 = (Ok true, w2) ∧
    fs w2 = fs w1 ∧
    trace w2 = trace w1 ++ tr ∧
    commands tr = mysql_restore Lab.tool <$> db_databases Lab.tool.
Proof.
  apply (database_round_trip Lab.env Lab.env Lab.tool Lab.stamp0 Lab.started ∅
           (Completed 0 "" "")).
  - vm_compute. reflexivity.
  - apply lookup_empty.
  - apply lookup_empty.
  - intros ds. rewrite lookup_empty. discriminate.
  - reflexivity.
  - reflexivity.
  - apply (bool_decide_unpack _). vm_compute. exact I.
  - repeat constructor; eexists; split; reflexivity.
Defined.

(** X11. A dump that failed at backup time stops a later restore of all
    databases: the restore runs [mysql] for the databases before it,
    finds no [.sql.gz] for it, and returns [False] without going on to the
    databases after it. *)
Theorem failed_dump_stops_restore E E' self timestamp w es r0 done database rest :
  get (fs w) (backup_dir self) = Some (Dir es) →
  es !! ("database_" +:+ timestamp) = None →
  es !! ("temp_db_restore_" +:+ timestamp) = None →
  (∀ ds, es !! archive_of Database timestamp ≠ Some (Dir ds)) →
  spawn E ["systemctl"; "is-active"; "mariadb"] None = Ok r0 → returncode r0 = 0 →
  NoDup (db_databases self) →
  db_databases self = done ++ database :: rest →
  Forall (λ database,
            went_well E (dump_command self database) = true ∧
            ∃ r, spawn E' (mysql_restore self database)
                   (Some (Gz (Raw (captured E (dump_command self database))))) = Ok r ∧
                 returncode r = 0)
         done →
  went_well E (dump_command self database) = false →
  ∃ results w1 w2 tr,
    backup_databases E self timestamp w = (Ok results, w1) ∧
    restore_database E' self timestamp None w1 = (Ok false, w2) ∧
    trace w2 = trace w1 ++ tr ∧
    commands tr = mysql_restore self <$> done.
Proof.
  intros Hbd Hfresh Htmp Harch Hlive Hrc Hnodup Hdbs Hdone Hfailed.
  destruct (backup_databases_run E self timestamp w es r0 Hbd Hfresh Harch Hlive Hrc Hnodup)
    as (tr1 & dumps & Hrun & Hdumps).
  set (w1 := {| fs := _; trace := _ |}) in Hrun.
  set (dumps' := <[galera_name timestamp := _]> dumps) in *.
  assert (∀ db, dumps' !! dump_name db timestamp = dumps !! dump_name db timestamp) as Hsame.
  { intros db. subst dumps'. rewrite lookup_insert_ne; [done|].
    intros Heq. apply (f_equal last_char) in Heq.
    by rewrite last_char_galera, dump_name_gz, last_char_gz in Heq. }
  assert (database ∈ db_databases self) as Hin.
  { rewrite Hdbs. apply elem_of_app. right. by left. }
  destruct (restore_database_stops E' self timestamp None w1 dumps' done database rest)
    as (w2 & tr & Hrestore & Htr & _ & Hcmds).
  - done.
  - eexists _, _. subst w1. cbn [fs]. split; [apply get_update_at; eauto|]. split.
    + by rewrite lookup_insert_eq.
    + rewrite lookup_insert_ne; [done|].
      intros Heq. symmetry in Heq. by apply db_restore_name_fresh in Heq.
  - apply Forall_forall. intros db Hdb.
    destruct (proj1 (Forall_forall _ _) Hdone db Hdb) as (Hwell & r & Hspawn & Hr).
    assert (db ∈ db_databases self) as Hdb' by (rewrite Hdbs; apply elem_of_app; by left).
    destruct (dumps_of_lookup E self timestamp _ dumps db Hdumps Hdb') as [Hgz _].
    rewrite Hwell in Hgz. eexists _, _, r. split; [|done]. by rewrite Hsame.
  - right. rewrite Hsame.
    destruct (dumps_of_lookup E self timestamp _ dumps database Hdumps Hin) as [Hgz _].
    by rewrite Hfailed in Hgz.
  - assert (dumps' !! dump_name database timestamp = None) as Hmiss.
    { rewrite Hsame.
      destruct (dumps_of_lookup E self timestamp _ dumps database Hdumps Hin) as [Hgz _].
      by rewrite Hfailed in Hgz. }
    eexists _, w1, w2, tr. split; [exact Hrun|]. by auto.
Qed.

Lemma failed_dump_stops_restore_witness :
  ∃ results w1 w2 tr,
    backup_databases Lab.env_dump_fails Lab.tool Lab.stamp0 Lab.started = (Ok results, w1) ∧
    restore_database Lab.env Lab.tool Lab.stamp0 None w1 = (Ok false, w2) ∧
    trace w2 = trace w1 ++ tr ∧
    commands tr = mysql_restore Lab.tool <$> ["kamailio"].
Proof.
  apply (failed_dump_stops_restore Lab.env_dump_fails Lab.env Lab.tool Lab.stamp0 Lab.started ∅
           (Completed 0 "" "") ["kamailio"] "radius" ["mysql"]).
  - vm_compute. reflexivity.
  - apply lookup_empty.
  - apply lookup_empty.
  - intros ds. rewrite lookup_empty. discriminate.
  - reflexivity.
  - reflexivity.
  - apply (bool_decide_unpack _). vm_compute. exact I.
  - reflexivity.
  - repeat constructor; eexists; split; reflexivity.
  - reflexivity.
Defined.


(** X12. Restoring all services: with registered paths that lie outside
    the backup root and apart from each other, each with a directory to go
    into, the restore returns [True]; every registered path that has a
    staged copy in the archive holds that copy afterwards, whatever was at
    the path before (nothing, a file, a directory); a registered path
    without a staged copy is left as it is; so is everything apart from
    the registered paths; and the backup root is as before, the extraction
    directory removed. *)
Theorem restore_all_services E self timestamp w staged :
  config_archive_ready self timestamp staged (fs w) →
  NoDup (Dict.keys (config_paths self)) →
  Forall (apart (backup_dir self)) (config_pairs self).*2 →
  all_apart (config_pairs self).*2 →
  Forall (λ p, is_dir (fs w) (parent p) = true) (config_pairs self).*2 →
  (∀ r, io_fault E (backup_dir self
                    ++ ["temp_restore_" +:+ timestamp; "config_" +:+ timestamp] ++ r) = None) →
  ∃ w',
    restore_configuration E self timestamp None w = (Ok true, w') ∧
    (∀ service p, (service, p) ∈ config_pairs self →
       get (fs w') p = match get (Dir staged) [service; name p] with
                       | Some x => Some x
                       | None => get (fs w) p
                       end) ∧
    (∀ q, apart (backup_dir self) q → (∀ pair, pair ∈ config_pairs self → apart pair.2 q) →
          get (fs w') q = get (fs w) q) ∧
    get (fs w') (backup_dir self) = get (fs w) (backup_dir self).
Proof. apply restore_configuration_all. Qed.

Lemma restore_all_services_witness :
  ∃ w',
    restore_configuration Lab.env Lab.tool Lab.stamp0 None
      {| fs := update (fs Lab.backed_up) ["etc"; "kamailio"] None; trace := [] |}
      = (Ok true, w') ∧
    (∀ service p, (service, p) ∈ config_pairs Lab.tool →
       get (fs w') p = match get (Dir Lab.staged) [service; name p] with
                       | Some x => Some x
                       | None => get (update (fs Lab.backed_up) ["etc"; "kamailio"] None) p
                       end) ∧
    (∀ q, apart (backup_dir Lab.tool) q →
          (∀ pair, pair ∈ config_pairs Lab.tool → apart pair.2 q) →
          get (fs w') q = get (update (fs Lab.backed_up) ["etc"; "kamailio"] None) q) ∧
    get (fs w') (backup_dir Lab.tool)
      = get (update (fs Lab.backed_up) ["etc"; "kamailio"] None) (backup_dir Lab.tool).
Proof.
  apply (restore_all_services Lab.env Lab.tool Lab.stamp0
           {| fs := update (fs Lab.backed_up) ["etc"; "kamailio"] None; trace := [] |}
           Lab.staged).
  - do 2 eexists. split; [vm_compute; reflexivity|]. split; vm_compute; reflexivity.
  - apply (bool_decide_unpack _). vm_compute. exact I.
  - apply (bool_decide_unpack _). vm_compute. exact I.
  - apply (bool_decide_unpack _). vm_compute. exact I.
  - apply (bool_decide_unpack _). vm_compute. exact I.
  - intros r. reflexivity.
Defined.

(** X13. Configuration round trip over all services: after a
    configuration backup at [timestamp], in any later world whose backup
    root is as the backup left it, restoring all services returns [True]
    and puts every path that was backed up back as it was at backup time,
    also when it has been removed or replaced since; a registered path
    that was absent or unreadable at backup time is left as it is. *)
Theorem backup_restore_all_round_trip E E' self timestamp w es :
  get (fs w) (backup_dir self) = Some (Dir es) →
  es !! ("config_" +:+ timestamp) = None →
  es !! ("temp_restore_" +:+ timestamp) = None →
  (∀ ds, es !! archive_of Config timestamp ≠ Some (Dir ds)) →
  Forall (apart (backup_dir self)) (config_pairs self).*2 →
  all_apart (config_pairs self).*2 →
  NoDup (result_key <$> config_pairs self) →
  NoDup (Dict.keys (config_paths self)) →
  (∀ r, io_fault E' (backup_dir self
                     ++ ["temp_restore_" +:+ timestamp; "config_" +:+ timestamp] ++ r) = None) →
  ∃ results w1,
    backup_configurations E self timestamp w = (Ok results, w1) ∧
    ∀ w2,
      get (fs w2) (backup_dir self) = get (fs w1) (backup_dir self) →
      Forall (λ p, is_dir (fs w2) (parent p) = true) (config_pairs self).*2 →
      ∃ w3,
        restore_configuration E' self timestamp None w2 = (Ok true, w3) ∧
        ∀ service p, (service, p) ∈ config_pairs self →
          get (fs w3) p = match copied E (fs w) p with
                          | Some x => Some x
                          | None => get (fs w2) p
                          end.
Proof.
  intros Hbd Hfresh Htmp Harch Hout Hall Hnodup Hkeys Hio.
  assert (Forall (λ pair, apart (backup_dir self) pair.2) (config_pairs self)) as Hout'.
  { apply Forall_forall. intros pair Hpair. apply (proj1 (Forall_forall _ _) Hout).
    apply list_elem_of_fmap. eauto. }
  destruct (backup_configurations_run E self timestamp w es Hbd Hfresh Harch Hout' Hnodup)
    as (tr & stg & Hrun & Hinv).
  eexists _, _. split; [exact Hrun|]. cbn [fs]. intros w2 Hroot Hparents.
  rewrite get_update_at in Hroot by eauto.
  destruct (restore_configuration_all E' self timestamp w2 stg) as (w3 & Hrestore & Hput & _);
    try done.
  - eexists _, _. split; [exact Hroot|]. split; [by rewrite lookup_insert_eq|].
    rewrite lookup_insert_ne; [done|].
    intros Heq. symmetry in Heq. by apply restore_name_fresh in Heq.
  - exists w3. split; [done|]. intros service p Hin. rewrite (Hput service p Hin).
    by rewrite (staged_for_get E (fs w) _ _ _ _ Hnodup Hinv Hin).
Qed.

Lemma backup_restore_all_round_trip_witness :
  ∃ results w1,
    backup_configurations Lab.env Lab.tool Lab.stamp0 Lab.started = (Ok results, w1) ∧
    ∀ w2,
      get (fs w2) (backup_dir Lab.tool) = get (fs w1) (backup_dir Lab.tool) →
      Forall (λ p, is_dir (fs w2) (parent p) = true) (config_pairs Lab.tool).*2 →
      ∃ w3,
        restore_configuration Lab.env Lab.tool Lab.stamp0 None w2 = (Ok true, w3) ∧
        ∀ service p, (service, p) ∈ config_pairs Lab.tool →
          get (fs w3) p = match copied Lab.env (fs Lab.started) p with
                          | Some x => Some x
                          | None => get (fs w2) p
                          end.
Proof.
  apply (backup_restore_all_round_trip Lab.env Lab.env Lab.tool Lab.stamp0 Lab.started ∅).
  - vm_compute. reflexivity.
  - apply lookup_empty.
  - apply lookup_empty.
  - intros ds. rewrite lookup_empty. discriminate.
  - apply (bool_decide_unpack _). vm_compute. exact I.
  - apply (bool_decide_unpack _). vm_compute. exact I.
  - apply (bool_decide_unpack _). vm_compute. exact I.
  - apply (bool_decide_unpack _). vm_compute. exact I.
  - intros r. reflexivity.
Defined.

(** ** Monitoring backup *)

(** X14. With the backup root a directory that holds no staging
    directory of this timestamp, and the docker volumes and the dashboards
    outside the backup root, the monitoring backup always returns: a
    volume or dashboard copy that fails is an entry of the report, not an
    exception.  Afterwards the archive is written, the staging directory
    is gone, and nothing else has changed. *)
Theorem backup_monitoring_data_returns E self timestamp w es :
  get (fs w) (backup_dir self) = Some (Dir es) →
  es !! ("monitoring_" +:+ timestamp) = None →
  (∀ ds, es !! ("monitoring_backup_" +:+ timestamp +:+ ".tar.gz") ≠ Some (Dir ds)) →
  apart (backup_dir self) volumes_dir →
  apart (backup_dir self) dashboards_dir →
  ∃ results w' n,
    backup_monitoring_data E self timestamp w = (Ok results, w') ∧
    get (fs w') (backup_dir self ++ ["monitoring_backup_" +:+ timestamp +:+ ".tar.gz"])
      = Some (File (clock E) (TarGz [("monitoring_" +:+ timestamp, n)])) ∧
    get (fs w') (backup_dir self ++ ["monitoring_" +:+ timestamp]) = None ∧
    ∀ q, apart (backup_dir self ++ ["monitoring_" +:+ timestamp]) q →
         apart (backup_dir self ++ ["monitoring_backup_" +:+ timestamp +:+ ".tar.gz"]) q →
         get (fs w') q = get (fs w) q.
Proof. intros Hbd Hfresh Harch _ _. by apply (backup_monitoring_data_run E self timestamp w es). Qed.

Lemma backup_monitoring_data_returns_witness :
  ∃ results w' n,
    backup_monitoring_data Lab.env Lab.tool Lab.stamp0 Lab.started = (Ok results, w') ∧
    get (fs w') (backup_dir Lab.tool ++ ["monitoring_backup_" +:+ Lab.stamp0 +:+ ".tar.gz"])
      = Some (File (clock Lab.env) (TarGz [("monitoring_" +:+ Lab.stamp0, n)])) ∧
    get (fs w') (backup_dir Lab.tool ++ ["monitoring_" +:+ Lab.stamp0]) = None ∧
    ∀ q, apart (backup_dir Lab.tool ++ ["monitoring_" +:+ Lab.stamp0]) q →
         apart (backup_dir Lab.tool ++ ["monitoring_backup_" +:+ Lab.stamp0 +:+ ".tar.gz"]) q →
         get (fs w') q = get (fs Lab.started) q.
Proof.
  apply (backup_monitoring_data_returns Lab.env Lab.tool Lab.stamp0 Lab.started ∅).
  - vm_compute. reflexivity.
  - apply lookup_empty.
  - intros ds. rewrite lookup_empty. discriminate.
  - apply (bool_decide_unpack _). vm_compute. exact I.
  - apply (bool_decide_unpack _). vm_compute. exact I.
Defined.
